(** * The self-learning RAG workflow and its retrieval layer

    A shallow embedding of the core of the AI playground:

    - [VectorStore]        src/lib/ai/utils/vector-store.ts
    - [DocumentProcessing] src/lib/ai/utils/document-processing.ts
    - [AnswerGeneration]   src/lib/ai/utils/answer-generation.ts
    - [SelfEvaluation]     src/lib/ai/utils/self-evaluation.ts
    - [QueryRefinement]    src/lib/ai/utils/query-refinement.ts
    - [RagWorkflow]        src/lib/ai/graphs/rag-workflow.ts

    Part I holds the definitions, Part II the lemmas and theorems.

    Conventions of the embedding.

    - A JavaScript [number] is a type [num] with the operations of the class
      [JsNumber].  Two instances are given: [double_number], the IEEE 754
      binary64 numbers the program actually runs on (the kernel's primitive
      floats, so every definition evaluates), and [real_number], the exact
      real numbers, in which rounding, overflow and NaN do not exist.
    - A function that may throw returns an [Outcome]; a thrown value is an
      [Error] object, represented by its message.
    - Calls that leave the process (the embedding service, the language
      model, the database) are fields of an environment record; the
      theorems quantify over every environment.
    - [Array.prototype.sort] with the comparator [b.score - a.score] is
      the stable sort by decreasing score as long as no score is NaN.
      With a NaN score the comparator is inconsistent and the order is
      the engine's: a field of the store of which only this is known,
      that it rearranges.
    - Strings are [string]s of 8-bit characters: whitespace, case folding
      and lengths are those of ASCII text. *)

From Stdlib Require Import ZArith List String Ascii Bool Arith Lia.
From Stdlib Require Import Reals Lra.
From Stdlib Require Import Permutation Sorted.
From Stdlib Require Import Floats Uint63.
Import ListNotations.

Set Implicit Arguments.

(* ================================================================== *)
(** * Part I: definitions *)
(* ================================================================== *)

(** ** Results of calls that may throw *)

Inductive Outcome (A : Type) : Type :=
| Returns (value : A)
| Throws (message : string).

Arguments Returns {A} value.
Arguments Throws {A} message.

(** [try { body } catch (error) { handler(error.message) }] *)
Definition try_catch {A : Type} (body : Outcome A) (handler : string -> Outcome A)
  : Outcome A :=
  match body with
  | Returns a => Returns a
  | Throws e => handler e
  end.

(** [await Promise.all(xs.map(f))] and [xs.map(f)] with an [f] that may
    throw: the first failure aborts the whole traversal. *)
Fixpoint mapM {A B : Type} (f : A -> Outcome B) (l : list A) : Outcome (list B) :=
  match l with
  | [] => Returns []
  | x :: l' =>
      match f x with
      | Throws e => Throws e
      | Returns y =>
          match mapM f l' with
          | Throws e => Throws e
          | Returns ys => Returns (y :: ys)
          end
      end
  end.

(** ** JavaScript numbers *)

Class JsNumber (num : Type) : Type := {
  of_Z : Z -> num;                 (* an integer literal or [.length] *)
  add : num -> num -> num;         (* a + b *)
  sub : num -> num -> num;         (* a - b *)
  mul : num -> num -> num;         (* a * b *)
  div : num -> num -> num;         (* a / b *)
  sqrt : num -> num;               (* Math.sqrt(a) *)
  num_min : num -> num -> num;     (* Math.min(a, b) *)
  num_max : num -> num -> num;     (* Math.max(a, b) *)
  eqb : num -> num -> bool;        (* a === b *)
  ltb : num -> num -> bool;        (* a < b *)
  leb : num -> num -> bool;        (* a <= b *)
  is_nan : num -> bool             (* Number.isNaN(a) *)
}.

Section NumberOps.
Context {num : Type} `{JsNumber num}.

(** The decimal literal [n/d], e.g. [dec 7 10] for [0.7]: the double
    nearest to the decimal, which a correctly rounded division of the
    two (exact) integers yields as well. *)
Definition dec (n d : Z) : num := div (of_Z n) (of_Z d).

Definition zero : num := of_Z 0.
Definition one : num := of_Z 1.

(** [a > b] *)
Definition gtb (a b : num) : bool := ltb b a.

(** [a || 0] on an optional number: [undefined], [0] and [NaN] are falsy. *)
Definition or_zero (a : option num) : num :=
  match a with
  | None => zero
  | Some x => if eqb x zero || is_nan x then zero else x
  end.

(** [n || 1] on a length. *)
Definition or_one (n : nat) : nat :=
  match n with O => 1%nat | _ => n end.

Definition of_nat (n : nat) : num := of_Z (Z.of_nat n).

(** [Math.max(0, Math.min(1, x))] *)
Definition clamp01 (x : num) : num := num_max zero (num_min one x).
End NumberOps.

(** *** IEEE 754 doubles *)

Module Double.
Definition of_Z (z : Z) : float :=
  if (z <? 0)%Z then PrimFloat.opp (PrimFloat.of_uint63 (Uint63.of_Z (- z)))
  else PrimFloat.of_uint63 (Uint63.of_Z z).

Definition is_nan (x : float) : bool := negb (PrimFloat.eqb x x).

Definition is_neg_zero (x : float) : bool :=
  match PrimFloat.classify x with NZero => true | _ => false end.

(** [Math.min]: NaN if either argument is NaN, and [-0] below [+0]. *)
Definition min (a b : float) : float :=
  if is_nan a || is_nan b then PrimFloat.nan
  else if PrimFloat.ltb a b then a
  else if PrimFloat.ltb b a then b
  else if is_neg_zero a then a else b.

Definition max (a b : float) : float :=
  if is_nan a || is_nan b then PrimFloat.nan
  else if PrimFloat.ltb a b then b
  else if PrimFloat.ltb b a then a
  else if is_neg_zero a then b else a.
End Double.

#[export] Instance double_number : JsNumber float := {
  of_Z := Double.of_Z;
  add := PrimFloat.add;
  sub := PrimFloat.sub;
  mul := PrimFloat.mul;
  div := PrimFloat.div;
  sqrt := PrimFloat.sqrt;
  num_min := Double.min;
  num_max := Double.max;
  eqb := PrimFloat.eqb;
  ltb := PrimFloat.ltb;
  leb := PrimFloat.leb;
  is_nan := Double.is_nan
}.

(** *** Exact real numbers *)

Module Real.
Definition eqb (a b : R) : bool := if Req_dec_T a b then true else false.
Definition ltb (a b : R) : bool := if Rlt_dec a b then true else false.
Definition leb (a b : R) : bool := if Rle_dec a b then true else false.
End Real.

#[export] Instance real_number : JsNumber R := {
  of_Z := IZR;
  add := Rplus;
  sub := Rminus;
  mul := Rmult;
  div := Rdiv;
  sqrt := R_sqrt.sqrt;
  num_min := Rmin;
  num_max := Rmax;
  eqb := Real.eqb;
  ltb := Real.ltb;
  leb := Real.leb;
  is_nan := fun _ => false
}.

(** *** The order of numbers

    What [<] and [<=] satisfy on numbers that are not NaN; a comparison
    with NaN is false on either side. *)
Class NumberOrder (num : Type) `{JsNumber num} : Prop := {
  leb_of_ltb : forall x y : num, ltb x y = true -> leb x y = true;
  leb_of_not_ltb :
    forall x y : num,
      is_nan x = false -> is_nan y = false -> ltb x y = false -> leb y x = true;
  leb_transitive :
    forall x y z : num, leb x y = true -> leb y z = true -> leb x z = true
}.

Arguments NumberOrder num {_}.

(** ** Sorting with a comparator that is not consistent *)

(** [Array.prototype.sort] is a stable sort when its comparator is
    consistent.  When it is not -- here, when a score is NaN, so that
    [b.score - a.score] is NaN and counts as 0 against every other
    score -- the order is implementation-defined (ECMA-262, 23.1.3.30).
    What the engine does then is a parameter; all that is known of it is
    that it rearranges the elements it is given. *)
Record Engine (num : Type) : Type := {
  sortInconsistent : forall A : Type, (A -> A -> num) -> list A -> list A;
  sortInconsistent_permutes :
    forall (A : Type) (compare : A -> A -> num) (l : list A),
      Permutation (sortInconsistent compare l) l
}.

(** ** Strings as JavaScript uses them *)

Module Js.
Local Open Scope string_scope.

(** [\s] on ASCII text: space, tab, line feed, vertical tab, form feed,
    carriage return. *)
Definition is_space (c : ascii) : bool :=
  let n := nat_of_ascii c in
  (n =? 32)%nat || ((9 <=? n)%nat && (n <=? 13)%nat).

Definition lower_char (c : ascii) : ascii :=
  let n := nat_of_ascii c in
  if (65 <=? n)%nat && (n <=? 90)%nat then ascii_of_nat (n + 32) else c.

(** [s.toLowerCase()] *)
Definition toLowerCase (s : string) : string :=
  string_of_list_ascii (map lower_char (list_ascii_of_string s)).

Fixpoint drop_spaces (l : list ascii) : list ascii :=
  match l with
  | c :: l' => if is_space c then drop_spaces l' else l
  | [] => []
  end.

(** [s.trim()] *)
Definition trim (s : string) : string :=
  string_of_list_ascii
    (rev (drop_spaces (rev (drop_spaces (list_ascii_of_string s))))).

(** [s.split(/\s+/)]: [cur] is the piece being read (reversed) and
    [in_gap] says that the previous character was whitespace.  A
    separator at either end leaves an empty piece there, and the empty
    string splits into one empty piece. *)
Fixpoint split_ws_from (l cur : list ascii) (in_gap : bool) : list string :=
  match l with
  | [] => [string_of_list_ascii (rev cur)]
  | c :: l' =>
      if is_space c then
        if in_gap then split_ws_from l' [] true
        else string_of_list_ascii (rev cur) :: split_ws_from l' [] true
      else split_ws_from l' (c :: cur) false
  end.

Definition split_ws (s : string) : list string :=
  split_ws_from (list_ascii_of_string s) [] false.

Fixpoint starts_with (p l : list ascii) : bool :=
  match p, l with
  | [], _ => true
  | c :: p', d :: l' => Ascii.eqb c d && starts_with p' l'
  | _ :: _, [] => false
  end.

Fixpoint includes_from (l p : list ascii) : bool :=
  starts_with p l ||
  match l with
  | [] => false
  | _ :: l' => includes_from l' p
  end.

(** [s.includes(p)] *)
Definition includes (s p : string) : bool :=
  includes_from (list_ascii_of_string s) (list_ascii_of_string p).

(** [xs.join(sep)] *)
Definition join (sep : string) (xs : list string) : string := String.concat sep xs.

(** A string is truthy when it is not empty. *)
Definition truthy (s : string) : bool := negb (String.eqb s "").

(** [xs.slice(from, to)] for [0 <= from]. *)
Definition slice {A : Type} (from to : nat) (xs : list A) : list A :=
  firstn (to - from) (skipn from xs).

(** [s.split(" ")]: the pieces between single spaces, empty pieces
    included. *)
Fixpoint split_space_from (l cur : list ascii) : list string :=
  match l with
  | [] => [string_of_list_ascii (rev cur)]
  | c :: l' =>
      if Ascii.eqb c " " then string_of_list_ascii (rev cur) :: split_space_from l' []
      else split_space_from l' (c :: cur)
  end.

Definition split_space (s : string) : list string :=
  split_space_from (list_ascii_of_string s) [].

(** [parseInt(s)] without a radix: leading whitespace, a sign, then the
    longest run of decimal digits, or of hexadecimal digits after [0x];
    [None] is [NaN], the result when there is no digit. *)
Definition digit_value (radix : nat) (c : ascii) : option Z :=
  let n := nat_of_ascii c in
  let v :=
    if (48 <=? n)%nat && (n <=? 57)%nat then Some (n - 48)%nat
    else if (97 <=? n)%nat && (n <=? 102)%nat then Some (n - 87)%nat
    else if (65 <=? n)%nat && (n <=? 70)%nat then Some (n - 55)%nat
    else None in
  match v with
  | Some d => if (d <? radix)%nat then Some (Z.of_nat d) else None
  | None => None
  end.

Fixpoint parse_digits (radix : nat) (l : list ascii) (acc : option Z) : option Z :=
  match l with
  | [] => acc
  | c :: l' =>
      match digit_value radix c with
      | Some d =>
          parse_digits radix l'
            (Some (match acc with
                   | Some a => a * Z.of_nat radix + d
                   | None => d
                   end)%Z)
      | None => acc
      end
  end.

Definition parse_unsigned (l : list ascii) : option Z :=
  match l with
  | zero :: x :: l' =>
      if Ascii.eqb zero "0" && (Ascii.eqb x "x" || Ascii.eqb x "X")
      then parse_digits 16 l' None
      else parse_digits 10 l None
  | _ => parse_digits 10 l None
  end.

Definition parseInt (s : string) : option Z :=
  match drop_spaces (list_ascii_of_string s) with
  | sign :: l =>
      if Ascii.eqb sign "-" then option_map Z.opp (parse_unsigned l)
      else if Ascii.eqb sign "+" then parse_unsigned l
      else parse_unsigned (sign :: l)
  | [] => None
  end.
End Js.

(** ** Vector store: similarity and retrieval *)

Module VectorStore.
Local Open Scope string_scope.

Section WithNumbers.
Context {num : Type} `{JsNumber num}.

(** The body of the [for] loop, run over both vectors in step. *)
Fixpoint accumulate (vecA vecB : list num) (acc : num * num * num)
  : num * num * num :=
  match vecA, vecB with
  | a :: vecA', b :: vecB' =>
      let '(dotProduct, normA, normB) := acc in
      accumulate vecA' vecB'
        (add dotProduct (mul a b), add normA (mul a a), add normB (mul b b))
  | _, _ => acc
  end.

Definition cosineSimilarity (vecA vecB : list num) : Outcome num :=
  if negb (List.length vecA =? List.length vecB)%nat then
    Throws "Vectors must have same length"
  else
    let '(dotProduct, normA, normB) := accumulate vecA vecB (zero, zero, zero) in
    let normA := sqrt normA in
    let normB := sqrt normB in
    if eqb normA zero || eqb normB zero then Returns zero
    else Returns (div dotProduct (mul normA normB)).
End WithNumbers.

(** The rows of the two tables the retriever reads. *)
Record Document : Type := {
  doc_id : string;
  doc_title : string;
  doc_subject : option string;
  doc_gradeLevel : option Z;
  doc_isPublic : bool;
  doc_fileUrl : string
}.

(** [embedding] is the stored JSON text read back by [JSON.parse];
    [None] is a chunk stored without one ([!chunk.embedding]). *)
Record Chunk (num : Type) : Type := {
  chunk_id : string;
  chunk_content : string;
  chunk_embedding : option (list num);
  chunk_index : nat;
  chunk_document : Document
}.

Inductive Role : Type := Teacher | Student.

Record RetrieveOptions : Type := {
  opt_subject : option string;
  opt_gradeLevel : option Z;
  opt_userRole : Role;
  opt_topK : option nat
}.

Record Metadata : Type := {
  documentId : string;
  documentTitle : string;
  md_subject : option string;
  md_gradeLevel : option Z;
  md_fileUrl : string;
  md_chunkIndex : nat
}.

(** One element of the list [retrieveDocuments] returns. *)
Record ScoredChunk (num : Type) : Type := {
  sc_id : string;
  sc_content : string;
  sc_score : num;
  sc_metadata : Metadata
}.

Definition option_string_is (o : option string) (s : string) : bool :=
  match o with Some s' => String.eqb s' s | None => false end.

Definition option_Z_is (o : option Z) (z : Z) : bool :=
  match o with Some z' => (z' =? z)%Z | None => false end.

(** The [where] clause built from the options: a filter is added for a
    truthy [subject], for a truthy [gradeLevel], and for students. *)
Definition whereClause (o : RetrieveOptions) (d : Document) : bool :=
  (match opt_subject o with
   | Some s => if Js.truthy s then option_string_is (doc_subject d) s else true
   | None => true
   end)
  && (match opt_gradeLevel o with
      | Some g => if (g =? 0)%Z then true else option_Z_is (doc_gradeLevel d) g
      | None => true
      end)
  && (match opt_userRole o with
      | Student => doc_isPublic d
      | Teacher => true
      end).

Section Retrieval.
Context {num : Type} `{JsNumber num}.

(** What lies outside the process: the embedding service and the
    chunk table, in the order in which the store returns its rows. *)
Record Env : Type := {
  generateEmbedding : string -> Outcome (list num);
  chunkTable : list (Chunk num);
  databaseUp : bool;
  engine : Engine num
}.

(** [prisma.aIDocumentChunk.findMany({ where, include, take })] *)
Definition findMany (env : Env) (where_ : Document -> bool) (take : nat)
  : Outcome (list (Chunk num)) :=
  if databaseUp env then
    Returns (firstn take
               (filter (fun c => where_ (chunk_document c)) (chunkTable env)))
  else Throws "database unavailable".

(** The callback of [chunks.map].  The free-form metadata stored with the
    chunk, which the program spreads into [metadata] after these keys, is
    left out. *)
Definition scoreChunk (queryEmbedding : list num) (chunk : Chunk num)
  : Outcome (option (ScoredChunk num)) :=
  match chunk_embedding chunk with
  | None => Returns None
  | Some chunkEmbedding =>
      match cosineSimilarity queryEmbedding chunkEmbedding with
      | Throws e => Throws e
      | Returns score =>
          Returns (Some
            {| sc_id := chunk_id chunk;
               sc_content := chunk_content chunk;
               sc_score := score;
               sc_metadata :=
                 {| documentId := doc_id (chunk_document chunk);
                    documentTitle := doc_title (chunk_document chunk);
                    md_subject := doc_subject (chunk_document chunk);
                    md_gradeLevel := doc_gradeLevel (chunk_document chunk);
                    md_fileUrl := doc_fileUrl (chunk_document chunk);
                    md_chunkIndex := chunk_index chunk |} |})
      end
  end.

(** [.filter(item => item !== null)] *)
Fixpoint nonNull {A : Type} (l : list (option A)) : list A :=
  match l with
  | [] => []
  | Some x :: l' => x :: nonNull l'
  | None :: l' => nonNull l'
  end.

(** The stable sort by decreasing score: an element is put in front of
    the first one that need not precede it. *)
Fixpoint insertByScore (x : ScoredChunk num) (l : list (ScoredChunk num))
  : list (ScoredChunk num) :=
  match l with
  | [] => [x]
  | y :: l' =>
      if ltb (sc_score x) (sc_score y) then y :: insertByScore x l'
      else x :: y :: l'
  end.

Definition stableSortByScore (l : list (ScoredChunk num)) : list (ScoredChunk num) :=
  fold_right insertByScore [] l.

(** The comparator [(a, b) => b.score - a.score]. *)
Definition byScore (a b : ScoredChunk num) : num := sub (sc_score b) (sc_score a).

(** [.sort((a, b) => b.score - a.score)]: the stable sort when no score
    is NaN, the engine's choice otherwise. *)
Definition sortByScore (env : Env) (l : list (ScoredChunk num))
  : list (ScoredChunk num) :=
  if existsb (fun d => is_nan (sc_score d)) l
  then sortInconsistent (engine env) byScore l
  else stableSortByScore l.

Definition retrieveDocuments (env : Env) (query : string) (options : RetrieveOptions)
  : Outcome (list (ScoredChunk num)) :=
  let topK := match opt_topK options with Some k => k | None => 5%nat end in
  try_catch
    (match generateEmbedding env query with
     | Throws e => Throws e
     | Returns queryEmbedding =>
         match findMany env (whereClause options) 100 with
         | Throws e => Throws e
         | Returns chunks =>
             match mapM (scoreChunk queryEmbedding) chunks with
             | Throws e => Throws e
             | Returns scored =>
                 Returns (Js.slice 0 topK (sortByScore env (nonNull scored)))
             end
         end
     end)
    (fun e => Throws e).
End Retrieval.

Arguments Env num : clear implicits.

(** *** Vocabulary of the statements about retrieval *)

(** The same store with further rows after the ones it has. *)
Definition withExtraRows {num : Type} (env : Env num) (extra : list (Chunk num))
  : Env num :=
  {| generateEmbedding := generateEmbedding env;
     chunkTable := chunkTable env ++ extra;
     databaseUp := databaseUp env;
     engine := engine env |}.

(** The norm of a vector as the loop of [cosineSimilarity] computes it:
    the square root of the sum of the squares, added from the left. *)
Definition computedNorm {num : Type} `{JsNumber num} (v : list num) : num :=
  sqrt (fold_left (fun sum x => add sum (mul x x)) v zero).

(** The candidates a query sees: the first 100 rows that pass the filters. *)
Definition candidateWindow {num : Type} (env : Env num) (options : RetrieveOptions)
  : list (Chunk num) :=
  firstn 100 (filter (fun c => whereClause options (chunk_document c)) (chunkTable env)).

(** By decreasing score. *)
Definition descending {num : Type} `{JsNumber num} (l : list (ScoredChunk num)) : Prop :=
  StronglySorted (fun x y => leb (sc_score y) (sc_score x) = true) l.

(** No score is NaN. *)
Definition scoresAreNumbers {num : Type} `{JsNumber num} (l : list (ScoredChunk num))
  : bool :=
  negb (existsb (fun d => is_nan (sc_score d)) l).

(** *** Hybrid search *)

Section Hybrid.
Context {num : Type} `{JsNumber num}.

(** The options of [hybridSearch]: those of [retrieveDocuments], to which
    the same object is passed, and [alpha]. *)
Record HybridOptions : Type := {
  hy_options : RetrieveOptions;
  hy_alpha : option num
}.

(** The metadata of a combined result; a result that only the keyword
    query found has no [fileUrl] and no [chunkIndex]. *)
Record HybridMetadata : Type := {
  hm_documentId : string;
  hm_documentTitle : string;
  hm_subject : option string;
  hm_gradeLevel : option Z;
  hm_fileUrl : option string;
  hm_chunkIndex : option nat
}.

Record HybridResult : Type := {
  hr_id : string;
  hr_content : string;
  hr_score : num;
  hr_metadata : HybridMetadata
}.

(** The store, how the database evaluates
    [content: { contains: keyword, mode: "insensitive" }], and whether the
    keyword query reaches the database. *)
Record SearchEnv : Type := {
  store : Env num;
  contains : string -> string -> bool;
  keywordQueryUp : bool
}.

Definition topKOf (o : HybridOptions) : nat :=
  match opt_topK (hy_options o) with Some k => k | None => 5%nat end.

Definition alphaOf (o : HybridOptions) : num :=
  match hy_alpha o with Some a => a | None => dec 7 10 end.

(** [query.toLowerCase().split(" ").filter((word) => word.length > 2)] *)
Definition keywordsOf (query : string) : list string :=
  filter (fun word => (2 <? String.length word)%nat)
         (Js.split_space (Js.toLowerCase query)).

(** The [where] clause of the keyword query: one of the keywords is
    contained, the subject matches when one is given, and the document is
    public when a student asks.  The grade level is not part of it. *)
Definition keywordWhere (env : SearchEnv) (o : HybridOptions) (keywords : list string)
           (c : Chunk num) : bool :=
  existsb (contains env (chunk_content c)) keywords
  && (match opt_subject (hy_options o) with
      | Some s =>
          if Js.truthy s then option_string_is (doc_subject (chunk_document c)) s
          else true
      | None => true
      end)
  && (match opt_userRole (hy_options o) with
      | Student => doc_isPublic (chunk_document c)
      | Teacher => true
      end).

(** [prisma.aIDocumentChunk.findMany({ where, include, take: topK * 2 })] *)
Definition keywordResults (env : SearchEnv) (query : string) (o : HybridOptions)
  : Outcome (list (Chunk num)) :=
  if keywordQueryUp env then
    Returns (firstn (topKOf o * 2)
               (filter (keywordWhere env o (keywordsOf query))
                       (chunkTable (store env))))
  else Throws "database unavailable".

(** [combinedResults.set(id, value)] on a [Map] kept in insertion order:
    the value of a key that is present is replaced in place. *)
Fixpoint mapSet (r : HybridResult) (m : list HybridResult) : list HybridResult :=
  match m with
  | [] => [r]
  | x :: m' =>
      if String.eqb (hr_id x) (hr_id r) then r :: m' else x :: mapSet r m'
  end.

(** [combinedResults.get(id)] *)
Definition mapGet (id : string) (m : list HybridResult) : option HybridResult :=
  find (fun x => String.eqb (hr_id x) id) m.

(** Add vector results with weight *)
Definition addVector (alpha : num) (m : list HybridResult) (result : ScoredChunk num)
  : list HybridResult :=
  mapSet {| hr_id := sc_id result;
            hr_content := sc_content result;
            hr_score := mul (sc_score result) alpha;
            hr_metadata :=
              {| hm_documentId := documentId (sc_metadata result);
                 hm_documentTitle := documentTitle (sc_metadata result);
                 hm_subject := md_subject (sc_metadata result);
                 hm_gradeLevel := md_gradeLevel (sc_metadata result);
                 hm_fileUrl := Some (md_fileUrl (sc_metadata result));
                 hm_chunkIndex := Some (md_chunkIndex (sc_metadata result)) |} |}
         m.

(** Add keyword results with weight *)
Definition addKeyword (alpha : num) (m : list HybridResult) (result : Chunk num)
  : list HybridResult :=
  let keywordScore := mul (sub one alpha) (dec 5 10) in (* Base keyword score *)
  match mapGet (chunk_id result) m with
  | Some existing =>
      mapSet {| hr_id := hr_id existing;
                hr_content := hr_content existing;
                hr_score := add (hr_score existing) keywordScore;
                hr_metadata := hr_metadata existing |}
             m
  | None =>
      mapSet {| hr_id := chunk_id result;
                hr_content := chunk_content result;
                hr_score := keywordScore;
                hr_metadata :=
                  {| hm_documentId := doc_id (chunk_document result);
                     hm_documentTitle := doc_title (chunk_document result);
                     hm_subject := doc_subject (chunk_document result);
                     hm_gradeLevel := doc_gradeLevel (chunk_document result);
                     hm_fileUrl := None;
                     hm_chunkIndex := None |} |}
             m
  end.

(** The stable sort of the combined results by decreasing score. *)
Fixpoint insertCombined (x : HybridResult) (l : list HybridResult)
  : list HybridResult :=
  match l with
  | [] => [x]
  | y :: l' =>
      if ltb (hr_score x) (hr_score y) then y :: insertCombined x l'
      else x :: y :: l'
  end.

Definition stableSortCombined (l : list HybridResult) : list HybridResult :=
  fold_right insertCombined [] l.

(** The comparator [(a, b) => b.score - a.score]. *)
Definition byCombinedScore (a b : HybridResult) : num := sub (hr_score b) (hr_score a).

(** [.sort((a, b) => b.score - a.score)] on the combined results: the
    stable sort when no score is NaN, the engine's choice otherwise. *)
Definition sortCombined (env : SearchEnv) (l : list HybridResult) : list HybridResult :=
  if existsb (fun r => is_nan (hr_score r)) l
  then sortInconsistent (engine (store env)) byCombinedScore l
  else stableSortCombined l.

(** Hybrid search: Combine vector similarity with keyword matching.  The
    [catch] block returns [vectorResults], a constant that is declared
    inside the [try] block and is not in scope there: evaluating it throws
    a [ReferenceError]. *)
Definition hybridSearch (env : SearchEnv) (query : string) (o : HybridOptions)
  : Outcome (list HybridResult) :=
  let alpha := alphaOf o in
  let topK := topKOf o in
  try_catch
    (match retrieveDocuments (store env) query (hy_options o) with
     | Throws e => Throws e
     | Returns vectorResults =>
         match keywordResults env query o with
         | Throws e => Throws e
         | Returns keywordResults' =>
             (* Combine and re-rank results *)
             let combinedResults :=
               fold_left (addKeyword alpha) keywordResults'
                         (fold_left (addVector alpha) vectorResults []) in
             (* Sort and return top K *)
             Returns (Js.slice 0 topK (sortCombined env combinedResults))
         end
     end)
    (fun _ => Throws "vectorResults is not defined").
End Hybrid.

Arguments HybridOptions num : clear implicits.
Arguments HybridResult num : clear implicits.
Arguments SearchEnv num : clear implicits.
End VectorStore.

(** ** Document processing: the chunker *)

Module DocumentProcessing.
Local Open Scope string_scope.

(** [.], [!] and [?] end a sentence. *)
Definition is_terminator (c : ascii) : bool :=
  Ascii.eqb c "." || Ascii.eqb c "!" || Ascii.eqb c "?".

(** [text.match(/[^.!?]+[.!?]+/g)]: the successive matches, each a
    non-empty run of other characters followed by a non-empty run of
    terminators.  [body] and [terms] are the two runs of the match being
    read (reversed).  Terminators with no body before them are skipped,
    and so is a last run of text that no terminator closes. *)
Fixpoint matchSentences (l body terms : list ascii) : list string :=
  match l with
  | [] =>
      match terms with
      | [] => []
      | _ :: _ => [string_of_list_ascii (rev body ++ rev terms)]
      end
  | c :: l' =>
      if is_terminator c then
        match body with
        | [] => matchSentences l' [] []
        | _ :: _ => matchSentences l' body (c :: terms)
        end
      else
        match terms with
        | [] => matchSentences l' (c :: body) []
        | _ :: _ =>
            string_of_list_ascii (rev body ++ rev terms)
            :: matchSentences l' [c] []
        end
  end.

(** [text.match(...) || [text]] *)
Definition splitSentences (text : string) : list string :=
  match matchSentences (list_ascii_of_string text) [] [] with
  | [] => [text]
  | ms => ms
  end.

Record ChunkMetadata : Type := {
  cm_documentTitle : string;
  cm_chunkIndex : nat;
  sentenceStart : nat;
  sentenceEnd : nat
}.

Record DocChunk : Type := {
  content : string;
  metadata : ChunkMetadata;
  chunkIndex : nat
}.

Record ChunkOptions : Type := {
  chunkSize : nat;
  chunkOverlap : nat;
  documentTitle : string
}.

(** The variables the loop updates. *)
Record LoopState : Type := {
  chunks : list DocChunk;
  currentChunk : string;
  nextIndex : nat
}.

Definition pushChunk (title : string) (st : LoopState) (from to : nat) : LoopState :=
  {| chunks :=
       chunks st ++
       [ {| content := currentChunk st;
            metadata := {| cm_documentTitle := title;
                           cm_chunkIndex := nextIndex st;
                           sentenceStart := from;
                           sentenceEnd := to |};
            chunkIndex := nextIndex st |} ];
     currentChunk := currentChunk st;
     nextIndex := S (nextIndex st) |}.

(** One iteration of the [for] loop, at index [i]. *)
Definition loopBody (options : ChunkOptions) (sentences : list string)
           (i : nat) (st : LoopState) : LoopState :=
  let sentence := Js.trim (nth i sentences "") in
  if (String.length (currentChunk st ++ " " ++ sentence) <=? chunkSize options)%nat then
    {| chunks := chunks st;
       currentChunk :=
         currentChunk st ++ (if Js.truthy (currentChunk st) then " " else "") ++ sentence;
       nextIndex := nextIndex st |}
  else
    let st' :=
      if Js.truthy (currentChunk st)
      then pushChunk (documentTitle options) st (i - 5) i
      else st in
    (* Start new chunk with overlap *)
    let overlapSentences := Js.slice (i - 2) i sentences in
    {| chunks := chunks st';
       currentChunk := Js.join " " overlapSentences ++ " " ++ sentence;
       nextIndex := nextIndex st' |}.

Fixpoint forLoop (options : ChunkOptions) (sentences : list string)
         (i steps : nat) (st : LoopState) : LoopState :=
  match steps with
  | O => st
  | S steps' => forLoop options sentences (S i) steps' (loopBody options sentences i st)
  end.

(** The parameter [chunkOverlap] is read from [options] and then never
    used: the overlap is the two sentences before the current one. *)
Definition chunkDocument (text : string) (options : ChunkOptions) : list DocChunk :=
  let sentences := splitSentences text in
  let n := List.length sentences in
  let st := forLoop options sentences 0 n
              {| chunks := []; currentChunk := ""; nextIndex := 0 |} in
  (* Add final chunk *)
  if Js.truthy (currentChunk st)
  then chunks (pushChunk (documentTitle options) st (n - 5) n)
  else chunks st.

(** [s] occurs in [x] as a substring. *)
Definition occursIn (s x : string) : Prop :=
  exists pre post, x = pre ++ s ++ post.
End DocumentProcessing.

(** ** Document ingestion ([document-processing.ts], [vector-store.ts]) *)

Module DocumentStore.
Import DocumentProcessing.
Local Open Scope string_scope.

(** [\w] and [\d] on ASCII text. *)
Definition is_digit (c : ascii) : bool :=
  let n := nat_of_ascii c in (48 <=? n)%nat && (n <=? 57)%nat.

Definition is_word (c : ascii) : bool :=
  let n := nat_of_ascii c in
  is_digit c
  || ((65 <=? n)%nat && (n <=? 90)%nat)
  || ((97 <=? n)%nat && (n <=? 122)%nat)
  || (n =? 95)%nat.

(** [.replace(/\s+/g, " ")]: [in_run] says that the previous character
    was whitespace too. *)
Fixpoint collapseWhitespace (l : list ascii) (in_run : bool) : list ascii :=
  match l with
  | [] => []
  | c :: l' =>
      if Js.is_space c then
        if in_run then collapseWhitespace l' true
        else " "%char :: collapseWhitespace l' true
      else c :: collapseWhitespace l' false
  end.

(** The number of leading elements that satisfy [p]. *)
Fixpoint leading (p : ascii -> bool) (l : list ascii) : nat :=
  match l with
  | c :: l' => if p c then S (leading p l') else 0%nat
  | [] => 0%nat
  end.

(** Whether [/Page \d+\b/i] matches at the head of [l], and how many
    characters: the digits are all the digits there are, since giving one
    back leaves a digit after the match, where there is no word boundary. *)
Definition pageMatch (l : list ascii) : option nat :=
  match l with
  | p :: a :: g :: e :: sp :: rest =>
      if Ascii.eqb (Js.lower_char p) "p" && Ascii.eqb (Js.lower_char a) "a"
         && Ascii.eqb (Js.lower_char g) "g" && Ascii.eqb (Js.lower_char e) "e"
         && Ascii.eqb sp " "
      then
        let digits := leading is_digit rest in
        if (0 <? digits)%nat
           && match skipn digits rest with
              | [] => true
              | c :: _ => negb (is_word c)
              end
        then Some (5 + digits)%nat
        else None
      else None
  | _ => None
  end.

(** [.replace(/\bPage \d+\b/gi, "")]: [afterWord] says that the previous
    character of the text is a word character, and [skip] counts the
    characters of a match still to be dropped. *)
Fixpoint removePageNumbers (l : list ascii) (afterWord : bool) (skip : nat)
  : list ascii :=
  match l with
  | [] => []
  | c :: l' =>
      match skip with
      | S k => removePageNumbers l' (is_word c) k
      | O =>
          match (if afterWord then None else pageMatch l) with
          | Some n => removePageNumbers l' (is_word c) (n - 1)
          | None => c :: removePageNumbers l' (is_word c) 0
          end
      end
  end.

(** [.replace(/([^\w\s])\1{3,}/g, "$1")]: four or more of the same
    character that is neither a word character nor whitespace become
    one. *)
Fixpoint squeezeRepeats (l : list ascii) (skip : nat) : list ascii :=
  match l with
  | [] => []
  | c :: l' =>
      match skip with
      | S k => squeezeRepeats l' k
      | O =>
          let more := leading (Ascii.eqb c) l' in
          if negb (is_word c) && negb (Js.is_space c) && (3 <=? more)%nat
          then c :: squeezeRepeats l' more
          else c :: squeezeRepeats l' 0
      end
  end.

(** Clean extracted text *)
Definition cleanText (text : string) : string :=
  Js.trim
    (string_of_list_ascii
       (squeezeRepeats
          (removePageNumbers
             (collapseWhitespace (list_ascii_of_string text) false) false 0)
          0)).

(** The metadata given with an upload. *)
Record DocumentMetadata : Type := {
  up_title : string;
  up_description : option string;
  up_subject : option string;
  up_gradeLevel : option Z;
  up_classId : option Z;
  up_subjectId : option Z;
  up_uploadedBy : string;
  up_uploadedByRole : string;
  up_isPublic : bool
}.

(** A row of the table [aIDocument]; the three last fields are its
    [metadata]. *)
Record AIDocument : Type := {
  ai_id : string;
  ai_title : string;
  ai_description : option string;
  ai_fileUrl : string;
  ai_fileType : string;
  ai_subject : option string;
  ai_gradeLevel : option Z;
  ai_uploadedBy : string;
  ai_uploadedByRole : string;
  ai_isPublic : bool;
  ai_classId : option Z;
  ai_subjectId : option Z;
  ai_originalSize : nat;
  ai_extractedTextLength : nat;
  ai_chunksCount : nat
}.

(** The fields [updateDocumentMetadata] may change; an absent one is left
    as it is. *)
Record DocumentUpdates : Type := {
  new_title : option string;
  new_description : option string;
  new_subject : option string;
  new_gradeLevel : option Z;
  new_isPublic : option bool
}.

Record ProcessResult : Type := {
  pr_success : bool;
  pr_documentId : string;
  pr_chunksCreated : nat;
  pr_textLength : nat
}.

Record StoreResult : Type := {
  sr_success : bool;
  sr_chunksStored : nat
}.

(** What [deleteDocumentChunks] returns. *)
Record DeleteResult : Type := {
  dr_success : bool
}.

Section WithNumbers.
Context {num : Type}.

(** A row of the table [aIDocumentChunk], without the id the database
    gives it; the embedding is stored as its JSON text. *)
Record ChunkRow : Type := {
  row_documentId : string;
  row_content : string;
  row_embedding : list num;
  row_chunkIndex : nat;
  row_metadata : ChunkMetadata
}.

Record Db : Type := {
  documents : list AIDocument;
  chunkRows : list ChunkRow
}.

(** What lies outside the process: the two text extractors, the decoding
    of a buffer as UTF-8, the embedding service, the id the database gives
    a new document, which of its calls fail (each on its own), and what
    its schema does to the chunks of a document that is deleted. *)
Record Env : Type := {
  pdf : string -> Outcome string;
  extractRawText : string -> Outcome string;
  toUtf8 : string -> string;
  generateEmbedding : string -> Outcome (list num);
  newDocumentId : list AIDocument -> string;
  documentReadFails : bool;
  documentWriteFails : bool;
  chunkWriteFails : bool;
  chunkDeleteFails : bool;
  onDocumentDelete : string -> list ChunkRow -> list ChunkRow
}.

(** Store document chunks with embeddings: all the embeddings are
    computed first, then the rows are written by one [createMany]. *)
Definition storeDocumentChunks (env : Env) (db : Db) (documentId : string)
           (chunks : list DocChunk) : Outcome StoreResult * Db :=
  match mapM (fun chunk =>
                match generateEmbedding env (content chunk) with
                | Throws e => Throws e
                | Returns embedding =>
                    Returns {| row_documentId := documentId;
                               row_content := content chunk;
                               row_embedding := embedding;
                               row_chunkIndex := chunkIndex chunk;
                               row_metadata := metadata chunk |}
                end)
             chunks with
  | Throws e => (Throws e, db)
  | Returns chunksWithEmbeddings =>
      if chunkWriteFails env then (Throws "database unavailable", db)
      else
        (Returns {| sr_success := true; sr_chunksStored := List.length chunks |},
         {| documents := documents db;
            chunkRows := (chunkRows db ++ chunksWithEmbeddings)%list |})
  end.

(** Delete all chunks for a document: one [deleteMany], which may fail
    whatever the other calls did. *)
Definition deleteDocumentChunks (env : Env) (db : Db) (documentId : string)
  : Outcome DeleteResult * Db :=
  if chunkDeleteFails env then (Throws "database unavailable", db)
  else
    (Returns {| dr_success := true |},
     {| documents := documents db;
        chunkRows := filter (fun row => negb (row_documentId row =? documentId))
                            (chunkRows db) |}).

(** Extract text based on file type *)
Definition extractText (env : Env) (fileBuffer fileType : string) : Outcome string :=
  if fileType =? "application/pdf" then
    match pdf env fileBuffer with
    | Returns text => Returns text
    | Throws _ => Throws "Failed to extract text from PDF"
    end
  else if fileType
          =? "application/vnd.openxmlformats-officedocument.wordprocessingml.document"
  then
    match extractRawText env fileBuffer with
    | Returns text => Returns text
    | Throws _ => Throws "Failed to extract text from DOCX"
    end
  else if (fileType =? "text/plain") || (fileType =? "text/markdown") then
    Returns (toUtf8 env fileBuffer)
  else Throws ("Unsupported file type: " ++ fileType).

Definition ingestionOptions (title : string) : ChunkOptions :=
  {| chunkSize := 1000; chunkOverlap := 200; documentTitle := title |}.

(** Process uploaded document: the result and the database afterwards. *)
Definition processDocument (env : Env) (db : Db) (fileBuffer fileType fileUrl : string)
           (metadata : DocumentMetadata) : Outcome ProcessResult * Db :=
  let failed (message : string) (db' : Db) : Outcome ProcessResult * Db :=
    (Throws ("Document processing failed: " ++ message), db') in
  match extractText env fileBuffer fileType with
  | Throws e => failed e db
  | Returns extractedText =>
      (* Clean extracted text *)
      let cleanedText := cleanText extractedText in
      (* Chunk the document *)
      let chunks := chunkDocument cleanedText (ingestionOptions (up_title metadata)) in
      (* Store document in database *)
      if documentWriteFails env then failed "database unavailable" db
      else
        let document :=
          {| ai_id := newDocumentId env (documents db);
             ai_title := up_title metadata;
             ai_description := up_description metadata;
             ai_fileUrl := fileUrl;
             ai_fileType := fileType;
             ai_subject := up_subject metadata;
             ai_gradeLevel := up_gradeLevel metadata;
             ai_uploadedBy := up_uploadedBy metadata;
             ai_uploadedByRole := up_uploadedByRole metadata;
             ai_isPublic := up_isPublic metadata;
             ai_classId := up_classId metadata;
             ai_subjectId := up_subjectId metadata;
             ai_originalSize := String.length fileBuffer;
             ai_extractedTextLength := String.length cleanedText;
             ai_chunksCount := List.length chunks |} in
        let db1 := {| documents := (documents db ++ [document])%list;
                      chunkRows := chunkRows db |} in
        (* Store chunks with embeddings *)
        match storeDocumentChunks env db1 (ai_id document) chunks with
        | (Throws e, db2) => failed e db2
        | (Returns _, db2) =>
            (Returns {| pr_success := true;
                        pr_documentId := ai_id document;
                        pr_chunksCreated := List.length chunks;
                        pr_textLength := String.length cleanedText |},
             db2)
        end
  end.

(** [prisma.aIDocument.findUnique({ where: { id } })] *)
Definition findUnique (db : Db) (documentId : string) : option AIDocument :=
  find (fun d => ai_id d =? documentId) (documents db).

(** Delete document and all its chunks *)
Definition deleteDocument (env : Env) (db : Db) (documentId userId : string)
  : Outcome bool * Db :=
  if documentReadFails env then (Throws "database unavailable", db)
  else
    (* Verify ownership *)
    match findUnique db documentId with
    | None => (Throws "Document not found", db)
    | Some document =>
        if negb (ai_uploadedBy document =? userId)
        then (Throws "Unauthorized to delete this document", db)
        else if documentWriteFails env then (Throws "database unavailable", db)
        else
          (Returns true,
           {| documents := filter (fun d => negb (ai_id d =? documentId)) (documents db);
              chunkRows := onDocumentDelete env documentId (chunkRows db) |})
    end.

Definition orElse {A : Type} (update : option A) (current : A) : A :=
  match update with Some a => a | None => current end.

(** [data: updates] on one row *)
Definition applyUpdates (updates : DocumentUpdates) (d : AIDocument) : AIDocument :=
  {| ai_id := ai_id d;
     ai_title := orElse (new_title updates) (ai_title d);
     ai_description :=
       match new_description updates with
       | Some text => Some text
       | None => ai_description d
       end;
     ai_fileUrl := ai_fileUrl d;
     ai_fileType := ai_fileType d;
     ai_subject :=
       match new_subject updates with
       | Some s => Some s
       | None => ai_subject d
       end;
     ai_gradeLevel :=
       match new_gradeLevel updates with
       | Some g => Some g
       | None => ai_gradeLevel d
       end;
     ai_uploadedBy := ai_uploadedBy d;
     ai_uploadedByRole := ai_uploadedByRole d;
     ai_isPublic := orElse (new_isPublic updates) (ai_isPublic d);
     ai_classId := ai_classId d;
     ai_subjectId := ai_subjectId d;
     ai_originalSize := ai_originalSize d;
     ai_extractedTextLength := ai_extractedTextLength d;
     ai_chunksCount := ai_chunksCount d |}.

(** Update document metadata *)
Definition updateDocumentMetadata (env : Env) (db : Db) (documentId userId : string)
           (updates : DocumentUpdates) : Outcome AIDocument * Db :=
  if documentReadFails env then (Throws "database unavailable", db)
  else
    (* Verify ownership *)
    match findUnique db documentId with
    | None => (Throws "Document not found", db)
    | Some document =>
        if negb (ai_uploadedBy document =? userId)
        then (Throws "Unauthorized to update this document", db)
        else if documentWriteFails env then (Throws "database unavailable", db)
        else
          (Returns (applyUpdates updates document),
           {| documents :=
                map (fun d => if ai_id d =? documentId then applyUpdates updates d else d)
                    (documents db);
              chunkRows := chunkRows db |})
    end.
End WithNumbers.

Arguments ChunkRow num : clear implicits.
Arguments Db num : clear implicits.
Arguments Env num : clear implicits.
End DocumentStore.

(** ** Conversation messages *)

(** What a system message reports; the program formats it into a line of
    text ([toFixed(2)] on the numbers), which is kept structured here. *)
Inductive SystemNote (num : Type) : Type :=
| QueryRefined (refinedQuery : string)
| Retrieved (count : nat) (avgRelevance : num)
| SelfEvaluated (score : num) (refinementNeeded : bool).

Inductive BaseMessage (num : Type) : Type :=
| HumanMessage (text : string)
| AIMessage (text : string)
| SystemMessage (note : SystemNote num).

Arguments QueryRefined {num} refinedQuery.
Arguments HumanMessage {num} text.
Arguments AIMessage {num} text.

(** ** Answer generation *)

Module AnswerGeneration.
Import VectorStore.
Local Open Scope string_scope.

Section WithNumbers.
Context {num : Type} `{JsNumber num}.

Record GenerationMetadata : Type := {
  documentsUsed : nat;
  avgRelevance : num
}.

Record GenerationResult : Type := {
  answer : string;
  confidence : num;
  sources : list string;
  tokenUsage : nat;
  metadata : GenerationMetadata
}.

(** The call to the language model, [chain.invoke(...)]: the prompt is
    built from the mode, the query, the documents and the last six
    messages of the conversation. *)
Record Env : Type := {
  chainInvoke : string -> string -> list (ScoredChunk num)
                -> list (BaseMessage num) -> Outcome string
}.

(** [.filter((source, idx, self) => self.indexOf(source) === idx)] *)
Fixpoint unique (seen l : list string) : list string :=
  match l with
  | [] => []
  | x :: l' =>
      if existsb (String.eqb x) seen then unique seen l'
      else x :: unique (x :: seen) l'
  end.

Definition titleOrUnknown (doc : ScoredChunk num) : string :=
  let t := documentTitle (sc_metadata doc) in
  if Js.truthy t then t else "Unknown".

Definition extractSources (retrievedDocuments : list (ScoredChunk num)) : list string :=
  Js.slice 0 5
    (unique []
       (map titleOrUnknown
          (filter (fun doc => gtb (sc_score doc) (dec 5 10)) retrievedDocuments))).

(** [retrievedDocuments.reduce((sum, doc) => sum + doc.score, 0)] *)
Definition sumScores (retrievedDocuments : list (ScoredChunk num)) : num :=
  fold_left (fun sum doc => add sum (sc_score doc)) retrievedDocuments zero.

Definition averageRelevance (retrievedDocuments : list (ScoredChunk num)) : num :=
  div (sumScores retrievedDocuments)
      (of_nat (or_one (List.length retrievedDocuments))).

(** Scale up slightly, cap at 1.0 *)
Definition confidenceOf (retrievedDocuments : list (ScoredChunk num)) : num :=
  num_min (mul (averageRelevance retrievedDocuments) (dec 12 10)) one.

(** [Math.ceil(text.length / 4)] *)
Definition estimateTokens (text : string) : nat :=
  (String.length text + 3) / 4.

Definition lastMessages (n : nat) (history : list (BaseMessage num))
  : list (BaseMessage num) :=
  skipn (List.length history - n) history.

Definition generateAnswer (env : Env) (query : string)
           (retrievedDocuments : list (ScoredChunk num)) (mode : string)
           (conversationHistory : list (BaseMessage num))
  : Outcome GenerationResult :=
  try_catch
    (match chainInvoke env mode query retrievedDocuments
             (lastMessages 6 conversationHistory) with
     | Throws e => Throws e
     | Returns answer =>
         let sources := extractSources retrievedDocuments in
         let avgRelevance := averageRelevance retrievedDocuments in
         let confidence := num_min (mul avgRelevance (dec 12 10)) one in
         Returns {| answer := Js.trim answer;
                    confidence := confidence;
                    sources := sources;
                    tokenUsage := estimateTokens answer;
                    metadata := {| documentsUsed := List.length retrievedDocuments;
                                   avgRelevance := avgRelevance |} |}
     end)
    (fun e => Throws ("Answer generation failed: " ++ e)).
(** *** The streaming variant *)

Record StreamResult : Type := {
  st_answer : string;
  st_confidence : num;
  st_sources : list string;
  st_tokenUsage : nat
}.

(** [selectedLLM.stream(prompt)]: the call itself may throw; otherwise the
    stream yields its chunks, and then either ends or throws. *)
Record StreamEnv : Type := {
  llmStream : string -> string -> list (ScoredChunk num)
              -> Outcome (list string * option string)
}.

(** The body of the [for await] loop: [fullAnswer] grows, and [onChunk]
    receives the chunk.  The calls of [onChunk] are kept as the list of
    their arguments. *)
Definition receiveChunk (acc : string * list string) (content : string)
  : string * list string :=
  (fst acc ++ content, (snd acc ++ [content])%list).

(** Generate streaming answer (for real-time UI updates): the outcome,
    and what [onChunk] was called with. *)
Definition generateAnswerStream (env : StreamEnv) (query : string)
           (retrievedDocuments : list (ScoredChunk num)) (mode : string)
  : Outcome StreamResult * list string :=
  match llmStream env mode query retrievedDocuments with
  | Throws e => (Throws e, [])
  | Returns (chunks, failure) =>
      let '(fullAnswer, received) := fold_left receiveChunk chunks ("", []) in
      match failure with
      | Some e => (Throws e, received)
      | None =>
          let sources := extractSources retrievedDocuments in
          let avgRelevance := averageRelevance retrievedDocuments in
          (Returns {| st_answer := fullAnswer;
                      st_confidence := num_min (mul avgRelevance (dec 12 10)) one;
                      st_sources := sources;
                      st_tokenUsage := estimateTokens fullAnswer |},
           received)
      end
  end.
End WithNumbers.

Arguments Env num : clear implicits.
Arguments GenerationResult num : clear implicits.
End AnswerGeneration.

(** ** Self-evaluation *)

Module SelfEvaluation.
Import VectorStore.
Local Open Scope string_scope.

Section WithNumbers.
Context {num : Type} `{JsNumber num}.

Record Evaluation : Type := {
  score : num;
  feedback : string;
  strengths : list string;
  improvements : list string
}.

(** The language model's evaluation after [JSON.parse]; a call that
    fails, and a reply in which no JSON object is found or which does
    not parse, throw.  [score] is the reply's [score] as the arithmetic
    reads it: NaN when the reply has none, or one that is not numeric. *)
Record Env : Type := {
  llmEvaluate : string -> string -> list (ScoredChunk num) -> num
                -> Outcome Evaluation
}.

Definition sumScores (retrievedDocuments : list (ScoredChunk num)) : num :=
  fold_left (fun sum doc => add sum (sc_score doc)) retrievedDocuments zero.

(** The variables [heuristicEvaluation] updates. *)
Record Tally : Type := {
  t_score : num;
  t_strengths : list string;
  t_improvements : list string
}.

(** Check answer length *)
Definition checkLength (generatedAnswer : string) (t : Tally) : Tally :=
  let answerLength := List.length (Js.split_ws generatedAnswer) in
  if (30 <? answerLength)%nat && (answerLength <? 500)%nat then
    {| t_score := add (t_score t) (dec 1 10);
       t_strengths := t_strengths t ++ ["Answer has appropriate length"];
       t_improvements := t_improvements t |}
  else if (answerLength <? 30)%nat then
    {| t_score := sub (t_score t) (dec 1 10);
       t_strengths := t_strengths t;
       t_improvements := t_improvements t ++ ["Answer may be too brief"] |}
  else
    {| t_score := t_score t;
       t_strengths := t_strengths t;
       t_improvements := t_improvements t ++ ["Answer may be too verbose"] |}.

Definition queryKeywords (query : string) : list string :=
  filter (fun word => (3 <? String.length word)%nat)
         (Js.split_ws (Js.toLowerCase query)).

Definition keywordsAddressed (query generatedAnswer : string) : nat :=
  let answerLower := Js.toLowerCase generatedAnswer in
  List.length (filter (fun kw => Js.includes answerLower kw) (queryKeywords query)).

Definition keywordCoverage (query generatedAnswer : string) : num :=
  div (of_nat (keywordsAddressed query generatedAnswer))
      (of_nat (or_one (List.length (queryKeywords query)))).

(** Check if question keywords are addressed *)
Definition checkKeywords (query generatedAnswer : string) (t : Tally) : Tally :=
  if gtb (keywordCoverage query generatedAnswer) (dec 6 10) then
    {| t_score := add (t_score t) (dec 15 100);
       t_strengths :=
         t_strengths t ++ ["Answer addresses key concepts from the question"];
       t_improvements := t_improvements t |}
  else
    {| t_score := sub (t_score t) (dec 1 10);
       t_strengths := t_strengths t;
       t_improvements :=
         t_improvements t
         ++ ["Answer may not fully address all aspects of the question"] |}.

(** Check document usage *)
Definition checkDocuments (retrievedDocuments : list (ScoredChunk num)) (t : Tally)
  : Tally :=
  match retrievedDocuments with
  | _ :: _ =>
      let avgRelevance :=
        div (sumScores retrievedDocuments) (of_nat (List.length retrievedDocuments)) in
      if gtb avgRelevance (dec 7 10) then
        {| t_score := add (t_score t) (dec 15 100);
           t_strengths := t_strengths t ++ ["High-quality relevant documents were used"];
           t_improvements := t_improvements t |}
      else if ltb avgRelevance (dec 4 10) then
        {| t_score := sub (t_score t) (dec 15 100);
           t_strengths := t_strengths t;
           t_improvements :=
             t_improvements t ++ ["Retrieved documents may not be highly relevant"] |}
      else t
  | [] =>
      {| t_score := sub (t_score t) (dec 2 10);
         t_strengths := t_strengths t;
         t_improvements := t_improvements t ++ ["No context documents were used"] |}
  end.

(** Heuristic evaluation (fallback when LLM evaluation fails) *)
Definition heuristicEvaluation (query generatedAnswer : string)
           (retrievedDocuments : list (ScoredChunk num)) (confidence : num)
  : Evaluation :=
  let t := {| t_score := dec 5 10; t_strengths := []; t_improvements := [] |} in
  let t := checkLength generatedAnswer t in
  let t := checkKeywords query generatedAnswer t in
  let t := checkDocuments retrievedDocuments t in
  (* Factor in confidence *)
  let score := add (mul (t_score t) (dec 7 10)) (mul confidence (dec 3 10)) in
  (* Clamp score *)
  let score := num_max zero (num_min one score) in
  let feedback :=
    if gtb score (dec 7 10) then "Answer appears to be of good quality"
    else if gtb score (dec 5 10) then "Answer is acceptable but could be improved"
    else "Answer may need significant improvement" in
  {| score := score;
     feedback := feedback;
     strengths := t_strengths t;
     improvements := t_improvements t |}.

Definition evaluateAnswer (env : Env) (query generatedAnswer : string)
           (retrievedDocuments : list (ScoredChunk num)) (confidence : num)
  : Evaluation :=
  match llmEvaluate env query generatedAnswer retrievedDocuments confidence with
  | Returns evaluation =>
      (* Adjust score based on document relevance *)
      let avgDocumentScore :=
        div (sumScores retrievedDocuments)
            (of_nat (or_one (List.length retrievedDocuments))) in
      let adjustedScore := score evaluation in
      let adjustedScore :=
        if ltb avgDocumentScore (dec 5 10)
        then mul adjustedScore (dec 8 10) else adjustedScore in
      let adjustedScore :=
        if ltb confidence (dec 5 10)
        then mul adjustedScore (dec 9 10) else adjustedScore in
      {| score := num_max zero (num_min one adjustedScore);
         feedback := feedback evaluation;
         strengths := strengths evaluation;
         improvements := improvements evaluation |}
  | Throws _ =>
      (* Fallback heuristic evaluation *)
      heuristicEvaluation query generatedAnswer retrievedDocuments confidence
  end.
(** *** Vocabulary of the statements about the fallback

    The fallback score in the words of the specification: plus 0.1 for a
    word count in [30, 500] and minus 0.1 otherwise; plus 0.15 when at
    least 60% of the keywords are found and minus 0.1 otherwise; the
    document term; the blend with the confidence; the clamp. *)
Definition specifiedHeuristicScore (query generatedAnswer : string)
           (retrievedDocuments : list (ScoredChunk num)) (confidence : num) : num :=
  let answerLength := List.length (Js.split_ws generatedAnswer) in
  let s := dec 5 10 in
  let s :=
    if (30 <=? answerLength)%nat && (answerLength <=? 500)%nat
    then add s (dec 1 10) else sub s (dec 1 10) in
  let s :=
    if leb (dec 6 10) (keywordCoverage query generatedAnswer)
    then add s (dec 15 100) else sub s (dec 1 10) in
  let s :=
    match retrievedDocuments with
    | [] => sub s (dec 2 10)
    | _ :: _ =>
        let avgRelevance :=
          div (sumScores retrievedDocuments) (of_nat (List.length retrievedDocuments)) in
        if gtb avgRelevance (dec 7 10) then add s (dec 15 100)
        else if ltb avgRelevance (dec 4 10) then sub s (dec 15 100)
        else s
    end in
  clamp01 (add (mul s (dec 7 10)) (mul confidence (dec 3 10))).

(** *** Choosing among several answers *)

Record CandidateAnswer : Type := {
  ca_answer : string;
  ca_confidence : num;
  ca_sources : list string
}.

(** The language model's reply to the selection prompt. *)
Record SelectionEnv : Type := {
  llmSelect : string -> list CandidateAnswer -> string -> Outcome string
}.

(** [answers.reduce((maxIdx, ans, idx, arr) =>
       ans.confidence > arr[maxIdx].confidence ? idx : maxIdx, 0)]:
    [rest] is what is left of [arr] from index [idx] on.  [maxIdx] is
    always an index of [arr] when it is looked up. *)
Fixpoint reduceHighest (arr rest : list CandidateAnswer) (idx maxIdx : nat) : nat :=
  match rest with
  | [] => maxIdx
  | ans :: rest' =>
      reduceHighest arr rest' (S idx)
        (match nth_error arr maxIdx with
         | Some best => if gtb (ca_confidence ans) (ca_confidence best) then idx else maxIdx
         | None => maxIdx
         end)
  end.

Definition highestConfidence (answers : list CandidateAnswer) : nat :=
  reduceHighest answers answers 0 0.

(** Compare multiple answers and select the best one: the index chosen. *)
Definition selectBestAnswer (env : SelectionEnv) (query : string)
           (answers : list CandidateAnswer) (context : string) : nat :=
  match llmSelect env query answers context with
  | Returns result =>
      match Js.parseInt (Js.trim result) with
      | Some parsed =>
          let selectedIndex := (parsed - 1)%Z in
          if (selectedIndex <? 0)%Z
             || (Z.of_nat (List.length answers) <=? selectedIndex)%Z
          then (* Default to highest confidence if parsing fails *)
            highestConfidence answers
          else Z.to_nat selectedIndex
      | None => highestConfidence answers
      end
  | Throws _ => (* Default to highest confidence *) highestConfidence answers
  end.
End WithNumbers.

Arguments Env num : clear implicits.
Arguments Evaluation num : clear implicits.
End SelfEvaluation.

(** ** Query refinement and its learning store *)

Module QueryRefinement.
Local Open Scope string_scope.

Section WithNumbers.
Context {num : Type} `{JsNumber num}.

(** A row of the table [aIQueryRefinement]. *)
Record Refinement : Type := {
  ref_id : nat;
  originalQuery : string;
  refinedQuery : string;
  ref_mode : string;
  ref_subject : option string;
  improvementScore : option num;
  usageCount : nat;
  lastUsed : nat
}.

Definition Table : Type := list Refinement.

(** What the rewrite prompt is filled with. *)
Record RewriteRequest : Type := {
  rq_mode : string;
  rq_subject : string;
  rq_attemptNumber : nat;
  rq_originalQuery : string;
  rq_examples : list Refinement
}.

(** The language model, the clock, and which database calls fail. *)
Record Env : Type := {
  llmRewrite : RewriteRequest -> Outcome string;
  now : nat;
  findManyFails : bool;
  findFirstFails : bool;
  writeFails : bool
}.

Definition subjectIs (r : Refinement) (s : string) : bool :=
  match ref_subject r with Some s' => String.eqb s' s | None => false end.

(** [improvementScore: { gte: 0.7 }]: rows without a score do not match. *)
Definition scoreAtLeast (r : Refinement) (bound : num) : bool :=
  match improvementScore r with Some x => leb bound x | None => false end.

(** [orderBy: [{ usageCount: "desc" }, { improvementScore: "desc" }]] *)
Definition precedes (a b : Refinement) : bool :=
  (usageCount b <? usageCount a)%nat
  || ((usageCount a =? usageCount b)%nat
      && match improvementScore a, improvementScore b with
         | Some x, Some y => ltb y x
         | _, _ => false
         end).

Fixpoint insertOrdered (x : Refinement) (l : Table) : Table :=
  match l with
  | [] => [x]
  | y :: l' => if precedes y x then y :: insertOrdered x l' else x :: y :: l'
  end.

(** Look for similar successful refinements *)
Definition findHistorical (env : Env) (table : Table) (mode : string)
           (subject : option string) : Outcome Table :=
  if findManyFails env then Throws "database unavailable"
  else
    let matches r :=
      String.eqb (ref_mode r) mode
      && (match subject with
          | Some s => if Js.truthy s then subjectIs r s else true
          | None => true
          end)
      && scoreAtLeast r (dec 7 10) in
    Returns (firstn 5 (fold_right insertOrdered [] (filter matches table))).

(** [equals] with [mode: "insensitive"] *)
Definition equalsInsensitive (a b : string) : bool :=
  String.eqb (Js.toLowerCase a) (Js.toLowerCase b).

(** The [where] clause of [findFirst]; an undefined [subject] adds no
    condition. *)
Definition sameRefinement (originalQuery' refinedQuery' mode : string)
           (subject : option string) (r : Refinement) : bool :=
  equalsInsensitive (originalQuery r) originalQuery'
  && equalsInsensitive (refinedQuery r) refinedQuery'
  && String.eqb (ref_mode r) mode
  && match subject with
     | Some s => subjectIs r s
     | None => true
     end.

Definition freshId (table : Table) : nat :=
  S (fold_right (fun r m => Nat.max (ref_id r) m) 0%nat table).

(** [usageCount: { increment: 1 }, lastUsed: new Date()] on the row [id] *)
Definition incrementUsage (env : Env) (id : nat) (table : Table) : Table :=
  map (fun r =>
         if (ref_id r =? id)%nat then
           {| ref_id := ref_id r;
              originalQuery := originalQuery r;
              refinedQuery := refinedQuery r;
              ref_mode := ref_mode r;
              ref_subject := ref_subject r;
              improvementScore := improvementScore r;
              usageCount := S (usageCount r);
              lastUsed := now env |}
         else r)
      table.

Definition newRefinement (env : Env) (table : Table)
           (originalQuery' refinedQuery' mode : string) (subject : option string)
  : Refinement :=
  {| ref_id := freshId table;
     originalQuery := originalQuery';
     refinedQuery := refinedQuery';
     ref_mode := mode;
     ref_subject := subject;
     improvementScore := None; (* Will be updated based on feedback *)
     usageCount := 1;
     lastUsed := now env |}.

(** Store refinement attempt for self-learning.  Every failure inside is
    caught and only logged, so the table is then left as it was. *)
Definition storeRefinementAttempt (env : Env) (table : Table)
           (originalQuery' refinedQuery' mode : string) (subject : option string)
  : Table :=
  if findFirstFails env then table
  else
    match find (sameRefinement originalQuery' refinedQuery' mode subject) table with
    | Some existing =>
        if writeFails env then table
        else incrementUsage env (ref_id existing) table
    | None =>
        if writeFails env then table
        else (table ++ [newRefinement env table originalQuery' refinedQuery' mode subject])%list
    end.

(** Refine query using historical successful refinements: the refined
    query and the table afterwards. *)
Definition refineQuery (env : Env) (table : Table) (originalQuery' mode : string)
           (subject : option string) (attemptNumber : nat) : string * Table :=
  (* First attempt: return original query *)
  if (attemptNumber =? 0)%nat then (originalQuery', table)
  else
    match findHistorical env table mode subject with
    | Throws _ => (originalQuery', table) (* Fallback to original *)
    | Returns historicalRefinements =>
        match llmRewrite env
                {| rq_mode := mode;
                   rq_subject :=
                     match subject with
                     | Some s => if Js.truthy s then s else "general"
                     | None => "general"
                     end;
                   rq_attemptNumber := attemptNumber;
                   rq_originalQuery := originalQuery';
                   rq_examples := historicalRefinements |} with
        | Throws _ => (originalQuery', table) (* Fallback to original *)
        | Returns content =>
            let refinedQuery' := Js.trim content in
            (* Store this refinement attempt for future learning *)
            (refinedQuery',
             storeRefinementAttempt env table originalQuery' refinedQuery' mode subject)
        end
    end.

(** [data: { improvementScore: newScore }] on the row [id] *)
Definition setScore (id : nat) (newScore : num) (table : Table) : Table :=
  map (fun r =>
         if (ref_id r =? id)%nat then
           {| ref_id := ref_id r;
              originalQuery := originalQuery r;
              refinedQuery := refinedQuery r;
              ref_mode := ref_mode r;
              ref_subject := ref_subject r;
              improvementScore := Some newScore;
              usageCount := usageCount r;
              lastUsed := lastUsed r |}
         else r)
      table.

(** Update refinement improvement score based on feedback: the table
    afterwards.  The [where] clause has no [subject]; every failure is
    caught and only logged. *)
Definition updateRefinementScore (env : Env) (table : Table)
           (originalQuery' refinedQuery' mode : string) (improvementScore' : num)
  : Table :=
  if findFirstFails env then table
  else
    match find (sameRefinement originalQuery' refinedQuery' mode None) table with
    | Some refinement =>
        (* Calculate weighted average if score already exists *)
        let currentScore := or_zero (improvementScore refinement) in
        let usageCount' := usageCount refinement in
        let newScore :=
          div (add (mul currentScore (of_nat usageCount')) improvementScore')
              (of_nat (usageCount' + 1)) in
        if writeFails env then table
        else setScore (ref_id refinement) newScore table
    | None => table
    end.

(** Two states of a row that differ at most in how often and when it was
    used. *)
Definition sameApartFromUsage (old new : Refinement) : Prop :=
  ref_id new = ref_id old
  /\ originalQuery new = originalQuery old
  /\ refinedQuery new = refinedQuery old
  /\ ref_mode new = ref_mode old
  /\ ref_subject new = ref_subject old
  /\ improvementScore new = improvementScore old
  /\ (usageCount old <= usageCount new)%nat.

(** A row that has been used but has received no feedback yet. *)
Definition unscored (r : Refinement) : Prop :=
  improvementScore r = None /\ (1 <= usageCount r)%nat.

(** The table after a series of calls of [refineQuery], each with its own
    environment and arguments. *)
Definition afterCalls (calls : list (Env * string * string * option string * nat))
           (table : Table) : Table :=
  fold_left
    (fun t call =>
       match call with
       | (env, query, mode, subject, attemptNumber) =>
           snd (refineQuery env t query mode subject attemptNumber)
       end)
    calls table.
End WithNumbers.

Arguments Env num : clear implicits.
Arguments Refinement num : clear implicits.
Arguments Table num : clear implicits.
End QueryRefinement.

(** ** The workflow graph *)

Module RagWorkflow.
Import VectorStore.
Local Open Scope string_scope.

Section WithNumbers.
Context {num : Type} `{JsNumber num}.

(** State interface for the RAG workflow ([startTime] is left out). *)
Record RAGState : Type := {
  originalQuery : string;
  refinedQuery : option string;
  userId : string;
  userRole : Role;
  mode : string;
  subject : option string;
  gradeLevel : option Z;
  conversationId : string;
  retrievedDocuments : list (ScoredChunk num);
  relevanceScores : option (list num);
  generatedAnswer : option string;
  confidence : option num;
  sources : option (list string);
  needsRefinement : bool;
  refinementAttempts : nat;
  evaluationScore : option num;
  feedback : option string;
  messages : list (BaseMessage num);
  tokenUsage : nat;
  error : option string
}.

(** Initial state *)
Definition createInitialState (query userId' : string) (userRole' : Role)
           (mode' conversationId' : string)
           (options : option (option string * option Z)) : RAGState :=
  {| originalQuery := query;
     refinedQuery := None;
     userId := userId';
     userRole := userRole';
     mode := mode';
     subject := match options with Some (s, _) => s | None => None end;
     gradeLevel := match options with Some (_, g) => g | None => None end;
     conversationId := conversationId';
     retrievedDocuments := [];
     relevanceScores := None;
     generatedAnswer := None;
     confidence := None;
     sources := None;
     needsRefinement := false;
     refinementAttempts := 0;
     evaluationScore := None;
     feedback := None;
     messages := [HumanMessage query];
     tokenUsage := 0;
     error := None |}.

(** A node returns a [Partial<RAGState>]: the keys it assigns, in the
    order of the object literal.  Every channel of the graph keeps the
    last value written to it. *)
Inductive Assignment : Type :=
| Set_refinedQuery (value : string)
| Set_retrievedDocuments (value : list (ScoredChunk num))
| Set_relevanceScores (value : list num)
| Set_generatedAnswer (value : string)
| Set_confidence (value : num)
| Set_sources (value : list string)
| Set_needsRefinement (value : bool)
| Set_refinementAttempts (value : nat)
| Set_evaluationScore (value : num)
| Set_feedback (value : string)
| Set_messages (value : list (BaseMessage num))
| Set_tokenUsage (value : nat)
| Set_error (value : string).

Definition assign (st : RAGState) (a : Assignment) : RAGState :=
  match a with
  | Set_refinedQuery value =>
      {| originalQuery := originalQuery st; refinedQuery := Some value;
         userId := userId st; userRole := userRole st; mode := mode st;
         subject := subject st; gradeLevel := gradeLevel st;
         conversationId := conversationId st;
         retrievedDocuments := retrievedDocuments st;
         relevanceScores := relevanceScores st;
         generatedAnswer := generatedAnswer st; confidence := confidence st;
         sources := sources st; needsRefinement := needsRefinement st;
         refinementAttempts := refinementAttempts st;
         evaluationScore := evaluationScore st; feedback := feedback st;
         messages := messages st; tokenUsage := tokenUsage st; error := error st |}
  | Set_retrievedDocuments value =>
      {| originalQuery := originalQuery st; refinedQuery := refinedQuery st;
         userId := userId st; userRole := userRole st; mode := mode st;
         subject := subject st; gradeLevel := gradeLevel st;
         conversationId := conversationId st; retrievedDocuments := value;
         relevanceScores := relevanceScores st;
         generatedAnswer := generatedAnswer st; confidence := confidence st;
         sources := sources st; needsRefinement := needsRefinement st;
         refinementAttempts := refinementAttempts st;
         evaluationScore := evaluationScore st; feedback := feedback st;
         messages := messages st; tokenUsage := tokenUsage st; error := error st |}
  | Set_relevanceScores value =>
      {| originalQuery := originalQuery st; refinedQuery := refinedQuery st;
         userId := userId st; userRole := userRole st; mode := mode st;
         subject := subject st; gradeLevel := gradeLevel st;
         conversationId := conversationId st;
         retrievedDocuments := retrievedDocuments st;
         relevanceScores := Some value; generatedAnswer := generatedAnswer st;
         confidence := confidence st; sources := sources st;
         needsRefinement := needsRefinement st;
         refinementAttempts := refinementAttempts st;
         evaluationScore := evaluationScore st; feedback := feedback st;
         messages := messages st; tokenUsage := tokenUsage st; error := error st |}
  | Set_generatedAnswer value =>
      {| originalQuery := originalQuery st; refinedQuery := refinedQuery st;
         userId := userId st; userRole := userRole st; mode := mode st;
         subject := subject st; gradeLevel := gradeLevel st;
         conversationId := conversationId st;
         retrievedDocuments := retrievedDocuments st;
         relevanceScores := relevanceScores st; generatedAnswer := Some value;
         confidence := confidence st; sources := sources st;
         needsRefinement := needsRefinement st;
         refinementAttempts := refinementAttempts st;
         evaluationScore := evaluationScore st; feedback := feedback st;
         messages := messages st; tokenUsage := tokenUsage st; error := error st |}
  | Set_confidence value =>
      {| originalQuery := originalQuery st; refinedQuery := refinedQuery st;
         userId := userId st; userRole := userRole st; mode := mode st;
         subject := subject st; gradeLevel := gradeLevel st;
         conversationId := conversationId st;
         retrievedDocuments := retrievedDocuments st;
         relevanceScores := relevanceScores st;
         generatedAnswer := generatedAnswer st; confidence := Some value;
         sources := sources st; needsRefinement := needsRefinement st;
         refinementAttempts := refinementAttempts st;
         evaluationScore := evaluationScore st; feedback := feedback st;
         messages := messages st; tokenUsage := tokenUsage st; error := error st |}
  | Set_sources value =>
      {| originalQuery := originalQuery st; refinedQuery := refinedQuery st;
         userId := userId st; userRole := userRole st; mode := mode st;
         subject := subject st; gradeLevel := gradeLevel st;
         conversationId := conversationId st;
         retrievedDocuments := retrievedDocuments st;
         relevanceScores := relevanceScores st;
         generatedAnswer := generatedAnswer st; confidence := confidence st;
         sources := Some value; needsRefinement := needsRefinement st;
         refinementAttempts := refinementAttempts st;
         evaluationScore := evaluationScore st; feedback := feedback st;
         messages := messages st; tokenUsage := tokenUsage st; error := error st |}
  | Set_needsRefinement value =>
      {| originalQuery := originalQuery st; refinedQuery := refinedQuery st;
         userId := userId st; userRole := userRole st; mode := mode st;
         subject := subject st; gradeLevel := gradeLevel st;
         conversationId := conversationId st;
         retrievedDocuments := retrievedDocuments st;
         relevanceScores := relevanceScores st;
         generatedAnswer := generatedAnswer st; confidence := confidence st;
         sources := sources st; needsRefinement := value;
         refinementAttempts := refinementAttempts st;
         evaluationScore := evaluationScore st; feedback := feedback st;
         messages := messages st; tokenUsage := tokenUsage st; error := error st |}
  | Set_refinementAttempts value =>
      {| originalQuery := originalQuery st; refinedQuery := refinedQuery st;
         userId := userId st; userRole := userRole st; mode := mode st;
         subject := subject st; gradeLevel := gradeLevel st;
         conversationId := conversationId st;
         retrievedDocuments := retrievedDocuments st;
         relevanceScores := relevanceScores st;
         generatedAnswer := generatedAnswer st; confidence := confidence st;
         sources := sources st; needsRefinement := needsRefinement st;
         refinementAttempts := value; evaluationScore := evaluationScore st;
         feedback := feedback st; messages := messages st;
         tokenUsage := tokenUsage st; error := error st |}
  | Set_evaluationScore value =>
      {| originalQuery := originalQuery st; refinedQuery := refinedQuery st;
         userId := userId st; userRole := userRole st; mode := mode st;
         subject := subject st; gradeLevel := gradeLevel st;
         conversationId := conversationId st;
         retrievedDocuments := retrievedDocuments st;
         relevanceScores := relevanceScores st;
         generatedAnswer := generatedAnswer st; confidence := confidence st;
         sources := sources st; needsRefinement := needsRefinement st;
         refinementAttempts := refinementAttempts st;
         evaluationScore := Some value; feedback := feedback st;
         messages := messages st; tokenUsage := tokenUsage st; error := error st |}
  | Set_feedback value =>
      {| originalQuery := originalQuery st; refinedQuery := refinedQuery st;
         userId := userId st; userRole := userRole st; mode := mode st;
         subject := subject st; gradeLevel := gradeLevel st;
         conversationId := conversationId st;
         retrievedDocuments := retrievedDocuments st;
         relevanceScores := relevanceScores st;
         generatedAnswer := generatedAnswer st; confidence := confidence st;
         sources := sources st; needsRefinement := needsRefinement st;
         refinementAttempts := refinementAttempts st;
         evaluationScore := evaluationScore st; feedback := Some value;
         messages := messages st; tokenUsage := tokenUsage st; error := error st |}
  | Set_messages value =>
      {| originalQuery := originalQuery st; refinedQuery := refinedQuery st;
         userId := userId st; userRole := userRole st; mode := mode st;
         subject := subject st; gradeLevel := gradeLevel st;
         conversationId := conversationId st;
         retrievedDocuments := retrievedDocuments st;
         relevanceScores := relevanceScores st;
         generatedAnswer := generatedAnswer st; confidence := confidence st;
         sources := sources st; needsRefinement := needsRefinement st;
         refinementAttempts := refinementAttempts st;
         evaluationScore := evaluationScore st; feedback := feedback st;
         messages := value; tokenUsage := tokenUsage st; error := error st |}
  | Set_tokenUsage value =>
      {| originalQuery := originalQuery st; refinedQuery := refinedQuery st;
         userId := userId st; userRole := userRole st; mode := mode st;
         subject := subject st; gradeLevel := gradeLevel st;
         conversationId := conversationId st;
         retrievedDocuments := retrievedDocuments st;
         relevanceScores := relevanceScores st;
         generatedAnswer := generatedAnswer st; confidence := confidence st;
         sources := sources st; needsRefinement := needsRefinement st;
         refinementAttempts := refinementAttempts st;
         evaluationScore := evaluationScore st; feedback := feedback st;
         messages := messages st; tokenUsage := value; error := error st |}
  | Set_error value =>
      {| originalQuery := originalQuery st; refinedQuery := refinedQuery st;
         userId := userId st; userRole := userRole st; mode := mode st;
         subject := subject st; gradeLevel := gradeLevel st;
         conversationId := conversationId st;
         retrievedDocuments := retrievedDocuments st;
         relevanceScores := relevanceScores st;
         generatedAnswer := generatedAnswer st; confidence := confidence st;
         sources := sources st; needsRefinement := needsRefinement st;
         refinementAttempts := refinementAttempts st;
         evaluationScore := evaluationScore st; feedback := feedback st;
         messages := messages st; tokenUsage := tokenUsage st;
         error := Some value |}
  end.

Definition applyUpdate (st : RAGState) (update : list Assignment) : RAGState :=
  fold_left assign update st.

(** *** Analytics *)

Inductive EventType : Type :=
| EvQuery | EvRetrieval | EvGeneration | EvFeedback
| EvWorkflowComplete | EvWorkflowError.

Record AnalyticsEvent : Type := {
  ev_userId : string;
  eventType : EventType;
  queryText : string;
  documentsRetrieved : option nat;
  ev_tokenUsage : option nat;
  ev_success : option bool;
  errorMessage : option string
}.

(** A stored row: [success] defaults to [true]. *)
Record AnalyticsRow : Type := {
  row_event : AnalyticsEvent;
  row_success : bool
}.

Definition AnalyticsLog : Type := list AnalyticsRow.

(** *** The services the nodes call

    The first argument of a service is the value of the attempt counter
    at the call, so that a service may answer differently from one
    cycle to the next. *)
Record Services : Type := {
  refineQuery : nat -> string -> string -> option string -> nat -> Outcome string;
  retrieveDocuments : nat -> string -> RetrieveOptions
                      -> Outcome (list (ScoredChunk num));
  generateAnswer : nat -> string -> list (ScoredChunk num) -> string
                   -> list (BaseMessage num)
                   -> Outcome (AnswerGeneration.GenerationResult num);
  evaluateAnswer : nat -> string -> string -> list (ScoredChunk num) -> num
                   -> Outcome (SelfEvaluation.Evaluation num);
  analyticsInsertFails : AnalyticsEvent -> bool
}.

(** Log analytics event: a failed insert is caught and only printed. *)
Definition logAnalytics (svc : Services) (event : AnalyticsEvent) (log : AnalyticsLog)
  : AnalyticsLog :=
  if analyticsInsertFails svc event then log
  else (log ++ [ {| row_event := event;
                    row_success := match ev_success event with
                                   | Some b => b
                                   | None => true
                                   end |} ])%list.

(** [state.refinedQuery || state.originalQuery] *)
Definition queryToUse (state : RAGState) : string :=
  match refinedQuery state with
  | Some q => if Js.truthy q then q else originalQuery state
  | None => originalQuery state
  end.

(** Node: Query Refinement *)
Definition queryRefinementNode (svc : Services) (state : RAGState)
  : list Assignment :=
  match refineQuery svc (refinementAttempts state) (originalQuery state)
          (mode state) (subject state) (refinementAttempts state) with
  | Returns refinedQuery' =>
      [ Set_refinedQuery refinedQuery';
        Set_refinementAttempts (refinementAttempts state + 1);
        Set_messages (messages state
                      ++ [SystemMessage (QueryRefined refinedQuery')]) ]
  | Throws _ =>
      [ Set_refinedQuery (originalQuery state);
        Set_refinementAttempts (refinementAttempts state + 1) ]
  end.

(** Node: Document Retrieval *)
Definition documentRetrievalNode (svc : Services) (state : RAGState)
           (log : AnalyticsLog) : list Assignment * AnalyticsLog :=
  match retrieveDocuments svc (refinementAttempts state) (queryToUse state)
          {| opt_subject := subject state;
             opt_gradeLevel := gradeLevel state;
             opt_userRole := userRole state;
             opt_topK := Some 5%nat |} with
  | Returns retrievedDocuments' =>
      let relevanceScores' := map (@sc_score num) retrievedDocuments' in
      let avgRelevance :=
        div (fold_left add relevanceScores' zero)
            (of_nat (List.length relevanceScores')) in
      ([ Set_retrievedDocuments retrievedDocuments';
         Set_relevanceScores relevanceScores';
         Set_messages (messages state
                       ++ [SystemMessage
                             (Retrieved (List.length retrievedDocuments')
                                        avgRelevance)]) ],
       logAnalytics svc
         {| ev_userId := userId state;
            eventType := EvRetrieval;
            queryText := queryToUse state;
            documentsRetrieved := Some (List.length retrievedDocuments');
            ev_tokenUsage := None;
            ev_success := None;
            errorMessage := None |} log)
  | Throws message =>
      ([ Set_retrievedDocuments []; Set_error message ], log)
  end.

Definition generationApology : string :=
  "I apologize, but I encountered an error generating an answer. Please try again.".

(** Node: Answer Generation *)
Definition answerGenerationNode (svc : Services) (state : RAGState)
           (log : AnalyticsLog) : list Assignment * AnalyticsLog :=
  match generateAnswer svc (refinementAttempts state) (queryToUse state)
          (retrievedDocuments state) (mode state) (messages state) with
  | Returns result =>
      ([ Set_generatedAnswer (AnswerGeneration.answer result);
         Set_confidence (AnswerGeneration.confidence result);
         Set_sources (AnswerGeneration.sources result);
         Set_tokenUsage (tokenUsage state + AnswerGeneration.tokenUsage result);
         Set_messages (messages state
                       ++ [AIMessage (AnswerGeneration.answer result)]) ],
       logAnalytics svc
         {| ev_userId := userId state;
            eventType := EvGeneration;
            queryText := queryToUse state;
            documentsRetrieved := None;
            ev_tokenUsage := Some (AnswerGeneration.tokenUsage result);
            ev_success := None;
            errorMessage := None |} log)
  | Throws message =>
      ([ Set_error message; Set_generatedAnswer generationApology ], log)
  end.

(** [!state.generatedAnswer]: no answer, or the empty string. *)
Definition answerMissing (state : RAGState) : bool :=
  match generatedAnswer state with
  | Some a => negb (Js.truthy a)
  | None => true
  end.

(** Node: Self-Evaluation *)
Definition selfEvaluationNode (svc : Services) (state : RAGState)
  : list Assignment :=
  match generatedAnswer state with
  | Some generatedAnswer' =>
      if negb (Js.truthy generatedAnswer') then
        [ Set_evaluationScore zero; Set_needsRefinement true ]
      else
        match evaluateAnswer svc (refinementAttempts state) (originalQuery state)
                generatedAnswer' (retrievedDocuments state)
                (or_zero (confidence state)) with
        | Returns evaluation =>
            let needsRefinement' :=
              ltb (SelfEvaluation.score evaluation) (dec 7 10)
              && (refinementAttempts state <? 3)%nat
              && (0 <? List.length (retrievedDocuments state))%nat in
            [ Set_evaluationScore (SelfEvaluation.score evaluation);
              Set_needsRefinement needsRefinement';
              Set_feedback (SelfEvaluation.feedback evaluation);
              Set_messages (messages state
                            ++ [SystemMessage
                                  (SelfEvaluated (SelfEvaluation.score evaluation)
                                                 needsRefinement')]) ]
        | Throws _ =>
            [ Set_evaluationScore (dec 5 10); Set_needsRefinement false ]
        end
  | None => [ Set_evaluationScore zero; Set_needsRefinement true ]
  end.

Inductive Route : Type := RouteRefine | RouteEnd.

(** Conditional edge: Decide if refinement is needed *)
Definition shouldRefine (state : RAGState) : Route :=
  if needsRefinement state && (refinementAttempts state <? 3)%nat
  then RouteRefine else RouteEnd.

(** *** The graph and its execution *)

Inductive NodeName : Type :=
| QueryRefinement | DocumentRetrieval | AnswerGeneration_ | SelfEvaluation_ | END.

(** A point of a run: the node about to execute, the state, and the
    analytics table. *)
Record Config : Type := {
  node : NodeName;
  state : RAGState;
  log : AnalyticsLog
}.

(** [workflow.addEdge] and [workflow.addConditionalEdges]: the node that
    follows [n], given the state after [n] has run. *)
Definition nextNode (n : NodeName) (after : RAGState) : NodeName :=
  match n with
  | QueryRefinement => DocumentRetrieval
  | DocumentRetrieval => AnswerGeneration_
  | AnswerGeneration_ => SelfEvaluation_
  | SelfEvaluation_ =>
      match shouldRefine after with
      | RouteRefine => QueryRefinement
      | RouteEnd => END
      end
  | END => END
  end.

(** One step of the graph: run the node, merge what it returns into the
    state, follow the edge. *)
Definition step (svc : Services) (c : Config) : Config :=
  let '(update, log') :=
    match node c with
    | QueryRefinement => (queryRefinementNode svc (state c), log c)
    | DocumentRetrieval => documentRetrievalNode svc (state c) (log c)
    | AnswerGeneration_ => answerGenerationNode svc (state c) (log c)
    | SelfEvaluation_ => (selfEvaluationNode svc (state c), log c)
    | END => ([], log c)
    end in
  let after := applyUpdate (state c) update in
  {| node := nextNode (node c) after; state := after; log := log' |}.

(** The library stops a run that takes more steps than its recursion
    limit and throws. *)
Definition recursionLimit : nat := 25.

Fixpoint run (svc : Services) (fuel : nat) (c : Config)
  : Outcome RAGState * AnalyticsLog :=
  match node c with
  | END => (Returns (state c), log c)
  | _ =>
      match fuel with
      | O => (Throws "Recursion limit of 25 reached without hitting a stop condition.",
              log c)
      | S fuel' => run svc fuel' (step svc c)
      end
  end.

(** A compiled graph: all that is used of it is [invoke]. *)
Record CompiledGraph : Type := {
  invoke : RAGState -> AnalyticsLog -> Outcome RAGState * AnalyticsLog
}.

(** Build the RAG workflow graph: [START] leads to the refinement node. *)
Definition buildRAGWorkflow (svc : Services) : CompiledGraph :=
  {| invoke := fun initialState log0 =>
       run svc recursionLimit
           {| node := QueryRefinement; state := initialState; log := log0 |} |}.

Record ResultMetadata : Type := {
  rm_refinementAttempts : nat;
  rm_evaluationScore : option num;
  rm_tokenUsage : nat
}.

(** What [executeRAGWorkflow] resolves to; a key the object literal does
    not have is [None]. *)
Record WorkflowResult : Type := {
  success : bool;
  answer : option string;
  res_confidence : option num;
  res_sources : option (list string);
  documents : option (list (ScoredChunk num));
  res_metadata : option ResultMetadata;
  res_error : option string
}.

Definition workflowApology : string :=
  "I apologize, but I encountered an error processing your request. Please try again.".

(** [!result.error] *)
Definition noError (result : RAGState) : bool :=
  match error result with
  | Some e => negb (Js.truthy e)
  | None => true
  end.

(** The body of [executeRAGWorkflow], for a given compiled graph. *)
Definition executeWith (svc : Services) (workflow : CompiledGraph)
           (query userId' : string) (userRole' : Role)
           (mode' conversationId' : string)
           (options : option (option string * option Z)) (log0 : AnalyticsLog)
  : Outcome WorkflowResult * AnalyticsLog :=
  let initialState :=
    createInitialState query userId' userRole' mode' conversationId' options in
  match invoke workflow initialState log0 with
  | (Returns result, log1) =>
      (Returns {| success := noError result;
                  answer := generatedAnswer result;
                  res_confidence := confidence result;
                  res_sources := sources result;
                  documents := Some (retrievedDocuments result);
                  res_metadata :=
                    Some {| rm_refinementAttempts := refinementAttempts result;
                            rm_evaluationScore := evaluationScore result;
                            rm_tokenUsage := tokenUsage result |};
                  res_error := None |},
       logAnalytics svc
         {| ev_userId := userId';
            eventType := EvWorkflowComplete;
            queryText := query;
            documentsRetrieved := None;
            ev_tokenUsage := Some (tokenUsage result);
            ev_success := Some (noError result);
            errorMessage := error result |} log1)
  | (Throws message, log1) =>
      (Returns {| success := false;
                  answer := Some workflowApology;
                  res_confidence := None;
                  res_sources := None;
                  documents := None;
                  res_metadata := None;
                  res_error := Some message |},
       logAnalytics svc
         {| ev_userId := userId';
            eventType := EvWorkflowError;
            queryText := query;
            documentsRetrieved := None;
            ev_tokenUsage := None;
            ev_success := Some false;
            errorMessage := Some message |} log1)
  end.

(** Execute the RAG workflow *)
Definition executeRAGWorkflow (svc : Services) :=
  executeWith svc (buildRAGWorkflow svc).

(** *** Vocabulary of the statements about runs *)

(** [n] steps of the graph. *)
Fixpoint steps (svc : Services) (n : nat) (c : Config) : Config :=
  match n with
  | O => c
  | S n' => steps svc n' (step svc c)
  end.

(** The value the evaluation node gives [needsRefinement], read off the
    state before it. *)
Definition evaluationAsksForRefinement (svc : Services) (st : RAGState) : bool :=
  match generatedAnswer st with
  | None => true
  | Some answer =>
      if negb (Js.truthy answer) then true
      else
        match evaluateAnswer svc (refinementAttempts st) (originalQuery st) answer
                (retrievedDocuments st) (or_zero (confidence st)) with
        | Returns evaluation =>
            ltb (SelfEvaluation.score evaluation) (dec 7 10)
            && (refinementAttempts st <? 3)%nat
            && (0 <? List.length (retrievedDocuments st))%nat
        | Throws _ => false
        end
  end.
(** The call the retrieval node makes on a state, and the call the
    generation node makes. *)
Definition retrievalCall (svc : Services) (st : RAGState)
  : Outcome (list (ScoredChunk num)) :=
  retrieveDocuments svc (refinementAttempts st) (queryToUse st)
    {| opt_subject := subject st;
       opt_gradeLevel := gradeLevel st;
       opt_userRole := userRole st;
       opt_topK := Some 5%nat |}.

Definition generationCall (svc : Services) (st : RAGState)
  : Outcome (AnswerGeneration.GenerationResult num) :=
  generateAnswer svc (refinementAttempts st) (queryToUse st)
    (retrievedDocuments st) (mode st) (messages st).

(** The internal failure at a point of a run, if there is one: the
    message with which the retrieval or the generation about to be made
    throws.  (A failure of refinement or of evaluation leaves no trace in
    the state.) *)
Definition failureAt (svc : Services) (c : Config) : option string :=
  match node c with
  | DocumentRetrieval =>
      match retrievalCall svc (state c) with
      | Throws message => Some message
      | Returns _ => None
      end
  | AnswerGeneration_ =>
      match generationCall svc (state c) with
      | Throws message => Some message
      | Returns _ => None
      end
  | _ => None
  end.

(** The messages of the internal failures of the first [n] steps, in the
    order in which they occur, and the last of them. *)
Fixpoint failures (svc : Services) (n : nat) (c : Config) : list string :=
  match n with
  | O => []
  | S n' =>
      match failureAt svc c with
      | Some message => message :: failures svc n' (step svc c)
      | None => failures svc n' (step svc c)
      end
  end.

Definition lastFailure (svc : Services) (n : nat) (c : Config) : option string :=
  last (map Some (failures svc n c)) None.

(** What a run keeps from one point to a later one. *)
Definition carriedOver (c c' : Config) : Prop :=
  originalQuery (state c') = originalQuery (state c)
  /\ userId (state c') = userId (state c)
  /\ userRole (state c') = userRole (state c)
  /\ mode (state c') = mode (state c)
  /\ subject (state c') = subject (state c)
  /\ gradeLevel (state c') = gradeLevel (state c)
  /\ conversationId (state c') = conversationId (state c)
  /\ (exists added, messages (state c') = (messages (state c) ++ added)%list)
  /\ tokenUsage (state c) <= tokenUsage (state c')
  /\ (exists rows, log c' = (log c ++ rows)%list)
  /\ (error (state c) <> None -> error (state c') <> None).

End WithNumbers.

Arguments RAGState num : clear implicits.
Arguments Services num : clear implicits.
Arguments Config num : clear implicits.
Arguments CompiledGraph num : clear implicits.
Arguments WorkflowResult num : clear implicits.
End RagWorkflow.

(** ** The server action ([actions-ai.ts]) *)

Module Playground.
Import VectorStore RagWorkflow.
Local Open Scope string_scope.

(** A row of the tables [student] and [teacher]; [None] is a row without
    the key [username]. *)
Record User : Type := {
  username : option string
}.

Record QueryOptions : Type := {
  qo_mode : string;
  qo_subject : option string;
  qo_gradeLevel : option Z;
  qo_conversationId : option string
}.

Record Conversation : Type := {
  cv_id : string;
  cv_userId : string;
  cv_userRole : Role;
  cv_title : string;
  cv_mode : string;
  cv_subject : option string;
  cv_gradeLevel : option Z
}.

Inductive MessageRole : Type := FromUser | FromAssistant.

Section WithNumbers.
Context {num : Type} `{JsNumber num}.

(** A row of the table [aIMessage]. *)
Record Message : Type := {
  msg_conversationId : string;
  msg_role : MessageRole;
  msg_content : string;
  msg_confidence : option num;
  msg_retrievedDocs : list (ScoredChunk num);
  msg_metadata : option (@ResultMetadata num)
}.

Record ActionData : Type := {
  ad_answer : option string;
  ad_confidence : option num;
  ad_sources : option (list string);
  ad_conversationId : string;
  ad_metadata : option (@ResultMetadata num)
}.

Record ActionResult : Type := {
  ar_success : bool;
  ar_error : bool;
  ar_message : option string;
  ar_data : option ActionData
}.

(** The tables the action writes to. *)
Record Tables : Type := {
  conversations : list Conversation;
  chat : list Message;
  analytics : AnalyticsLog
}.

(** The session, the user tables, the id the database gives a new
    conversation, and which writes fail. *)
Record Env : Type := {
  auth : Outcome (option string);
  findStudent : string -> Outcome (option User);
  findTeacher : string -> Outcome (option User);
  newConversationId : list Conversation -> string;
  conversationWriteFails : bool;
  userMessageWriteFails : bool;
  assistantMessageWriteFails : bool
}.

(** ["username" in user && user.username.includes("teacher")
     ? "teacher" : "student"] *)
Definition roleOf (user : User) : Role :=
  match username user with
  | Some name => if Js.includes name "teacher" then Teacher else Student
  | None => Student
  end.

(** [query.slice(0, 50) + (query.length > 50 ? "..." : "")] *)
Definition titleOf (query : string) : string :=
  String.substring 0 50 query ++ (if (50 <? String.length query)%nat then "..." else "").

Definition refused (message : string) : ActionResult :=
  {| ar_success := false; ar_error := true;
     ar_message := Some message; ar_data := None |}.

(** The [catch] block: [error.message || "Failed to process query"] *)
Definition failed (message : string) : ActionResult :=
  refused (if Js.truthy message then message else "Failed to process query").

(** Query the AI Playground: the result and the tables afterwards. *)
Definition queryAIPlayground (env : Env) (svc : Services num) (tables : Tables)
           (query : string) (options : QueryOptions) : ActionResult * Tables :=
  match auth env with
  | Throws e => (failed e, tables)
  | Returns session =>
      match session with
      | None => (refused "Unauthorized", tables)
      | Some userId' =>
          if negb (Js.truthy userId') then (refused "Unauthorized", tables)
          else
            (* Get user role from session *)
            let lookup :=
              match findStudent env userId' with
              | Throws e => Throws e
              | Returns (Some student) => Returns (Some student)
              | Returns None => findTeacher env userId'
              end in
            match lookup with
            | Throws e => (failed e, tables)
            | Returns None => (refused "User not found", tables)
            | Returns (Some user) =>
                let userRole' := roleOf user in
                (* Create or get conversation *)
                let existing :=
                  match qo_conversationId options with
                  | Some id => if Js.truthy id then Some id else None
                  | None => None
                  end in
                let created :=
                  match existing with
                  | Some id => Returns (id, conversations tables)
                  | None =>
                      if conversationWriteFails env then Throws "database unavailable"
                      else
                        let id := newConversationId env (conversations tables) in
                        Returns
                          (id,
                           (conversations tables
                            ++ [ {| cv_id := id;
                                    cv_userId := userId';
                                    cv_userRole := userRole';
                                    cv_title := titleOf query;
                                    cv_mode := qo_mode options;
                                    cv_subject := qo_subject options;
                                    cv_gradeLevel := qo_gradeLevel options |} ])%list)
                  end in
                match created with
                | Throws e => (failed e, tables)
                | Returns (conversationId', conversations') =>
                    (* Execute RAG workflow *)
                    match executeRAGWorkflow svc query userId' userRole'
                            (qo_mode options) conversationId'
                            (Some (qo_subject options, qo_gradeLevel options))
                            (analytics tables) with
                    | (Throws e, analytics') =>
                        (failed e,
                         {| conversations := conversations';
                            chat := chat tables;
                            analytics := analytics' |})
                    | (Returns result, analytics') =>
                        (* Store message *)
                        if userMessageWriteFails env then
                          (failed "database unavailable",
                           {| conversations := conversations';
                              chat := chat tables;
                              analytics := analytics' |})
                        else
                          let chat1 :=
                            (chat tables
                             ++ [ {| msg_conversationId := conversationId';
                                     msg_role := FromUser;
                                     msg_content := query;
                                     msg_confidence := None;
                                     msg_retrievedDocs := [];
                                     msg_metadata := None |} ])%list in
                          let answered :=
                            match answer result with
                            | Some text => if Js.truthy text then Some text else None
                            | None => None
                            end in
                          let stored :=
                            match (if success result then answered else None) with
                            | Some text =>
                                if assistantMessageWriteFails env
                                then Throws "database unavailable"
                                else
                                  Returns
                                    (chat1
                                     ++ [ {| msg_conversationId := conversationId';
                                             msg_role := FromAssistant;
                                             msg_content := text;
                                             msg_confidence := res_confidence result;
                                             msg_retrievedDocs :=
                                               match documents result with
                                               | Some docs => docs
                                               | None => []
                                               end;
                                             msg_metadata := res_metadata result |} ])%list
                            | None => Returns chat1
                            end in
                          match stored with
                          | Throws e =>
                              (failed e,
                               {| conversations := conversations';
                                  chat := chat1;
                                  analytics := analytics' |})
                          | Returns chat2 =>
                              ({| ar_success := success result;
                                  ar_error := negb (success result);
                                  ar_message :=
                                    if success result
                                    then Some "Answer generated successfully"
                                    else res_error result;
                                  ar_data :=
                                    Some {| ad_answer := answer result;
                                            ad_confidence := res_confidence result;
                                            ad_sources := res_sources result;
                                            ad_conversationId := conversationId';
                                            ad_metadata := res_metadata result |} |},
                               {| conversations := conversations';
                                  chat := chat2;
                                  analytics := analytics' |})
                          end
                    end
                end
            end
      end
  end.
End WithNumbers.

Arguments Message num : clear implicits.
Arguments ActionResult num : clear implicits.
Arguments Tables num : clear implicits.
End Playground.

(** ** Vocabulary of the statements about real vectors *)

Module RealVector.
Local Open Scope R_scope.

Fixpoint dot (a b : list R) : R :=
  match a, b with
  | x :: a', y :: b' => x * y + dot a' b'
  | _, _ => 0
  end.

Definition sumsq (a : list R) : R := dot a a.

(** The Euclidean norm. *)
Definition norm (a : list R) : R := R_sqrt.sqrt (sumsq a).
End RealVector.

(** ** Concrete inputs used by the examples below *)

Module Inputs.
Import VectorStore.
Local Open Scope string_scope.

(** An engine that leaves an array it cannot order as it is. *)
Definition keepOrder {num : Type} : Engine num :=
  {| sortInconsistent := fun _ _ l => l;
     sortInconsistent_permutes := fun _ _ l => Permutation_refl l |}.

Definition textbook : Document :=
  {| doc_id := "doc1"; doc_title := "Algebra"; doc_subject := Some "math";
     doc_gradeLevel := Some 9%Z; doc_isPublic := true; doc_fileUrl := "/algebra.pdf" |}.

Definition chunkOf {num : Type} (id : string) (e : option (list num)) : Chunk num :=
  {| chunk_id := id; chunk_content := "text of " ++ id; chunk_embedding := e;
     chunk_index := 0; chunk_document := textbook |}.

Definition studentOptions : RetrieveOptions :=
  {| opt_subject := Some "math"; opt_gradeLevel := None;
     opt_userRole := Student; opt_topK := None |}.

(** A store over the reals: one chunk with an embedding, one without. *)
Definition smallStore : Env R :=
  {| generateEmbedding := fun _ => Returns [3%R; 4%R];
     chunkTable := [chunkOf "c1" (Some [3%R; 4%R]); chunkOf "c2" None];
     databaseUp := true;
     engine := keepOrder |}.

(** A store over doubles: a hundred chunks orthogonal to the query, then
    one chunk that equals the query. *)
Definition fullStore : Env float :=
  {| generateEmbedding := fun _ => Returns [1; 0]%float;
     chunkTable := repeat (chunkOf "far" (Some [0; 1]%float)) 100
                   ++ [chunkOf "best" (Some [1; 0]%float)];
     databaseUp := true;
     engine := keepOrder |}.

(** A store over doubles whose only chunk points away from the query. *)
Definition oppositeStore : Env float :=
  {| generateEmbedding := fun _ => Returns [1; 0]%float;
     chunkTable := [chunkOf "opposite" (Some [(-1); 0]%float)];
     databaseUp := true;
     engine := keepOrder |}.

(** The doubles nearest to [1e200] and [1e-200]: the square of the first
    overflows to [Infinity], the square of the second underflows to 0. *)
Definition huge : float := 0x1.4e718d7d7625ap+664%float.
Definition tiny : float := 0x1.87e92154ef7acp-665%float.

(** A store over doubles whose chunks lie at several angles to the query;
    one of them has no embedding. *)
Definition rankedStore : Env float :=
  {| generateEmbedding := fun _ => Returns [1; 0]%float;
     chunkTable := [chunkOf "across" (Some [0; 1]%float);
                    chunkOf "same" (Some [1; 0]%float);
                    chunkOf "bare" None;
                    chunkOf "near" (Some [1; 1]%float);
                    chunkOf "opposite" (Some [(-1); 0]%float);
                    chunkOf "again" (Some [2; 0]%float)];
     databaseUp := true;
     engine := keepOrder |}.

Definition topThree : RetrieveOptions :=
  {| opt_subject := Some "math"; opt_gradeLevel := None;
     opt_userRole := Student; opt_topK := Some 3 |}.

(** A store whose query and first chunk have an entry whose square
    overflows, run by any engine: the first chunk scores
    [Infinity / Infinity], which is NaN, and the second scores 0. *)
Definition overflowingStore (e : Engine float) : Env float :=
  {| generateEmbedding := fun _ => Returns [huge];
     chunkTable := [chunkOf "huge" (Some [huge]); chunkOf "unit" (Some [1%float])];
     databaseUp := true;
     engine := e |}.

Definition firstOnly : RetrieveOptions :=
  {| opt_subject := Some "math"; opt_gradeLevel := None;
     opt_userRole := Student; opt_topK := Some 1 |}.

(** A language model that answers every prompt with the same text. *)
Definition constantModel {num : Type} (reply : string) : AnswerGeneration.Env num :=
  {| AnswerGeneration.chainInvoke := fun _ _ _ _ => Returns reply |}.

(** An evaluator whose language model call always fails. *)
Definition failingEvaluator {num : Type} : SelfEvaluation.Env num :=
  {| SelfEvaluation.llmEvaluate := fun _ _ _ _ => Throws "LLM unavailable" |}.

(** An answer of 600 words. *)
Definition longAnswer : string := Js.join " " (repeat "word" 600).

(** A sentence of 400 characters, and a text of four of them. *)
Definition sentence400 : string :=
  string_of_list_ascii (repeat "a"%char 399) ++ ".".

Definition fourSentences : string := Js.join " " (repeat sentence400 4).

(** The options with which the ingestion pipeline calls the chunker. *)
Definition ingestionOptions : DocumentProcessing.ChunkOptions :=
  {| DocumentProcessing.chunkSize := 1000;
     DocumentProcessing.chunkOverlap := 200;
     DocumentProcessing.documentTitle := "Algebra" |}.
(** A rewriter whose language model call fails, and one that answers. *)
Definition offlineRewriter : QueryRefinement.Env float :=
  {| QueryRefinement.llmRewrite := fun _ => Throws "LLM unavailable";
     QueryRefinement.now := 7;
     QueryRefinement.findManyFails := false;
     QueryRefinement.findFirstFails := false;
     QueryRefinement.writeFails := false |}.

Definition workingRewriter : QueryRefinement.Env float :=
  {| QueryRefinement.llmRewrite := fun _ => Returns "  solve the linear equation ";
     QueryRefinement.now := 7;
     QueryRefinement.findManyFails := false;
     QueryRefinement.findFirstFails := false;
     QueryRefinement.writeFails := false |}.

(** A learning store with one row, written in another case. *)
Definition learnedRow : QueryRefinement.Refinement float :=
  {| QueryRefinement.ref_id := 1;
     QueryRefinement.originalQuery := "Solve EQ";
     QueryRefinement.refinedQuery := "Solve the linear equation";
     QueryRefinement.ref_mode := "math_solver";
     QueryRefinement.ref_subject := Some "math";
     QueryRefinement.improvementScore := None;
     QueryRefinement.usageCount := 4;
     QueryRefinement.lastUsed := 3 |}.
(** The services of a run in which the store is empty and the language
    model answers with a blank: retrieval finds nothing, the generated
    answer is the empty string, and the evaluator's own model call fails. *)
Definition emptyStore : Env float :=
  {| generateEmbedding := fun _ => Returns [1; 0]%float;
     chunkTable := [];
     databaseUp := true;
     engine := keepOrder |}.

Definition blankServices : RagWorkflow.Services float :=
  {| RagWorkflow.refineQuery :=
       fun _ query mode subject attempt =>
         Returns (fst (QueryRefinement.refineQuery offlineRewriter [] query mode
                                                   subject attempt));
     RagWorkflow.retrieveDocuments :=
       fun _ query options => retrieveDocuments emptyStore query options;
     RagWorkflow.generateAnswer :=
       fun _ query docs mode history =>
         AnswerGeneration.generateAnswer (constantModel " ") query docs mode history;
     RagWorkflow.evaluateAnswer :=
       fun _ query answer docs confidence =>
         Returns (SelfEvaluation.evaluateAnswer failingEvaluator query answer docs
                                                confidence);
     RagWorkflow.analyticsInsertFails := fun _ => false |}.

(** The same services with a model that does answer. *)
Definition answeringServices : RagWorkflow.Services float :=
  {| RagWorkflow.refineQuery := RagWorkflow.refineQuery blankServices;
     RagWorkflow.retrieveDocuments := RagWorkflow.retrieveDocuments blankServices;
     RagWorkflow.generateAnswer :=
       fun _ query docs mode history =>
         AnswerGeneration.generateAnswer (constantModel "True: 2 + 2 = 4.")
                                         query docs mode history;
     RagWorkflow.evaluateAnswer := RagWorkflow.evaluateAnswer blankServices;
     RagWorkflow.analyticsInsertFails := fun _ => false |}.

Definition firstQuestion : RagWorkflow.RAGState float :=
  RagWorkflow.createInitialState "2+2=4, true or false?" "student1" Student
                                 "math_solver" "conversation1" None.

Definition start (st : RagWorkflow.RAGState float) : RagWorkflow.Config float :=
  {| RagWorkflow.node := RagWorkflow.QueryRefinement;
     RagWorkflow.state := st;
     RagWorkflow.log := [] |}.

(** A compiled graph whose [invoke] throws. *)
Definition brokenGraph : RagWorkflow.CompiledGraph float :=
  {| RagWorkflow.invoke := fun _ log0 => (Throws "graph failure", log0) |}.
(** The same services over a store whose database is down. *)
Definition downStore : Env float :=
  {| generateEmbedding := fun _ => Returns [1; 0]%float;
     chunkTable := [];
     databaseUp := false;
     engine := keepOrder |}.

Definition unreachableStoreServices : RagWorkflow.Services float :=
  {| RagWorkflow.refineQuery := RagWorkflow.refineQuery answeringServices;
     RagWorkflow.retrieveDocuments :=
       fun _ query options => retrieveDocuments downStore query options;
     RagWorkflow.generateAnswer := RagWorkflow.generateAnswer answeringServices;
     RagWorkflow.evaluateAnswer := RagWorkflow.evaluateAnswer answeringServices;
     RagWorkflow.analyticsInsertFails := fun _ => false |}.

(** The same services when the store fails with an error whose message
    is empty. *)
Definition silentFailureServices : RagWorkflow.Services float :=
  {| RagWorkflow.refineQuery := RagWorkflow.refineQuery answeringServices;
     RagWorkflow.retrieveDocuments := fun _ _ _ => Throws "";
     RagWorkflow.generateAnswer := RagWorkflow.generateAnswer answeringServices;
     RagWorkflow.evaluateAnswer := RagWorkflow.evaluateAnswer answeringServices;
     RagWorkflow.analyticsInsertFails := fun _ => false |}.

(** Services whose language model fails when asked for an answer. *)
Definition failingModel {num : Type} : AnswerGeneration.Env num :=
  {| AnswerGeneration.chainInvoke := fun _ _ _ _ => Throws "model unavailable" |}.
(** Three candidate answers, over the reals and over doubles, and a
    selection model that fails. *)
Definition candidate {num : Type} (text : string) (c : num)
  : SelfEvaluation.CandidateAnswer (num := num) :=
  {| SelfEvaluation.ca_answer := text;
     SelfEvaluation.ca_confidence := c;
     SelfEvaluation.ca_sources := [] |}.

Definition failingSelector {num : Type} : SelfEvaluation.SelectionEnv (num := num) :=
  {| SelfEvaluation.llmSelect := fun _ _ _ => Throws "LLM unavailable" |}.

Definition secondSelector : SelfEvaluation.SelectionEnv (num := float) :=
  {| SelfEvaluation.llmSelect := fun _ _ _ => Returns " 2 " |}.

(** An evaluator whose model returns the score 1. *)
Definition generousEvaluator : SelfEvaluation.Env R :=
  {| SelfEvaluation.llmEvaluate :=
       fun _ _ _ _ =>
         Returns {| SelfEvaluation.score := 1%R;
                    SelfEvaluation.feedback := "Good";
                    SelfEvaluation.strengths := [];
                    SelfEvaluation.improvements := [] |} |}.

(** An evaluator whose model replies with JSON in which [score] is not a
    number. *)
Definition unscoredEvaluator : SelfEvaluation.Env float :=
  {| SelfEvaluation.llmEvaluate :=
       fun _ _ _ _ =>
         Returns {| SelfEvaluation.score := PrimFloat.nan;
                    SelfEvaluation.feedback := "Fine";
                    SelfEvaluation.strengths := [];
                    SelfEvaluation.improvements := [] |} |}.

(** A refinement that was stored by one call of [refineQuery]. *)
Definition oneCall
  : list (QueryRefinement.Env R * string * string * option string * nat) :=
  [({| QueryRefinement.llmRewrite := fun _ => Returns "solve the linear equation";
       QueryRefinement.now := 7%nat;
       QueryRefinement.findManyFails := false;
       QueryRefinement.findFirstFails := false;
       QueryRefinement.writeFails := false |},
    "solve eq", "math_solver", Some "math", 1%nat)].

Definition feedbackEnv : QueryRefinement.Env R :=
  {| QueryRefinement.llmRewrite := fun _ => Throws "unused";
     QueryRefinement.now := 9%nat;
     QueryRefinement.findManyFails := false;
     QueryRefinement.findFirstFails := false;
     QueryRefinement.writeFails := false |}.
(** A row that feedback has marked as successful. *)
Definition provenRow : QueryRefinement.Refinement float :=
  {| QueryRefinement.ref_id := 2;
     QueryRefinement.originalQuery := "area of circle";
     QueryRefinement.refinedQuery := "formula for the area of a circle";
     QueryRefinement.ref_mode := "math_solver";
     QueryRefinement.ref_subject := Some "math";
     QueryRefinement.improvementScore := Some 0.75%float;
     QueryRefinement.usageCount := 2;
     QueryRefinement.lastUsed := 5 |}.
(** A store whose only chunk has no embedding, and a database that finds
    every keyword in it. *)
Definition keywordStore : SearchEnv R :=
  {| store := {| generateEmbedding := fun _ => Returns [1%R];
                 chunkTable := [chunkOf "c2" None];
                 databaseUp := true;
                 engine := keepOrder |};
     contains := fun _ _ => true;
     keywordQueryUp := true |}.

Definition hybridStudent : HybridOptions R :=
  {| hy_options := studentOptions; hy_alpha := None |}.

(** The same store when the keyword query cannot reach the database, and
    when the embedding service is down. *)
Definition keywordDown : SearchEnv R :=
  {| store := store keywordStore;
     contains := contains keywordStore;
     keywordQueryUp := false |}.

Definition embeddingDown : SearchEnv R :=
  {| store := {| generateEmbedding := fun _ => Throws "rate limit exceeded";
                 chunkTable := chunkTable (store keywordStore);
                 databaseUp := true;
                 engine := keepOrder |};
     contains := contains keywordStore;
     keywordQueryUp := true |}.
(** An upload of a plain text by a teacher, an embedding service that
    fails, and one that works. *)
Definition lesson : DocumentStore.DocumentMetadata :=
  {| DocumentStore.up_title := "Water";
     DocumentStore.up_description := None;
     DocumentStore.up_subject := Some "physics";
     DocumentStore.up_gradeLevel := Some 7%Z;
     DocumentStore.up_classId := None;
     DocumentStore.up_subjectId := None;
     DocumentStore.up_uploadedBy := "teacher1";
     DocumentStore.up_uploadedByRole := "teacher";
     DocumentStore.up_isPublic := true |}.

Definition ingestion (embeddingUp : bool) : DocumentStore.Env float :=
  {| DocumentStore.pdf := fun _ => Throws "not a PDF";
     DocumentStore.extractRawText := fun _ => Throws "not a DOCX";
     DocumentStore.toUtf8 := fun buffer => buffer;
     DocumentStore.generateEmbedding :=
       fun _ => if embeddingUp then Returns [1%float; 0%float]
                else Throws "rate limit exceeded";
     DocumentStore.newDocumentId := fun _ => "doc7";
     DocumentStore.documentReadFails := false;
     DocumentStore.documentWriteFails := false;
     DocumentStore.chunkWriteFails := false;
     DocumentStore.chunkDeleteFails := false;
     DocumentStore.onDocumentDelete :=
       fun id rows =>
         filter (fun row => negb (DocumentStore.row_documentId row =? id)%string) rows |}.

(** The same services once the chunk table can no longer be written. *)
Definition deleteDown : DocumentStore.Env float :=
  {| DocumentStore.pdf := DocumentStore.pdf (ingestion true);
     DocumentStore.extractRawText := DocumentStore.extractRawText (ingestion true);
     DocumentStore.toUtf8 := DocumentStore.toUtf8 (ingestion true);
     DocumentStore.generateEmbedding := DocumentStore.generateEmbedding (ingestion true);
     DocumentStore.newDocumentId := DocumentStore.newDocumentId (ingestion true);
     DocumentStore.documentReadFails := false;
     DocumentStore.documentWriteFails := false;
     DocumentStore.chunkWriteFails := false;
     DocumentStore.chunkDeleteFails := true;
     DocumentStore.onDocumentDelete := DocumentStore.onDocumentDelete (ingestion true) |}.

Definition emptyDb : DocumentStore.Db float :=
  {| DocumentStore.documents := []; DocumentStore.chunkRows := [] |}.

Definition document7 (uploader : string) : DocumentStore.AIDocument :=
  {| DocumentStore.ai_id := "doc7";
     DocumentStore.ai_title := "Water";
     DocumentStore.ai_description := None;
     DocumentStore.ai_fileUrl := "/water.txt";
     DocumentStore.ai_fileType := "text/plain";
     DocumentStore.ai_subject := Some "physics";
     DocumentStore.ai_gradeLevel := Some 7%Z;
     DocumentStore.ai_uploadedBy := uploader;
     DocumentStore.ai_uploadedByRole := "teacher";
     DocumentStore.ai_isPublic := true;
     DocumentStore.ai_classId := None;
     DocumentStore.ai_subjectId := None;
     DocumentStore.ai_originalSize := 27;
     DocumentStore.ai_extractedTextLength := 27;
     DocumentStore.ai_chunksCount := 1 |}.
(** A student's session, and a question asked in a conversation that
    exists. *)
Definition studentSession : Playground.Env :=
  {| Playground.auth := Returns (Some "student1");
     Playground.findStudent := fun _ => Returns (Some {| Playground.username := Some "amy" |});
     Playground.findTeacher := fun _ => Returns None;
     Playground.newConversationId := fun _ => "conversation2";
     Playground.conversationWriteFails := false;
     Playground.userMessageWriteFails := false;
     Playground.assistantMessageWriteFails := false |}.

Definition mathQuestion : Playground.QueryOptions :=
  {| Playground.qo_mode := "math_solver";
     Playground.qo_subject := None;
     Playground.qo_gradeLevel := None;
     Playground.qo_conversationId := Some "conversation1" |}.

Definition noTables : Playground.Tables float :=
  {| Playground.conversations := []; Playground.chat := []; Playground.analytics := [] |}.
End Inputs.

(* ================================================================== *)
(** * Part II: lemmas and theorems *)
(* ================================================================== *)


(** ** Numbers *)

Section Doubles.

Ltac compare_cases :=
  repeat match goal with
  | |- context [Z.compare ?a ?b] => destruct (Z.compare_spec a b); subst
  | H : context [Z.compare ?a ?b] |- _ => destruct (Z.compare_spec a b); subst
  | |- context [Pos.compare ?a ?b] => destruct (Pos.compare_spec a b); subst
  | H : context [Pos.compare ?a ?b] |- _ => destruct (Pos.compare_spec a b); subst
  end.

Lemma SFleb_transitive (x y z : spec_float) :
  SFleb x y = true -> SFleb y z = true -> SFleb x z = true.
Proof.
  unfold SFleb, SFcompare.
  destruct x as [sx | sx | | sx mx ex], y as [sy | sy | | sy my ey],
           z as [sz | sz | | sz mz ez];
    try discriminate; try reflexivity;
    repeat match goal with s : bool |- _ => destruct s end;
    try discriminate; try reflexivity;
    change (Pos.compare_cont Eq) with Pos.compare;
    intros H1 H2; compare_cases; cbn in *;
    try discriminate; try reflexivity; try lia.
Qed.

Lemma SFleb_of_ltb (x y : spec_float) : SFltb x y = true -> SFleb x y = true.
Proof.
  unfold SFltb, SFleb. destruct (SFcompare x y) as [[ | | ] |]; congruence.
Qed.

Lemma SFcompare_swap (x y : spec_float) :
  SFcompare y x = option_map CompOpp (SFcompare x y).
Proof.
  unfold SFcompare.
  destruct x as [sx | sx | | sx mx ex], y as [sy | sy | | sy my ey];
    try reflexivity;
    repeat match goal with s : bool |- _ => destruct s end; try reflexivity;
    cbn; change (Pos.compare_cont Eq) with Pos.compare;
    rewrite (Z.compare_antisym ex ey), (Pos.compare_antisym mx my);
    destruct (ex ?= ey)%Z, (mx ?= my)%positive; reflexivity.
Qed.

Lemma SFleb_of_not_ltb (x y : spec_float) :
  x <> S754_nan -> y <> S754_nan -> SFltb x y = false -> SFleb y x = true.
Proof.
  intros Hx Hy. unfold SFltb, SFleb. rewrite (SFcompare_swap x y).
  destruct (SFcompare x y) as [[ | | ] |] eqn:E; cbn; try congruence.
  intros _. unfold SFcompare in E.
  destruct x, y; try congruence; discriminate.
Qed.

Lemma SF64mul_comm (x y : spec_float) : SF64mul x y = SF64mul y x.
Proof.
  unfold SF64mul, SFmul.
  destruct x as [sx | sx | | sx mx ex], y as [sy | sy | | sy my ey];
    try reflexivity; rewrite ?(xorb_comm sx sy); try reflexivity.
  now rewrite (Pos.mul_comm mx my), (Z.add_comm ex ey).
Qed.

(** The product of two doubles does not depend on their order. *)
Lemma double_mul_comm (x y : float) : PrimFloat.mul x y = PrimFloat.mul y x.
Proof. apply Prim2SF_inj. rewrite !FloatAxioms.mul_spec. apply SF64mul_comm. Qed.

Lemma double_is_nan_true (x : float) :
  Double.is_nan x = true <-> Prim2SF x = S754_nan.
Proof.
  unfold Double.is_nan. rewrite FloatAxioms.eqb_spec. unfold SFeqb, SFcompare.
  destruct (Prim2SF x) as [s | s | | s m e]; cbn.
  - split; discriminate.
  - destruct s; split; discriminate.
  - tauto.
  - change (Pos.compare_cont Eq) with Pos.compare.
    rewrite Z.compare_refl, Pos.compare_refl. destruct s; split; discriminate.
Qed.

Lemma double_is_nan_false (x : float) :
  Double.is_nan x = false <-> Prim2SF x <> S754_nan.
Proof.
  rewrite <- double_is_nan_true. destruct (Double.is_nan x); split; congruence.
Qed.

(** A comparison with NaN is false. *)
Lemma double_leb_numbers (x y : float) :
  PrimFloat.leb x y = true -> Double.is_nan x = false /\ Double.is_nan y = false.
Proof.
  rewrite FloatAxioms.leb_spec, !double_is_nan_false. unfold SFleb, SFcompare.
  destruct (Prim2SF x), (Prim2SF y); try discriminate; split; discriminate.
Qed.

#[export] Instance double_order : NumberOrder float.
Proof.
  split; cbn [ltb leb is_nan double_number].
  - intros x y. rewrite FloatAxioms.ltb_spec, FloatAxioms.leb_spec. apply SFleb_of_ltb.
  - intros x y Hx Hy. rewrite FloatAxioms.ltb_spec, FloatAxioms.leb_spec.
    apply SFleb_of_not_ltb; now apply double_is_nan_false.
  - intros x y z. rewrite !FloatAxioms.leb_spec. apply SFleb_transitive.
Qed.

(** *** Where NaN comes from *)

Lemma shr_1_nonneg (mrs : shr_record) :
  (0 <= shr_m mrs)%Z -> (0 <= shr_m (shr_1 mrs))%Z.
Proof.
  destruct mrs as [m r s]. cbn [shr_m]. intros Hm. unfold shr_1.
  destruct m as [| [p | p |] | p]; cbn [shr_m]; lia.
Qed.

Lemma iter_shr_1_nonneg (p : positive) :
  forall mrs, (0 <= shr_m mrs)%Z -> (0 <= shr_m (iter_pos shr_1 p mrs))%Z.
Proof.
  induction p as [p IH | p IH |]; intros mrs Hm; cbn [iter_pos].
  - apply IH, IH, shr_1_nonneg, Hm.
  - apply IH, IH, Hm.
  - apply shr_1_nonneg, Hm.
Qed.

Lemma shr_fexp_nonneg (prec emax m e : Z) (l : location) :
  (0 <= m)%Z -> (0 <= shr_m (fst (shr_fexp prec emax m e l)))%Z.
Proof.
  intros Hm. unfold shr_fexp, shr.
  assert (H0 : (0 <= shr_m (shr_record_of_loc m l))%Z)
    by (destruct l as [| [ | | ]]; exact Hm).
  destruct (fexp prec emax (Zdigits2 m + e) - e)%Z; cbn [fst]; auto.
  now apply iter_shr_1_nonneg.
Qed.

Lemma round_nearest_even_nonneg (m : Z) (l : location) :
  (0 <= m)%Z -> (0 <= round_nearest_even m l)%Z.
Proof.
  intros Hm. unfold round_nearest_even.
  destruct l as [| [ | | ]]; try destruct (Z.even m); lia.
Qed.

(** Rounding a mantissa that is not negative never yields NaN. *)
Lemma binary_round_aux_number (prec emax : Z) (sx : bool) (m e : Z) (l : location) :
  (0 <= m)%Z -> binary_round_aux prec emax sx m e l <> S754_nan.
Proof.
  intros Hm. unfold binary_round_aux.
  pose proof (@shr_fexp_nonneg prec emax m e l Hm) as H1.
  destruct (shr_fexp prec emax m e l) as [mrs' e']. cbn [fst] in H1.
  pose proof (@shr_fexp_nonneg prec emax _ e' loc_Exact
                (@round_nearest_even_nonneg _ (loc_of_shr_record mrs') H1)) as H2.
  destruct (shr_fexp prec emax _ e' loc_Exact) as [mrs'' e'']. cbn [fst] in H2.
  destruct (shr_m mrs'') as [| p | p]; [ discriminate | | lia ].
  destruct (e'' <=? emax - prec)%Z; discriminate.
Qed.

Lemma SF64mul_finite_nan (x : spec_float) (s : bool) (m : positive) (e : Z) :
  SF64mul x (S754_finite s m e) = S754_nan <-> x = S754_nan.
Proof.
  unfold SF64mul, SFmul. destruct x as [sx | sx | | sx mx ex].
  - split; discriminate.
  - split; discriminate.
  - tauto.
  - split; [ | discriminate ]. intros Hnan. exfalso.
    revert Hnan. apply binary_round_aux_number. lia.
Qed.

Lemma binary_normalize_number (prec emax m e : Z) (szero : bool) :
  binary_normalize prec emax m e szero <> S754_nan.
Proof.
  unfold binary_normalize, binary_round.
  destruct m as [| p | p]; [ discriminate | | ];
    destruct (shl_align _ _ _) as [mz ez]; apply binary_round_aux_number; lia.
Qed.

Lemma SF64add_finite_nan (x y : spec_float) :
  match x with S754_zero _ | S754_finite _ _ _ => True | _ => False end ->
  (SF64add x y = S754_nan <-> y = S754_nan).
Proof.
  unfold SF64add, SFadd.
  destruct x as [sx | sx | | sx mx ex]; try contradiction; intros _;
    destruct y as [sy | sy | | sy my ey];
    repeat match goal with s : bool |- _ => destruct s end;
    try (split; discriminate); try tauto;
    (split; [ | discriminate ]); intros Hnan; exfalso; revert Hnan;
    apply binary_normalize_number.
Qed.

(** The product of a double with a finite double other than 0 is NaN
    only if the double is. *)
Lemma double_is_nan_mul (x c : float) (s : bool) (m : positive) (e : Z) :
  Prim2SF c = S754_finite s m e ->
  Double.is_nan (PrimFloat.mul x c) = Double.is_nan x.
Proof.
  intros Hc. apply eq_true_iff_eq.
  rewrite !double_is_nan_true, FloatAxioms.mul_spec, Hc.
  apply SF64mul_finite_nan.
Qed.

(** The sum of a finite double and a double is NaN only if the second
    is. *)
Lemma double_is_nan_add (a b : float) :
  match Prim2SF a with S754_zero _ | S754_finite _ _ _ => True | _ => False end ->
  Double.is_nan (PrimFloat.add a b) = Double.is_nan b.
Proof.
  intros Ha. apply eq_true_iff_eq.
  rewrite !double_is_nan_true, FloatAxioms.add_spec.
  now apply SF64add_finite_nan.
Qed.

(** [Math.max(0, Math.min(1, x))] on doubles: NaN goes through, and any
    other value ends between 0 and 1. *)
Lemma double_clamp01 (x : float) :
  Double.is_nan (clamp01 x) = Double.is_nan x
  /\ (Double.is_nan x = false ->
      PrimFloat.leb 0 (clamp01 x) = true /\ PrimFloat.leb (clamp01 x) 1 = true).
Proof.
  unfold clamp01, zero, one. cbn [num_max num_min of_Z double_number].
  change (Double.of_Z 0) with 0%float. change (Double.of_Z 1) with 1%float.
  unfold Double.min.
  change (Double.is_nan 1) with false. cbn [orb].
  destruct (Double.is_nan x) eqn:Hx.
  - split; [ reflexivity | discriminate ].
  - set (m := if PrimFloat.ltb 1 x then 1%float
              else if PrimFloat.ltb x 1 then x
              else if Double.is_neg_zero 1 then 1%float else x).
    assert (Hm : Double.is_nan m = false /\ PrimFloat.leb m 1 = true).
    { subst m. destruct (PrimFloat.ltb 1 x) eqn:E1; [ split; reflexivity | ].
      assert (Hle : PrimFloat.leb x 1 = true).
      { exact (@leb_of_not_ltb float _ double_order 1%float x eq_refl Hx E1). }
      change (Double.is_neg_zero 1) with false.
      destruct (PrimFloat.ltb x 1); auto. }
    destruct Hm as [Hmnum Hm1]. clearbody m.
    unfold Double.max. change (Double.is_nan 0) with false. rewrite Hmnum. cbn [orb].
    change (Double.is_neg_zero 0) with false.
    destruct (PrimFloat.ltb 0 m) eqn:E0.
    + split; [ exact Hmnum | intros _ ]. split; [ | exact Hm1 ].
      exact (@leb_of_ltb float _ double_order 0%float m E0).
    + assert (H00 : (if PrimFloat.ltb m 0 then 0%float else 0%float) = 0%float)
        by (destruct (PrimFloat.ltb m 0); reflexivity).
      rewrite H00. split; [ reflexivity | intros _; split; reflexivity ].
Qed.
End Doubles.

Section Reals.
Local Open Scope R_scope.

Lemma real_eqb_true (x y : R) : Real.eqb x y = true <-> x = y.
Proof. unfold Real.eqb. destruct (Req_dec_T x y); split; congruence. Qed.

Lemma real_eqb_false (x y : R) : Real.eqb x y = false <-> x <> y.
Proof. unfold Real.eqb. destruct (Req_dec_T x y); split; congruence. Qed.

Lemma real_ltb_true (x y : R) : Real.ltb x y = true <-> x < y.
Proof. unfold Real.ltb. destruct (Rlt_dec x y); split; congruence. Qed.

Lemma real_ltb_false (x y : R) : Real.ltb x y = false <-> y <= x.
Proof.
  unfold Real.ltb. destruct (Rlt_dec x y); split; try congruence; lra.
Qed.

Lemma real_leb_true (x y : R) : Real.leb x y = true <-> x <= y.
Proof. unfold Real.leb. destruct (Rle_dec x y); split; congruence. Qed.

#[export] Instance real_order : NumberOrder R.
Proof.
  split; cbn [ltb leb is_nan real_number].
  - intros x y. rewrite real_ltb_true, real_leb_true. lra.
  - intros x y _ _. rewrite real_ltb_false, real_leb_true. lra.
  - intros x y z. rewrite !real_leb_true. lra.
Qed.
End Reals.

(** ** Cosine similarity *)

Section CosineSimilarity.
Import VectorStore RealVector.

Lemma cosineSimilarity_throws_iff {num : Type} `{JsNumber num} (a b : list num) :
  cosineSimilarity a b = Throws "Vectors must have same length"
  <-> List.length a <> List.length b.
Proof.
  unfold cosineSimilarity.
  destruct (Nat.eqb_spec (List.length a) (List.length b)) as [E | E]; simpl.
  - split; [ | tauto ].
    destruct (accumulate a b (zero, zero, zero)) as [[d na] nb].
    destruct (eqb (sqrt na) zero || eqb (sqrt nb) zero); discriminate.
  - tauto.
Qed.

Lemma cosineSimilarity_returns_iff {num : Type} `{JsNumber num} (a b : list num) :
  (exists v, cosineSimilarity a b = Returns v) <-> List.length a = List.length b.
Proof.
  unfold cosineSimilarity.
  destruct (Nat.eqb_spec (List.length a) (List.length b)) as [E | E]; simpl.
  - split; [ auto | intros _ ].
    destruct (accumulate a b (zero, zero, zero)) as [[d na] nb].
    destruct (eqb (sqrt na) zero || eqb (sqrt nb) zero); eauto.
  - split; [ intros [v Hv]; discriminate | tauto ].
Qed.

(** C9: on two vectors of different lengths [cosineSimilarity] throws
    ("Vectors must have same length") and returns no number; it returns a
    value exactly when the two vectors have the same dimension.  This
    holds for every number type, in particular for doubles. *)
Theorem cosineSimilarity_dimension_check :
  forall (num : Type) (N : JsNumber num) (a b : list num),
    (List.length a <> List.length b ->
     cosineSimilarity a b = Throws "Vectors must have same length"
     /\ forall v, cosineSimilarity a b <> Returns v)
    /\ ((exists v, cosineSimilarity a b = Returns v)
        <-> List.length a = List.length b).
Proof.
  intros num N a b. split.
  - intros Hne. split.
    + now apply cosineSimilarity_throws_iff.
    + intros v Hv. apply Hne. apply cosineSimilarity_returns_iff. eauto.
  - apply cosineSimilarity_returns_iff.
Qed.

Lemma accumulate_norms {num : Type} `{JsNumber num} (a : list num) :
  forall (b : list num) (d na nb : num),
    List.length a = List.length b ->
    exists d',
      accumulate a b (d, na, nb)
      = (d', fold_left (fun sum x => add sum (mul x x)) a na,
             fold_left (fun sum x => add sum (mul x x)) b nb).
Proof.
  induction a as [| x a IH]; intros [| y b] d na nb Hlen; try discriminate.
  - exists d. reflexivity.
  - cbn [accumulate fold_left]. apply IH. now injection Hlen.
Qed.

(** The guard against a division by zero, for every number type. *)
Lemma cosineSimilarity_zero_norm {num : Type} `{JsNumber num} (a b : list num) :
  List.length a = List.length b ->
  eqb (computedNorm a) zero = true \/ eqb (computedNorm b) zero = true ->
  cosineSimilarity a b = Returns zero.
Proof.
  intros Hlen Hzero. unfold cosineSimilarity.
  rewrite Hlen, Nat.eqb_refl. cbn [negb].
  destruct (accumulate_norms a b zero zero zero Hlen) as [d ->].
  fold (computedNorm a) (computedNorm b).
  destruct Hzero as [-> | ->]; [ reflexivity | ].
  now rewrite orb_true_r.
Qed.

Lemma accumulate_swap (a : list float) :
  forall (b : list float) (d na nb : float),
    accumulate a b (d, na, nb)
    = let '(d', nb', na') := accumulate b a (d, nb, na) in (d', na', nb').
Proof.
  induction a as [| x a IH]; intros [| y b] d na nb; try reflexivity.
  cbn [accumulate]. rewrite IH. cbn [mul double_number].
  now rewrite (double_mul_comm y x).
Qed.

(** On doubles the two orders of the arguments give the same double. *)
Lemma cosineSimilarity_double_symmetric (a b : list float) :
  cosineSimilarity a b = cosineSimilarity b a.
Proof.
  unfold cosineSimilarity. rewrite (Nat.eqb_sym (List.length b)).
  destruct (List.length a =? List.length b)%nat; [ | reflexivity ]. cbn [negb].
  rewrite accumulate_swap.
  destruct (accumulate b a (zero, zero, zero)) as [[d nb] na].
  rewrite orb_comm. cbn [mul double_number].
  now rewrite (double_mul_comm (sqrt na) (sqrt nb)).
Qed.

(** The square of [0] and of [-0] is [0]. *)
Lemma double_zero_square (x : float) :
  PrimFloat.eqb x 0 = true -> PrimFloat.mul x x = 0%float.
Proof.
  rewrite FloatAxioms.eqb_spec. intros Hx.
  apply Prim2SF_inj. rewrite FloatAxioms.mul_spec.
  change (Prim2SF 0) with (S754_zero false) in *.
  destruct (Prim2SF x) as [s | s | | s m e]; try discriminate;
    destruct s; try discriminate; reflexivity.
Qed.

Lemma computedNorm_zeros (a : list float) :
  Forall (fun x => eqb x zero = true) a -> computedNorm a = zero.
Proof.
  unfold computedNorm. intros Hall.
  assert (Hsum : fold_left (fun sum x => add sum (mul x x)) a zero = zero).
  { induction Hall as [| x a Hx _ IH]; [ reflexivity | ].
    cbn [fold_left]. cbn [mul add double_number].
    rewrite (double_zero_square Hx). exact IH. }
  rewrite Hsum. reflexivity.
Qed.

Local Open Scope R_scope.

Lemma accumulate_real (a : list R) :
  forall (b : list R) (d na nb : R),
    List.length a = List.length b ->
    accumulate a b (d, na, nb) = (d + dot a b, na + sumsq a, nb + sumsq b).
Proof.
  induction a as [| x a IH]; intros [| y b] d na nb Hlen; try discriminate.
  - simpl. unfold sumsq. simpl. now rewrite !Rplus_0_r.
  - simpl in Hlen. injection Hlen as Hlen.
    cbn [accumulate]. cbn [add mul real_number].
    rewrite (IH b _ _ _ Hlen). unfold sumsq. cbn [dot].
    f_equal; [ f_equal | ]; ring.
Qed.

Lemma dot_comm (a : list R) : forall b, dot a b = dot b a.
Proof.
  induction a as [| x a IH]; intros [| y b]; simpl; auto.
  rewrite IH. ring.
Qed.

Lemma sumsq_nonneg (a : list R) : 0 <= sumsq a.
Proof.
  unfold sumsq. induction a as [| x a IH]; simpl; [ lra | ].
  pose proof (Rle_0_sqr x) as Hx. unfold Rsqr in Hx. lra.
Qed.

(** The quadratic [t |-> sum (a_i t + b_i)^2] is nowhere negative. *)
Lemma quadratic_nonneg (a : list R) :
  forall b t, List.length a = List.length b ->
    0 <= sumsq a * (t * t) + 2 * dot a b * t + sumsq b.
Proof.
  unfold sumsq.
  induction a as [| x a IH]; intros [| y b] t Hlen; try discriminate.
  - simpl. lra.
  - simpl in Hlen. injection Hlen as Hlen. specialize (IH b t Hlen).
    simpl. pose proof (Rle_0_sqr (x * t + y)) as Hsq. unfold Rsqr in Hsq. nra.
Qed.

Lemma cauchy_schwarz (a b : list R) :
  List.length a = List.length b ->
  dot a b * dot a b <= sumsq a * sumsq b.
Proof.
  intros Hlen.
  pose proof (sumsq_nonneg a) as HA. pose proof (sumsq_nonneg b) as HB.
  pose proof (quadratic_nonneg a b) as Hq.
  set (A := sumsq a) in *. set (B := sumsq b) in *. set (D := dot a b) in *.
  destruct (Req_dec_T A 0) as [HA0 | HA0].
  - (* a linear function that is nowhere negative is constant *)
    assert (HD : D = 0).
    { destruct (Req_dec_T D 0) as [ | HD]; [ assumption | exfalso ].
      specialize (Hq (- (B + 1) / (2 * D)) Hlen). rewrite HA0 in Hq.
      assert (E : 2 * D * (- (B + 1) / (2 * D)) = - (B + 1)) by (field; lra).
      lra. }
    rewrite HD, HA0. lra.
  - assert (HApos : 0 < A) by lra.
    specialize (Hq (- D / A) Hlen).
    assert (E : A * (- D / A * (- D / A)) + 2 * D * (- D / A) + B
                = B - D * D / A) by (field; lra).
    rewrite E in Hq.
    assert (E2 : D * D / A * A = D * D) by (field; lra).
    nra.
Qed.

(** What [cosineSimilarity] computes over the reals. *)
Lemma cosineSimilarity_real (a b : list R) :
  List.length a = List.length b ->
  cosineSimilarity a b =
  Returns (if Real.eqb (norm a) 0 || Real.eqb (norm b) 0 then 0
           else dot a b / (norm a * norm b)).
Proof.
  intros Hlen. unfold cosineSimilarity.
  rewrite Hlen, Nat.eqb_refl. cbn [negb].
  unfold zero. cbn [of_Z real_number].
  rewrite (accumulate_real a b 0 0 0 Hlen). rewrite !Rplus_0_l.
  cbn [sqrt eqb div mul real_number]. fold (norm a) (norm b).
  now destruct (Real.eqb (norm a) 0 || Real.eqb (norm b) 0).
Qed.

Lemma norm_nonneg (a : list R) : 0 <= norm a.
Proof. apply sqrt_positivity, sumsq_nonneg. Qed.

Lemma norm_square (a : list R) : norm a * norm a = sumsq a.
Proof. apply sqrt_sqrt, sumsq_nonneg. Qed.

Lemma cosine_bounded (a b : list R) :
  List.length a = List.length b -> norm a <> 0 -> norm b <> 0 ->
  -1 <= dot a b / (norm a * norm b) <= 1.
Proof.
  intros Hlen Ha Hb.
  pose proof (norm_nonneg a) as Hna. pose proof (norm_nonneg b) as Hnb.
  pose proof (cauchy_schwarz a b Hlen) as Hcs.
  rewrite <- (norm_square a), <- (norm_square b) in Hcs.
  set (p := norm a * norm b).
  assert (Hp : 0 < p) by (unfold p; apply Rmult_lt_0_compat; lra).
  assert (Hsq : dot a b * dot a b <= p * p) by (unfold p; nra).
  assert (Hd : - p <= dot a b <= p) by nra.
  split.
  - apply Rmult_le_reg_r with p; [ assumption | ].
    unfold Rdiv. rewrite Rmult_assoc, Rinv_l by lra. lra.
  - apply Rmult_le_reg_r with p; [ assumption | ].
    unfold Rdiv. rewrite Rmult_assoc, Rinv_l by lra. lra.
Qed.
Lemma self_similarity (a : list R) :
  norm a <> 0 -> dot a a / (norm a * norm a) = 1.
Proof.
  intros Ha. fold (sumsq a). rewrite norm_square.
  apply Rinv_r. rewrite <- norm_square.
  pose proof (norm_nonneg a). nra.
Qed.

(** C4 as stated fails on the doubles the program computes with: the
    similarity of [1, 1, 1] with itself is [3 / (sqrt 3 * sqrt 3)], and
    [sqrt 3 * sqrt 3] rounds to [2.9999999999999996], so the result is
    [1.0000000000000002], above 1. *)
Lemma cosineSimilarity_double_leaves_unit_interval :
  ~ (forall a b : list float,
        List.length a = List.length b ->
        exists v, cosineSimilarity a b = Returns v
                  /\ PrimFloat.leb (-1)%float v = true
                  /\ PrimFloat.leb v 1%float = true).
Proof.
  intros Hclaim.
  destruct (Hclaim [1; 1; 1]%float [1; 1; 1]%float eq_refl) as (v & Hv & _ & Hle).
  vm_compute in Hv. injection Hv as <-.
  vm_compute in Hle. discriminate.
Qed.

(** C4, amended.  On the doubles the program computes with:
    [cosineSimilarity a b] and [cosineSimilarity b a] are the same
    outcome, for all vectors; for vectors of equal dimension the result
    is 0 whenever the norm computed for either vector is 0, and so
    whenever either vector is all-zero.  In exact real arithmetic, for
    vectors of equal dimension: the value lies in [-1, 1], is the same
    in both orders, is 0 whenever either vector has zero norm, and
    [cosineSimilarity a a] is 1 for [a] of nonzero norm. *)
Theorem cosineSimilarity_symmetry_zero_and_bounds :
  (forall a b : list float, cosineSimilarity a b = cosineSimilarity b a)
  /\ (forall a b : list float,
        List.length a = List.length b ->
        eqb (computedNorm a) zero = true \/ eqb (computedNorm b) zero = true ->
        cosineSimilarity a b = Returns zero)
  /\ (forall a b : list float,
        List.length a = List.length b ->
        Forall (fun x => eqb x zero = true) a \/ Forall (fun x => eqb x zero = true) b ->
        cosineSimilarity a b = Returns zero)
  /\ (forall a b : list R,
        List.length a = List.length b ->
        exists v,
          cosineSimilarity a b = Returns v
          /\ -1 <= v <= 1
          /\ cosineSimilarity b a = Returns v
          /\ (norm a = 0 \/ norm b = 0 -> v = 0)
          /\ (norm a <> 0 -> cosineSimilarity a a = Returns 1)).
Proof.
  split; [ exact cosineSimilarity_double_symmetric | ].
  split; [ intros a b; apply cosineSimilarity_zero_norm | ].
  split.
  { intros a b Hlen Hzero. apply cosineSimilarity_zero_norm; [ exact Hlen | ].
    destruct Hzero as [Hzero | Hzero]; [ left | right ];
      now rewrite (computedNorm_zeros Hzero). }
  intros a b Hlen.
  rewrite (cosineSimilarity_real a b Hlen).
  rewrite (cosineSimilarity_real b a (eq_sym Hlen)).
  rewrite (cosineSimilarity_real a a eq_refl).
  eexists. split; [ reflexivity | ].
  unfold Real.eqb.
  destruct (Req_dec_T (norm a) 0) as [Ea | Ea];
    destruct (Req_dec_T (norm b) 0) as [Eb | Eb]; cbn [orb].
  - repeat split; try lra; intros; try reflexivity; contradiction.
  - repeat split; try lra; intros; try reflexivity; contradiction.
  - repeat split; try lra; intros; try reflexivity.
    f_equal. now apply self_similarity.
  - repeat split.
    + now apply cosine_bounded.
    + now apply cosine_bounded.
    + rewrite (dot_comm b a), (Rmult_comm (norm b) (norm a)). reflexivity.
    + intros [H0 | H0]; contradiction.
    + intros _. f_equal. now apply self_similarity.
Qed.

(** The theorem at work on doubles: [3, 4] against [4, 3] in both orders,
    and against the all-zero vector. *)
Example cosineSimilarity_on_doubles :
  cosineSimilarity [3; 4]%float [4; 3]%float = Returns (dec 96 100)
  /\ cosineSimilarity [4; 3]%float [3; 4]%float = Returns (dec 96 100)
  /\ cosineSimilarity [3; 4]%float [0; (-0)]%float = Returns 0%float.
Proof. repeat split; vm_compute; reflexivity. Qed.

(** Beyond rounding, overflow and underflow: the squares of [1e200]
    overflow and the similarity of [[1e200]] with itself is
    [Infinity / Infinity], NaN; the squares of [1e-200] underflow, the
    norm computed for [[1e-200]] is 0, and its similarity with itself is
    0, not 1. *)
Example cosineSimilarity_overflow_and_underflow :
  (exists v, cosineSimilarity [Inputs.huge] [Inputs.huge] = Returns v
             /\ is_nan v = true)
  /\ cosineSimilarity [Inputs.tiny] [Inputs.tiny] = Returns 0%float
  /\ eqb Inputs.tiny zero = false.
Proof.
  split; [ eexists; split; vm_compute; reflexivity | ].
  split; vm_compute; reflexivity.
Qed.

End CosineSimilarity.

(** ** Retrieval *)

Section RetrievalGeneric.
Import VectorStore.
Context {num : Type} `{JsNumber num}.

Lemma mapM_returns {A B : Type} (f : A -> Outcome B) (l : list A) :
  forall ys, mapM f l = Returns ys -> Forall2 (fun x y => f x = Returns y) l ys.
Proof.
  induction l as [| x l IH]; simpl; intros ys Hm.
  - injection Hm as <-. constructor.
  - destruct (f x) as [y | e] eqn:Hx; [ | discriminate ].
    destruct (mapM f l) as [ys' | e]; [ | discriminate ].
    injection Hm as <-. constructor; auto.
Qed.

Lemma nonNull_In {A : Type} (x : A) (l : list (option A)) :
  In x (nonNull l) <-> In (Some x) l.
Proof.
  induction l as [| [y |] l IH]; simpl.
  - tauto.
  - rewrite IH. split; intros [E | Hin]; auto; left; congruence.
  - rewrite IH. split; [ auto | intros [E | Hin]; [ discriminate | assumption ] ].
Qed.

Lemma Forall2_In_r {A B : Type} (P : A -> B -> Prop) (l : list A) (l' : list B) :
  Forall2 P l l' -> forall y, In y l' -> exists x, In x l /\ P x y.
Proof.
  induction 1 as [| x y l l' Hxy _ IH]; simpl; intros z Hz; [ contradiction | ].
  destruct Hz as [<- | Hz].
  - exists x. auto.
  - destruct (IH z Hz) as (x' & Hin & Hp). exists x'. auto.
Qed.

Lemma Forall2_In_l {A B : Type} (P : A -> B -> Prop) (l : list A) (l' : list B) :
  Forall2 P l l' -> forall x, In x l -> exists y, In y l' /\ P x y.
Proof.
  induction 1 as [| x y l l' Hxy _ IH]; simpl; intros z Hz; [ contradiction | ].
  destruct Hz as [<- | Hz].
  - exists y. auto.
  - destruct (IH z Hz) as (y' & Hin & Hp). exists y'. auto.
Qed.

Lemma insertByScore_perm (x : ScoredChunk num) (l : list (ScoredChunk num)) :
  Permutation (insertByScore x l) (x :: l).
Proof.
  induction l as [| y l IH]; simpl; [ reflexivity | ].
  destruct (ltb (sc_score x) (sc_score y)); [ | reflexivity ].
  rewrite IH. apply perm_swap.
Qed.

Lemma stableSortByScore_perm (l : list (ScoredChunk num)) :
  Permutation (stableSortByScore l) l.
Proof.
  unfold stableSortByScore. induction l as [| x l IH]; simpl; [ reflexivity | ].
  rewrite insertByScore_perm. now constructor.
Qed.

(** Whatever the engine does with NaN scores, sorting rearranges. *)
Lemma sortByScore_perm (env : Env num) (l : list (ScoredChunk num)) :
  Permutation (sortByScore env l) l.
Proof.
  unfold sortByScore. destruct (existsb _ l).
  - apply sortInconsistent_permutes.
  - apply stableSortByScore_perm.
Qed.

(** Without a NaN score the engine has no say. *)
Lemma sortByScore_numbers (env : Env num) (l : list (ScoredChunk num)) :
  scoresAreNumbers l = true -> sortByScore env l = stableSortByScore l.
Proof.
  unfold scoresAreNumbers, sortByScore.
  destruct (existsb _ l); [ discriminate | reflexivity ].
Qed.

Lemma scoresAreNumbers_Forall (l : list (ScoredChunk num)) :
  scoresAreNumbers l = true <-> Forall (fun d => is_nan (sc_score d) = false) l.
Proof.
  unfold scoresAreNumbers. rewrite negb_true_iff.
  induction l as [| x l IH]; cbn [existsb].
  - split; [ constructor | reflexivity ].
  - rewrite orb_false_iff, IH. split.
    + intros [Hx Hl]. now constructor.
    + intros Hall. inversion Hall. auto.
Qed.

Lemma In_firstn {A : Type} (x : A) (k : nat) :
  forall l, In x (firstn k l) -> In x l.
Proof.
  induction k as [| k IH]; intros [| y l]; simpl; try tauto.
  intros [E | Hin]; auto.
Qed.

(** Rows after the first [n] that pass the filter are never reached. *)
Lemma firstn_filter_app {A : Type} (p : A -> bool) (n : nat) (l extra : list A) :
  n <= List.length (filter p l) ->
  firstn n (filter p (l ++ extra)) = firstn n (filter p l).
Proof.
  intros Hn. rewrite filter_app, firstn_app.
  replace (n - List.length (filter p l)) with 0 by lia.
  simpl. apply app_nil_r.
Qed.

Lemma retrieveDocuments_ignores_rows_past_100
      (env : Env num) (query : string) (options : RetrieveOptions)
      (extra : list (Chunk num)) :
  100 <= List.length (filter (fun c => whereClause options (chunk_document c))
                             (chunkTable env)) ->
  retrieveDocuments (withExtraRows env extra) query options
  = retrieveDocuments env query options.
Proof.
  intros Hfull. unfold retrieveDocuments, findMany, withExtraRows, sortByScore.
  cbn [generateEmbedding chunkTable databaseUp engine].
  now rewrite firstn_filter_app.
Qed.

(** The shape of a successful call. *)
Lemma retrieveDocuments_returns (env : Env num) (query : string)
      (options : RetrieveOptions) (docs : list (ScoredChunk num)) :
  retrieveDocuments env query options = Returns docs ->
  exists queryEmbedding scored,
    generateEmbedding env query = Returns queryEmbedding
    /\ Forall2 (fun c r => scoreChunk queryEmbedding c = Returns r)
               (firstn 100 (filter (fun c => whereClause options (chunk_document c))
                                   (chunkTable env)))
               scored
    /\ docs = firstn (match opt_topK options with Some k => k | None => 5 end)
                     (sortByScore env (nonNull scored)).
Proof.
  unfold retrieveDocuments, findMany, try_catch.
  destruct (generateEmbedding env query) as [q | e]; [ | discriminate ].
  destruct (databaseUp env); [ | discriminate ].
  destruct (mapM (scoreChunk q) _) as [scored | e] eqn:Hm; [ | discriminate ].
  intros Hd. injection Hd as <-.
  exists q, scored. repeat split.
  - now apply mapM_returns.
  - unfold Js.slice. now rewrite Nat.sub_0_r.
Qed.

(** What a sorted list leaves out of its first [k] elements comes after
    what it keeps. *)
Lemma sorted_cut {A : Type} (R : A -> A -> Prop) (k : nat) :
  forall l : list A,
    StronglySorted R l ->
    StronglySorted R (firstn k l)
    /\ forall a b, In a (firstn k l) -> In b (skipn k l) -> R a b.
Proof.
  induction k as [| k IH]; intros l Hsorted.
  - simpl. split; [ constructor | intros a b [] ].
  - destruct l as [| x l]; [ simpl; split; [ constructor | intros a b [] ] | ].
    inversion Hsorted as [| ? ? Hl Hx]; subst.
    destruct (IH l Hl) as [Hfirst Hcut]. cbn [firstn skipn]. split.
    + constructor; [ exact Hfirst | ].
      rewrite Forall_forall in *. intros a Ha. apply Hx.
      eapply In_firstn; exact Ha.
    + intros a b [<- | Ha] Hb.
      * rewrite Forall_forall in Hx. apply Hx.
        rewrite <- (firstn_skipn k l). apply in_or_app. now right.
      * now apply Hcut.
Qed.

Context {O : NumberOrder num}.

Lemma insertByScore_descending (x : ScoredChunk num) (l : list (ScoredChunk num)) :
  is_nan (sc_score x) = false ->
  Forall (fun d => is_nan (sc_score d) = false) l ->
  descending l -> descending (insertByScore x l).
Proof.
  unfold descending. intros Hx.
  induction l as [| y l IH]; simpl; intros Hnum Hs.
  - repeat constructor.
  - apply StronglySorted_inv in Hs as [Hs Hy].
    inversion Hnum as [| ? ? Hynum Hlnum]; subst.
    destruct (ltb (sc_score x) (sc_score y)) eqn:E.
    + constructor; [ auto | ].
      rewrite Forall_forall. intros z Hz.
      apply (Permutation_in _ (insertByScore_perm x l)) in Hz.
      destruct Hz as [<- | Hz]; [ now apply leb_of_ltb | ].
      rewrite Forall_forall in Hy. auto.
    + assert (Hyx : leb (sc_score y) (sc_score x) = true)
        by now apply leb_of_not_ltb.
      constructor.
      * now constructor.
      * constructor; [ assumption | ].
        rewrite Forall_forall in *. intros z Hz.
        apply leb_transitive with (sc_score y); auto.
Qed.

(** Where every score is a number, the sort leaves the scores in
    decreasing order. *)
Lemma stableSortByScore_descending (l : list (ScoredChunk num)) :
  scoresAreNumbers l = true -> descending (stableSortByScore l).
Proof.
  rewrite scoresAreNumbers_Forall. unfold stableSortByScore.
  induction l as [| x l IH]; simpl; intros Hnum.
  - constructor.
  - inversion Hnum as [| ? ? Hx Hl]; subst.
    apply insertByScore_descending; auto.
    rewrite Forall_forall in *. intros z Hz. apply Hl.
    apply (Permutation_in _ (stableSortByScore_perm l)). exact Hz.
Qed.
End RetrievalGeneric.

Section RetrievalWindow.
Import VectorStore.

(** C10, amended: a successful [retrieveDocuments] scores the candidate
    window, the first 100 rows of the store that pass the hard filters,
    and nothing else.  It returns [min(topK, n)] documents, [n] being the
    number of chunks of the window that have an embedding: the documents
    returned and the ones left out are together the scored chunks of the
    window, each once.  Provided no score is NaN, the documents come by
    decreasing score and no document left out scores higher than a
    returned one.  Once 100 rows pass the filters, no row after them,
    whatever its similarity, changes the result. *)
Theorem retrieveDocuments_best_of_first_100 :
  forall (num : Type) (N : JsNumber num) (O : NumberOrder num)
         (env : Env num) (query : string) (options : RetrieveOptions)
         (docs : list (ScoredChunk num)),
    retrieveDocuments env query options = Returns docs ->
    exists queryEmbedding scored,
      generateEmbedding env query = Returns queryEmbedding
      /\ List.length (candidateWindow env options) <= 100
      /\ Forall2 (fun c r => scoreChunk queryEmbedding c = Returns r)
                 (candidateWindow env options) scored
      /\ List.length docs
         = Nat.min (match opt_topK options with Some k => k | None => 5 end)
                   (List.length (nonNull scored))
      /\ (exists rest,
             Permutation (docs ++ rest) (nonNull scored)
             /\ (scoresAreNumbers (nonNull scored) = true ->
                 descending docs
                 /\ forall d d', In d docs -> In d' rest ->
                                 leb (sc_score d') (sc_score d) = true))
      /\ (100 <= List.length
                   (filter (fun c => whereClause options (chunk_document c))
                           (chunkTable env)) ->
          forall extra,
            retrieveDocuments (withExtraRows env extra) query options = Returns docs).
Proof.
  intros num N O env query options docs Hret.
  destruct (retrieveDocuments_returns _ _ _ Hret) as (q & scored & Hq & Hscored & ->).
  fold (candidateWindow env options) in Hscored.
  exists q, scored. split; [ assumption | ].
  split; [ apply firstn_le_length | ].
  split; [ assumption | ].
  set (topK := match opt_topK options with Some k => k | None => 5 end).
  split; [ | split ].
  - rewrite length_firstn.
    now rewrite (Permutation_length (sortByScore_perm env (nonNull scored))).
  - exists (skipn topK (sortByScore env (nonNull scored))).
    split; [ rewrite firstn_skipn; apply sortByScore_perm | ].
    intros Hnum. rewrite (sortByScore_numbers env _ Hnum).
    destruct (sorted_cut topK (stableSortByScore_descending _ Hnum)) as [Hs Hcut].
    split; [ exact Hs | ].
    intros d d' Hd Hd'. exact (Hcut d d' Hd Hd').
  - intros Hfull extra.
    now rewrite retrieveDocuments_ignores_rows_past_100.
Qed.

Lemma retrieveDocuments_best_of_first_100_witness :
  exists docs,
    retrieveDocuments Inputs.rankedStore "x" Inputs.topThree = Returns docs
    /\ map (@sc_id float) docs = ["same"; "again"; "near"]%string
    /\ exists queryEmbedding scored,
      generateEmbedding Inputs.rankedStore "x" = Returns queryEmbedding
      /\ List.length (candidateWindow Inputs.rankedStore Inputs.topThree) <= 100
      /\ Forall2 (fun c r => scoreChunk queryEmbedding c = Returns r)
                 (candidateWindow Inputs.rankedStore Inputs.topThree) scored
      /\ List.length docs = Nat.min 3 (List.length (nonNull scored))
      /\ (exists rest,
             Permutation (docs ++ rest) (nonNull scored)
             /\ (scoresAreNumbers (nonNull scored) = true ->
                 descending docs
                 /\ forall d d', In d docs -> In d' rest ->
                                 leb (sc_score d') (sc_score d) = true))
      /\ (100 <= List.length
                   (filter (fun c => whereClause Inputs.topThree (chunk_document c))
                           (chunkTable Inputs.rankedStore)) ->
          forall extra,
            retrieveDocuments (withExtraRows Inputs.rankedStore extra) "x"
                              Inputs.topThree = Returns docs).
Proof.
  eexists. split; [ vm_compute; reflexivity | ].
  split; [ reflexivity | ].
  apply (@retrieveDocuments_best_of_first_100 float double_number double_order
           Inputs.rankedStore "x" Inputs.topThree).
  vm_compute. reflexivity.
Defined.

(** On that store every score is a number, so the ranking applies: the
    three documents returned score 1, 1 and [1 / sqrt 2], the two left
    out 0 and -1. *)
Example rankedStore_scores :
  exists scored,
    mapM (scoreChunk [1; 0]%float)
         (candidateWindow Inputs.rankedStore Inputs.topThree) = Returns scored
    /\ scoresAreNumbers (nonNull scored) = true
    /\ map (@sc_id float) (sortByScore Inputs.rankedStore (nonNull scored))
       = ["same"; "again"; "near"; "across"; "opposite"]%string
    /\ map (@sc_score float) (sortByScore Inputs.rankedStore (nonNull scored))
       = [1; 1; div 1 (sqrt 2); 0; -1]%float.
Proof.
  eexists. split; [ vm_compute; reflexivity | ].
  repeat split; vm_compute; reflexivity.
Qed.

(** C10 as stated fails when a similarity is NaN.  The query and the
    first chunk of the store are both [[1e200]]: the squares overflow and
    the score is [Infinity / Infinity].  The second chunk scores 0.  With
    [topK = 1] one of the two is returned, and whichever the engine puts
    first, the one left out does not score [<=] the returned one: the
    result is not the best of the window. *)
Lemma retrieveDocuments_nan_score_is_not_ranked :
  ~ (exists e : Engine float,
        forall docs,
          retrieveDocuments (Inputs.overflowingStore e) "x" Inputs.firstOnly
          = Returns docs ->
          exists queryEmbedding scored,
            generateEmbedding (Inputs.overflowingStore e) "x" = Returns queryEmbedding
            /\ Forall2 (fun c r => scoreChunk queryEmbedding c = Returns r)
                       (candidateWindow (Inputs.overflowingStore e) Inputs.firstOnly)
                       scored
            /\ exists rest,
                Permutation (docs ++ rest) (nonNull scored)
                /\ forall d d', In d docs -> In d' rest ->
                                leb (sc_score d') (sc_score d) = true).
Proof.
  intros [e Hclaim].
  destruct (retrieveDocuments (Inputs.overflowingStore e) "x" Inputs.firstOnly)
    as [docs | message] eqn:Hrun; [ | vm_compute in Hrun; discriminate ].
  destruct (retrieveDocuments_returns _ _ _ Hrun) as (q0 & scored0 & Hq0 & Hs0 & Hdocs).
  destruct (Hclaim docs eq_refl) as (q & scored & Hq & Hscored & rest & Hperm & Hbest).
  cbn [generateEmbedding Inputs.overflowingStore] in Hq, Hq0.
  injection Hq as <-. injection Hq0 as <-.
  assert (Hsame : forall l,
             Forall2 (fun c r => scoreChunk [Inputs.huge] c = Returns r)
                     (candidateWindow (Inputs.overflowingStore e) Inputs.firstOnly) l ->
             nonNull l
             = [ {| sc_id := "huge"; sc_content := "text of huge";
                    sc_score := PrimFloat.nan;
                    sc_metadata := {| documentId := "doc1"; documentTitle := "Algebra";
                                      md_subject := Some "math"%string;
                                      md_gradeLevel := Some 9%Z;
                                      md_fileUrl := "/algebra.pdf";
                                      md_chunkIndex := 0 |} |};
                 {| sc_id := "unit"; sc_content := "text of unit";
                    sc_score := 0%float;
                    sc_metadata := {| documentId := "doc1"; documentTitle := "Algebra";
                                      md_subject := Some "math"%string;
                                      md_gradeLevel := Some 9%Z;
                                      md_fileUrl := "/algebra.pdf";
                                      md_chunkIndex := 0 |} |} ]).
  { intros l Hl.
    change (candidateWindow (Inputs.overflowingStore e) Inputs.firstOnly)
      with [Inputs.chunkOf "huge" (Some [Inputs.huge]);
            Inputs.chunkOf "unit" (Some [1%float])] in Hl.
    inversion Hl as [| c1 r1 cs rs H1 Hl1]; subst.
    inversion Hl1 as [| c2 r2 cs' rs' H2 Hl2]; subst.
    inversion Hl2; subst.
    vm_compute in H1. vm_compute in H2.
    injection H1 as <-. injection H2 as <-. reflexivity. }
  fold (candidateWindow (Inputs.overflowingStore e) Inputs.firstOnly) in Hs0.
  rewrite (Hsame _ Hs0) in Hdocs. rewrite (Hsame _ Hscored) in Hperm.
  match type of Hdocs with
  | _ = firstn _ (sortByScore _ ?l) =>
      pose proof (Permutation_sym (sortByScore_perm (Inputs.overflowingStore e) l))
        as Hsorted
  end.
  apply Permutation_length_2_inv in Hsorted.
  cbn [opt_topK Inputs.firstOnly] in Hdocs.
  destruct Hsorted as [Hsorted | Hsorted]; rewrite Hsorted in Hdocs;
    cbn [firstn] in Hdocs; subst docs; cbn [app] in Hperm.
  - apply Permutation_cons_inv in Hperm.
    apply Permutation_sym, Permutation_length_1_inv in Hperm. subst rest.
    specialize (Hbest _ _ (or_introl eq_refl) (or_introl eq_refl)).
    vm_compute in Hbest. discriminate.
  - apply Permutation_sym in Hperm.
    rewrite perm_swap in Hperm. apply Permutation_cons_inv in Hperm.
    apply Permutation_length_1_inv in Hperm. subst rest.
    specialize (Hbest _ _ (or_introl eq_refl) (or_introl eq_refl)).
    vm_compute in Hbest. discriminate.
Qed.

(** The call does return on that store, and the score it reports is NaN. *)
Example retrieveDocuments_returns_a_nan_score :
  exists d,
    retrieveDocuments (Inputs.overflowingStore Inputs.keepOrder) "x" Inputs.firstOnly
    = Returns [d]
    /\ sc_id d = "huge"%string
    /\ is_nan (sc_score d) = true.
Proof.
  eexists. split; [ vm_compute; reflexivity | ].
  split; reflexivity.
Qed.

(** The window at work on doubles: the store holds a hundred chunks
    orthogonal to the query and, after them, the chunk that equals the
    query.  The five documents returned all score 0; the chunk of
    similarity 1 is not among them. *)
Example retrieveDocuments_omits_the_best_chunk :
  exists docs,
    retrieveDocuments Inputs.fullStore "x" Inputs.studentOptions = Returns docs
    /\ List.length docs = 5%nat
    /\ forallb (fun d => PrimFloat.eqb (sc_score d) 0%float
                         && String.eqb (sc_id d) "far") docs = true
    /\ cosineSimilarity [1; 0]%float [1; 0]%float = Returns 1%float.
Proof.
  eexists. split; [ vm_compute; reflexivity | ].
  split; [ reflexivity | ]. split; vm_compute; reflexivity.
Qed.
End RetrievalWindow.

(** ** The chunker *)

Section Chunker.
Import DocumentProcessing.

Lemma forLoop_ignores_chunkOverlap (title : string) (size o1 o2 : nat)
      (sentences : list string) (steps : nat) :
  forall i st,
    forLoop {| chunkSize := size; chunkOverlap := o1; documentTitle := title |}
            sentences i steps st
    = forLoop {| chunkSize := size; chunkOverlap := o2; documentTitle := title |}
              sentences i steps st.
Proof.
  induction steps as [| steps IH]; intros i st; simpl; [ reflexivity | ].
  rewrite IH. reflexivity.
Qed.

(** The overlap parameter has no effect on the chunks. *)
Lemma chunkDocument_ignores_chunkOverlap (text title : string) (size o1 o2 : nat) :
  chunkDocument text {| chunkSize := size; chunkOverlap := o1; documentTitle := title |}
  = chunkDocument text {| chunkSize := size; chunkOverlap := o2; documentTitle := title |}.
Proof.
  unfold chunkDocument.
  rewrite (forLoop_ignores_chunkOverlap title size o1 o2). reflexivity.
Qed.

(** C5 at a failing input: a text of four sentences of 400 characters,
    chunked with the ingestion parameters (size bound 1000, overlap 200).
    No sentence is oversized, yet the second and third chunks hold 1203
    and 1204 characters: a chunk that is started from the two preceding
    sentences plus the current one is never measured against the bound.
    The second chunk repeats the first one whole (801 characters, not
    200), and the result does not depend on the overlap parameter. *)
Example chunkDocument_exceeds_size_bound :
  forallb (fun sentence => (String.length (Js.trim sentence) <=? 400)%nat)
          (splitSentences Inputs.fourSentences) = true
  /\ map (fun c => String.length (content c))
         (chunkDocument Inputs.fourSentences Inputs.ingestionOptions)
     = [801; 1203; 1204]%nat
  /\ chunkDocument Inputs.fourSentences Inputs.ingestionOptions
     = chunkDocument Inputs.fourSentences
         {| chunkSize := 1000; chunkOverlap := 0; documentTitle := "Algebra" |}.
Proof.
  split; [ vm_compute; reflexivity | ].
  split; [ vm_compute; reflexivity | apply chunkDocument_ignores_chunkOverlap ].
Qed.

(** The same on a text short enough to trace by hand, with size bound 10. *)
Example chunkDocument_small_trace :
  splitSentences "Aaaa. Bbbb. Cccc. Dddd." = ["Aaaa."; " Bbbb."; " Cccc."; " Dddd."]%string
  /\ map content
         (chunkDocument "Aaaa. Bbbb. Cccc. Dddd."
            {| chunkSize := 10; chunkOverlap := 2; documentTitle := "t" |})
     = ["Aaaa."; "Aaaa. Bbbb."; "Aaaa.  Bbbb. Cccc."; " Bbbb.  Cccc. Dddd."]%string.
Proof. split; vm_compute; reflexivity. Qed.

(** A text with nothing in it yields no chunk. *)
Example chunkDocument_empty_text :
  chunkDocument "" Inputs.ingestionOptions = [].
Proof. vm_compute. reflexivity. Qed.
End Chunker.

(** ** Confidence *)

Section Confidence.
Import VectorStore AnswerGeneration.

(** C8 at a failing input: the only chunk of the store points away from
    the query, so retrieval returns it with similarity -1, and the
    confidence computed from it is [min (-1 * 1.2) 1 = -1.2], below 0. *)
Example generateAnswer_negative_confidence :
  exists docs result,
    retrieveDocuments Inputs.oppositeStore "x" Inputs.studentOptions = Returns docs
    /\ map (@sc_score float) docs = [(-1)%float]
    /\ generateAnswer (Inputs.constantModel "An answer.") "x" docs "research" []
       = Returns result
    /\ PrimFloat.ltb (confidence result) (-1)%float = true
    /\ PrimFloat.leb 0%float (confidence result) = false.
Proof.
  eexists. eexists.
  split; [ vm_compute; reflexivity | ].
  split; [ reflexivity | ].
  split; [ vm_compute; reflexivity | ].
  split; vm_compute; reflexivity.
Qed.

Lemma generateAnswer_confidence {num : Type} `{JsNumber num}
      (env : Env num) (query mode : string) (docs : list (ScoredChunk num))
      (history : list (BaseMessage num)) (result : GenerationResult num) :
  generateAnswer env query docs mode history = Returns result ->
  confidence result = confidenceOf docs.
Proof.
  unfold generateAnswer, try_catch.
  destruct (chainInvoke env mode query docs _) as [a | e]; [ | discriminate ].
  intros Hr. injection Hr as <-. reflexivity.
Qed.

Local Open Scope R_scope.

Lemma sumScores_from (docs : list (ScoredChunk R)) :
  forall acc,
    fold_left (fun sum doc => add sum (sc_score doc)) docs acc
    = acc + fold_right (fun doc sum => sc_score doc + sum) 0 docs.
Proof.
  induction docs as [| d docs IH]; intros acc; simpl.
  - lra.
  - rewrite IH. lra.
Qed.

Lemma sumScores_nonneg (docs : list (ScoredChunk R)) :
  Forall (fun d => 0 <= sc_score d) docs -> 0 <= sumScores docs.
Proof.
  unfold sumScores, zero. cbn [of_Z real_number]. rewrite sumScores_from.
  induction 1 as [| d docs Hd _ IH]; simpl in *; lra.
Qed.

(** What does hold of the confidence, in exact arithmetic: it never
    exceeds 1, and it is not negative when no retrieved score is. *)
Lemma confidence_real_bounds (env : Env R) (query mode : string)
      (docs : list (ScoredChunk R)) (history : list (BaseMessage R))
      (result : GenerationResult R) :
  generateAnswer env query docs mode history = Returns result ->
  confidence result <= 1
  /\ (Forall (fun d => 0 <= sc_score d) docs -> 0 <= confidence result).
Proof.
  intros Hr. rewrite (generateAnswer_confidence _ _ _ _ _ Hr).
  unfold confidenceOf, averageRelevance, dec, one, of_nat.
  cbn [num_min mul div of_Z real_number].
  split; [ apply Rmin_r | ].
  intros Hpos. apply Rmin_glb; [ | lra ].
  apply sumScores_nonneg in Hpos.
  assert (Hn : 0 < IZR (Z.of_nat (or_one (List.length docs)))).
  { apply IZR_lt. destruct docs; simpl; lia. }
  apply Rmult_le_pos; [ | lra ].
  apply Rmult_le_pos; [ assumption | ].
  apply Rlt_le, Rinv_0_lt_compat, Hn.
Qed.

Lemma confidence_real_bounds_witness :
  exists result,
    generateAnswer (Inputs.constantModel "An answer.") "x" [] "research" []
    = Returns result
    /\ confidence result <= 1
    /\ (Forall (fun d : ScoredChunk R => 0 <= sc_score d) [] -> 0 <= confidence result).
Proof.
  eexists. split; [ reflexivity | ].
  apply (confidence_real_bounds (Inputs.constantModel "An answer.")
                                "x" "research" [] []).
  reflexivity.
Defined.
End Confidence.

(** ** The fallback evaluation *)

Section Fallback.
Import VectorStore SelfEvaluation.

Lemma evaluateAnswer_falls_back {num : Type} `{JsNumber num}
      (env : Env num) (query answer : string) (docs : list (ScoredChunk num))
      (confidence : num) (e : string) :
  llmEvaluate env query answer docs confidence = Throws e ->
  evaluateAnswer env query answer docs confidence
  = heuristicEvaluation query answer docs confidence.
Proof. unfold evaluateAnswer. now intros ->. Qed.

(** C6 as stated fails: the evaluator's model call fails, the answer has
    600 words, its one keyword is found, no document was retrieved and the
    confidence is 0.  The specified score is
    [(0.5 - 0.1 + 0.15 - 0.2) * 0.7 = 0.245]; the program does not
    penalise a long answer and returns
    [(0.5 + 0.15 - 0.2) * 0.7 = 0.315]. *)
Lemma heuristic_long_answer_not_penalised :
  List.length (Js.split_ws Inputs.longAnswer) = 600%nat
  /\ PrimFloat.ltb (specifiedHeuristicScore "word" Inputs.longAnswer [] 0%float)
                   0.25%float = true
  /\ PrimFloat.ltb 0.3125%float
                   (score (evaluateAnswer Inputs.failingEvaluator
                                          "word" Inputs.longAnswer [] 0%float)) = true.
Proof. repeat split; vm_compute; reflexivity. Qed.

(** At exactly 60% of the keywords (three of five) the program subtracts
    0.1, where a bound of "at least 60%" would add 0.15. *)
Example heuristic_coverage_of_60_percent :
  keywordsAddressed "alpha bravo charlie delta echos" "alpha bravo charlie" = 3%nat
  /\ List.length (queryKeywords "alpha bravo charlie delta echos") = 5%nat
  /\ gtb (keywordCoverage (num := float)
            "alpha bravo charlie delta echos" "alpha bravo charlie")
         (dec 6 10) = false
  /\ PrimFloat.ltb
       (score (heuristicEvaluation "alpha bravo charlie delta echos"
                                   "alpha bravo charlie" [] 0%float))
       (specifiedHeuristicScore "alpha bravo charlie delta echos"
                                "alpha bravo charlie" [] 0%float) = true.
Proof. repeat split; vm_compute; reflexivity. Qed.

Local Open Scope R_scope.

Lemma clamp_bounds (x : R) : 0 <= Rmax 0 (Rmin 1 x) <= 1.
Proof.
  split; [ apply Rmax_l | ].
  apply Rmax_lub; [ lra | apply Rmin_l ].
Qed.

(** C6, amended, in exact arithmetic: whenever the evaluator's model call
    fails or its reply does not parse, the score returned is
    [clamp ((0.5 + l + k + d) * 0.7 + confidence * 0.3)], in [0, 1], where
    - [l] is +0.1 for a word count strictly between 30 and 500, -0.1 below
      30, and 0 from 500 on;
    - [k] is +0.15 when strictly more than 60% of the query keywords (words
      longer than 3 characters) occur in the answer, and -0.1 otherwise;
    - [d] is -0.2 without documents, and otherwise +0.15 for an average
      retrieval score above 0.7, -0.15 below 0.4, and 0 in between. *)
Theorem fallback_score_exact_arithmetic :
  forall (env : Env R) (query answer : string) (docs : list (ScoredChunk R))
         (confidence : R) (e : string),
    llmEvaluate env query answer docs confidence = Throws e ->
    let words := List.length (Js.split_ws answer) in
    let coverage := keywordCoverage query answer in
    let average := sumScores docs / INR (List.length docs) in
    exists l k d : R,
      score (evaluateAnswer env query answer docs confidence)
      = Rmax 0 (Rmin 1 ((5 / 10 + l + k + d) * (7 / 10) + confidence * (3 / 10)))
      /\ 0 <= score (evaluateAnswer env query answer docs confidence) <= 1
      /\ ((30 < words < 500)%nat -> l = 1 / 10)
      /\ ((words < 30)%nat -> l = - 1 / 10)
      /\ ((500 <= words)%nat -> l = 0)
      /\ (6 / 10 < coverage -> k = 15 / 100)
      /\ (coverage <= 6 / 10 -> k = - 1 / 10)
      /\ (docs = [] -> d = - 2 / 10)
      /\ (docs <> [] -> 7 / 10 < average -> d = 15 / 100)
      /\ (docs <> [] -> average < 4 / 10 -> d = - 15 / 100)
      /\ (docs <> [] -> 4 / 10 <= average <= 7 / 10 -> d = 0).
Proof.
  intros env query answer docs confidence e Hfail words coverage average.
  rewrite (evaluateAnswer_falls_back _ _ _ _ _ Hfail).
  unfold heuristicEvaluation. cbn [score].
  set (l := if ((30 <? words) && (words <? 500))%nat then 1 / 10
            else if (words <? 30)%nat then - 1 / 10 else 0).
  set (k := if Real.ltb (6 / 10) coverage then 15 / 100 else - 1 / 10).
  set (d := match docs with
            | [] => - 2 / 10
            | _ :: _ => if Real.ltb (7 / 10) average then 15 / 100
                        else if Real.ltb average (4 / 10) then - 15 / 100 else 0
            end).
  assert (Hscore :
            t_score (checkDocuments docs
                       (checkKeywords query answer
                          (checkLength answer
                             {| t_score := dec 5 10; t_strengths := [];
                                t_improvements := [] |})))
            = 5 / 10 + l + k + d).
  { unfold checkDocuments, checkKeywords, checkLength, gtb, dec.
    cbn [ltb add sub div of_Z real_number].
    fold words. fold coverage.
    assert (Havg : forall x ds, sumScores (x :: ds) / of_nat (List.length (x :: ds))
                                = sumScores (x :: ds) / INR (List.length (x :: ds))).
    { intros x ds. unfold of_nat. cbn [of_Z real_number]. now rewrite <- INR_IZR_INZ. }
    subst l k d average.
    destruct ((30 <? words) && (words <? 500))%nat;
      [ | destruct (words <? 30)%nat ];
      cbn [t_score]; fold coverage;
      (destruct (Real.ltb (6 / 10) coverage); cbn [t_score];
       (destruct docs as [| x ds];
        [ cbn [t_score]; lra
        | cbn [div real_number]; rewrite Havg;
          destruct (Real.ltb (7 / 10) (sumScores (x :: ds) / INR (List.length (x :: ds))));
          [ cbn [t_score]; lra | ];
          destruct (Real.ltb (sumScores (x :: ds) / INR (List.length (x :: ds))) (4 / 10));
          cbn [t_score]; lra ])). }
  exists l, k, d.
  split.
  { unfold zero, one, dec. cbn [num_max num_min add mul div of_Z real_number].
    f_equal. f_equal. f_equal. f_equal. exact Hscore. }
  split; [ unfold zero, one; cbn [num_max num_min of_Z real_number]; apply clamp_bounds | ].
  subst l k d.
  repeat split.
  - intros [H1 H2]. apply Nat.ltb_lt in H1, H2. now rewrite H1, H2.
  - intros H1. pose proof H1 as H2. apply Nat.ltb_lt in H2.
    assert (H3 : (30 <? words)%nat = false) by (apply Nat.ltb_ge; lia).
    now rewrite H3, H2.
  - intros H1.
    assert (H2 : (words <? 500)%nat = false) by (apply Nat.ltb_ge; lia).
    assert (H3 : (words <? 30)%nat = false) by (apply Nat.ltb_ge; lia).
    now rewrite H2, H3, andb_false_r.
  - intros H1. apply real_ltb_true in H1. now rewrite H1.
  - intros H1. apply real_ltb_false in H1. now rewrite H1.
  - now intros ->.
  - intros Hne H1. destruct docs; [ congruence | ].
    apply real_ltb_true in H1. now rewrite H1.
  - intros Hne H1. destruct docs; [ congruence | ].
    assert (H2 : Real.ltb (7 / 10) average = false) by (apply real_ltb_false; lra).
    apply real_ltb_true in H1. now rewrite H2, H1.
  - intros Hne [H1 H2]. destruct docs; [ congruence | ].
    apply real_ltb_false in H1, H2. now rewrite H2, H1.
Qed.

Lemma fallback_score_exact_arithmetic_witness :
  llmEvaluate (num := R) Inputs.failingEvaluator "word" "word" [] 0
  = Throws "LLM unavailable"
  /\ score (evaluateAnswer Inputs.failingEvaluator "word" "word" [] 0)
     = Rmax 0 (Rmin 1 ((5 / 10 + - 1 / 10 + 15 / 100 + - 2 / 10) * (7 / 10)
                       + 0 * (3 / 10))).
Proof.
  split; [ reflexivity | ].
  destruct (fallback_score_exact_arithmetic
              Inputs.failingEvaluator "word" "word" [] 0 (e := "LLM unavailable") eq_refl)
    as (l & k & d & Hs & _ & _ & Hl & _ & Hk & _ & Hd & _).
  rewrite Hs, Hl, Hk, Hd.
  - reflexivity.
  - reflexivity.
  - unfold keywordCoverage.
    replace (keywordsAddressed "word" "word") with 1%nat by (vm_compute; reflexivity).
    replace (List.length (queryKeywords "word")) with 1%nat by (vm_compute; reflexivity).
    unfold of_nat, or_one. cbn [div of_Z real_number Z.of_nat Pos.of_succ_nat]. lra.
  - vm_compute. lia.
Defined.
End Fallback.

(** ** The refinement store *)

Section RefinementStore.
Import QueryRefinement.
Context {num : Type} `{JsNumber num}.

Lemma refineQuery_first_attempt (env : Env num) (table : Table num)
      (query mode : string) (subject : option string) :
  refineQuery env table query mode subject 0 = (query, table).
Proof. reflexivity. Qed.

Lemma refineQuery_failed_rewrite (env : Env num) (table : Table num)
      (query mode : string) (subject : option string) (n : nat)
      (history : Table num) (e : string) :
  findHistorical env table mode subject = Returns history ->
  llmRewrite env
    {| rq_mode := mode;
       rq_subject := match subject with
                     | Some s => if Js.truthy s then s else "general"
                     | None => "general"
                     end;
       rq_attemptNumber := n;
       rq_originalQuery := query;
       rq_examples := history |} = Throws e ->
  refineQuery env table query mode subject n = (query, table).
Proof.
  intros Hh Hl. unfold refineQuery. destruct (n =? 0)%nat; [ reflexivity | ].
  now rewrite Hh, Hl.
Qed.

Lemma refineQuery_failed_lookup (env : Env num) (table : Table num)
      (query mode : string) (subject : option string) (n : nat) (e : string) :
  findHistorical env table mode subject = Throws e ->
  refineQuery env table query mode subject n = (query, table).
Proof.
  intros Hh. unfold refineQuery. destruct (n =? 0)%nat; [ reflexivity | ].
  now rewrite Hh.
Qed.

(** What [incrementUsage] does to each row. *)
Lemma incrementUsage_rows (env : Env num) (id : nat) (table : Table num) :
  Forall2 (fun r r' =>
             if (ref_id r =? id)%nat then
               usageCount r' = S (usageCount r)
               /\ lastUsed r' = now env
               /\ ref_id r' = ref_id r
               /\ originalQuery r' = originalQuery r
               /\ refinedQuery r' = refinedQuery r
               /\ ref_mode r' = ref_mode r
               /\ ref_subject r' = ref_subject r
               /\ improvementScore r' = improvementScore r
             else r' = r)
          table (incrementUsage env id table).
Proof.
  induction table as [| r table IH]; simpl; constructor; [ | exact IH ].
  destruct (ref_id r =? id)%nat; simpl; tauto.
Qed.
End RefinementStore.

Section RefinementPersistence.
Import QueryRefinement.
Local Open Scope string_scope.

(** C7 as stated fails: on the second pass (attempt 1) the rewrite call
    fails; the original query comes back and the store, empty before, is
    empty afterwards: nothing was inserted and nothing incremented. *)
Lemma refineQuery_failed_rewrite_not_persisted :
  refineQuery Inputs.offlineRewriter [] "solve eq" "math_solver" (Some "math") 1
  = ("solve eq", [])%string.
Proof. vm_compute. reflexivity. Qed.

(** C7, amended: a refine call with attempt number >= 1 whose history
    lookup and rewrite call succeed, and whose store calls succeed,
    returns the trimmed rewrite and persists it: when no row has the same
    original and refined query (compared without regard to case), the same
    mode and, if a subject is given, the same subject, a row with usage
    count 1 and no score is appended; otherwise the usage count of the
    first such row is incremented and the other rows stay as they are.
    (When the rewrite call fails nothing is persisted:
    [refineQuery_failed_rewrite].) *)
Theorem refineQuery_persists_successful_rewrite :
  forall (num : Type) (N : JsNumber num) (env : Env num) (table : Table num)
         (query mode : string) (subject : option string) (n : nat)
         (history : Table num) (content : string),
    n <> 0%nat ->
    findHistorical env table mode subject = Returns history ->
    llmRewrite env
      {| rq_mode := mode;
         rq_subject := match subject with
                       | Some s => if Js.truthy s then s else "general"%string
                       | None => "general"%string
                       end;
         rq_attemptNumber := n;
         rq_originalQuery := query;
         rq_examples := history |} = Returns content ->
    findFirstFails env = false ->
    writeFails env = false ->
    let refined := Js.trim content in
    let table' := snd (refineQuery env table query mode subject n) in
    fst (refineQuery env table query mode subject n) = refined
    /\ ((forall r, In r table -> sameRefinement query refined mode subject r = false) ->
        exists r,
          table' = (table ++ [r])%list
          /\ originalQuery r = query /\ refinedQuery r = refined
          /\ ref_mode r = mode /\ ref_subject r = subject
          /\ usageCount r = 1%nat /\ improvementScore r = None)
    /\ (forall existing,
          find (sameRefinement query refined mode subject) table = Some existing ->
          In existing table
          /\ sameRefinement query refined mode subject existing = true
          /\ Forall2 (fun r r' =>
                        if (ref_id r =? ref_id existing)%nat then
                          usageCount r' = S (usageCount r)
                          /\ lastUsed r' = now env
                          /\ ref_id r' = ref_id r
                          /\ originalQuery r' = originalQuery r
                          /\ refinedQuery r' = refinedQuery r
                          /\ ref_mode r' = ref_mode r
                          /\ ref_subject r' = ref_subject r
                          /\ improvementScore r' = improvementScore r
                        else r' = r)
                     table table').
Proof.
  intros num N env table query mode subject n history content
         Hn Hh Hl Hff Hwf refined table'.
  subst table'. unfold refineQuery.
  destruct (Nat.eqb_spec n 0) as [E | _]; [ contradiction | ].
  rewrite Hh, Hl. cbn [fst snd]. fold refined.
  unfold storeRefinementAttempt. rewrite Hff, Hwf.
  split; [ reflexivity | ]. split.
  - intros Hnone.
    destruct (find (sameRefinement query refined mode subject) table) as [x |] eqn:Hfind.
    + apply find_some in Hfind as [Hin Hsame].
      rewrite (Hnone x Hin) in Hsame. discriminate.
    + eexists. split; [ reflexivity | ]. cbn. tauto.
  - intros existing Hfind. rewrite Hfind.
    pose proof (find_some _ _ Hfind) as [Hin Hsame].
    repeat split; try assumption.
    apply incrementUsage_rows.
Qed.

Lemma refineQuery_persists_successful_rewrite_witness :
  1%nat <> 0%nat
  /\ findHistorical Inputs.workingRewriter [Inputs.learnedRow] "math_solver" (Some "math")
     = Returns []
  /\ refineQuery Inputs.workingRewriter [Inputs.learnedRow]
                 "solve eq" "math_solver" (Some "math") 1
     = ("solve the linear equation"%string,
        [ {| ref_id := 1;
             originalQuery := "Solve EQ";
             refinedQuery := "Solve the linear equation";
             ref_mode := "math_solver";
             ref_subject := Some "math"%string;
             improvementScore := None;
             usageCount := 5;
             lastUsed := 7 |} ])
  /\ Forall2 (fun r r' => usageCount r' = S (usageCount r))
             [Inputs.learnedRow]
             (snd (refineQuery Inputs.workingRewriter [Inputs.learnedRow]
                               "solve eq" "math_solver" (Some "math") 1)).
Proof.
  split; [ discriminate | ].
  split; [ vm_compute; reflexivity | ].
  split; [ vm_compute; reflexivity | ].
  remember (snd (refineQuery Inputs.workingRewriter [Inputs.learnedRow]
                             "solve eq" "math_solver" (Some "math") 1)) as after eqn:Hafter.
  destruct (@refineQuery_persists_successful_rewrite
              float double_number Inputs.workingRewriter [Inputs.learnedRow]
              "solve eq" "math_solver" (Some "math") 1 []
              "  solve the linear equation "
              (Nat.neq_succ_0 0) eq_refl eq_refl eq_refl eq_refl)
    as (_ & _ & Hinc).
  destruct (Hinc Inputs.learnedRow eq_refl) as (_ & _ & Hrows).
  rewrite <- Hafter in Hrows.
  inversion Hrows as [| r r' l l' Hr Hl E1 E2].
  constructor; [ | inversion Hl; constructor ].
  simpl in Hr. tauto.
Defined.
End RefinementPersistence.

(** ** The workflow *)

Section Workflow.
Import VectorStore RagWorkflow.
Context {num : Type} `{JsNumber num}.
Variable svc : Services num.

Lemma selfEvaluationNode_effect (st : RAGState num) :
  let after := applyUpdate st (selfEvaluationNode svc st) in
  refinementAttempts after = refinementAttempts st
  /\ retrievedDocuments after = retrievedDocuments st
  /\ needsRefinement after = evaluationAsksForRefinement svc st.
Proof.
  unfold selfEvaluationNode, evaluationAsksForRefinement.
  destruct (generatedAnswer st) as [answer |]; [ | cbn; auto ].
  destruct (negb (Js.truthy answer)); [ cbn; auto | ].
  destruct (evaluateAnswer svc _ _ _ _ _) as [evaluation | e]; cbn; auto.
Qed.

Lemma step_attempts (c : Config num) :
  refinementAttempts (state (step svc c))
  = match node c with
    | QueryRefinement => refinementAttempts (state c) + 1
    | _ => refinementAttempts (state c)
    end.
Proof.
  destruct c as [n st lg]. unfold step. cbn [node state log].
  destruct n.
  - unfold queryRefinementNode.
    destruct (refineQuery svc _ _ _ _ _); reflexivity.
  - unfold documentRetrievalNode.
    destruct (retrieveDocuments svc _ _ _); reflexivity.
  - unfold answerGenerationNode.
    destruct (generateAnswer svc _ _ _ _ _); reflexivity.
  - cbn [state]. apply selfEvaluationNode_effect.
  - reflexivity.
Qed.

Lemma step_node (c : Config num) :
  node (step svc c) = nextNode (node c) (state (step svc c)).
Proof.
  destruct c as [n st lg]. unfold step. cbn [node state log].
  destruct n.
  - reflexivity.
  - destruct (documentRetrievalNode svc st lg). reflexivity.
  - destruct (answerGenerationNode svc st lg). reflexivity.
  - reflexivity.
  - reflexivity.
Qed.

(** Where the evaluation node leads. *)
Lemma selfEvaluation_route (st : RAGState num) (lg : AnalyticsLog) :
  node (step svc {| node := SelfEvaluation_; state := st; log := lg |})
  = if evaluationAsksForRefinement svc st && (refinementAttempts st <? 3)%nat
    then QueryRefinement else END.
Proof.
  rewrite step_node. cbn [node nextNode]. unfold shouldRefine.
  unfold step. cbn [node state log].
  destruct (selfEvaluationNode_effect st) as (Ha & _ & Hn).
  cbn zeta in Ha, Hn. rewrite Ha, Hn.
  now destruct (evaluationAsksForRefinement svc st && (refinementAttempts st <? 3)%nat).
Qed.

Lemma selfEvaluation_refines_iff (st : RAGState num) (lg : AnalyticsLog) :
  node (step svc {| node := SelfEvaluation_; state := st; log := lg |}) = QueryRefinement
  <-> (refinementAttempts st < 3)%nat
      /\ (answerMissing st = true
          \/ exists answer evaluation,
               generatedAnswer st = Some answer
               /\ evaluateAnswer svc (refinementAttempts st) (originalQuery st) answer
                    (retrievedDocuments st) (or_zero (confidence st))
                  = Returns evaluation
               /\ ltb (SelfEvaluation.score evaluation) (dec 7 10) = true
               /\ retrievedDocuments st <> []).
Proof.
  rewrite selfEvaluation_route.
  unfold evaluationAsksForRefinement, answerMissing.
  destruct (Nat.ltb_spec (refinementAttempts st) 3) as [Hlt | Hge].
  2: { rewrite andb_false_r. split; [ discriminate | intros [Hlt _]; lia ]. }
  rewrite andb_true_r.
  destruct (generatedAnswer st) as [answer |].
  2: { split; auto. }
  destruct (negb (Js.truthy answer)) eqn:Hempty.
  { split; auto. }
  destruct (evaluateAnswer svc _ _ _ _ _) as [evaluation | e] eqn:Heval.
  - destruct (ltb (SelfEvaluation.score evaluation) (dec 7 10)) eqn:Hscore;
      destruct (retrievedDocuments st) as [| d ds] eqn:Hdocs; cbn [andb Nat.ltb Nat.leb List.length].
    + split; [ intros Hq; discriminate Hq | ].
      intros [_ [Hm | (a & ev & Ha & Hev & Hs & Hne)]]; congruence.
    + split; [ intros _ | reflexivity ].
      split; [ assumption | right ].
      exists answer, evaluation. repeat split; auto. discriminate.
    + split; [ intros Hq; discriminate Hq | ].
      intros [_ [Hm | (a & ev & Ha & Hev & Hs & Hne)]]; congruence.
    + split; [ intros Hq; discriminate Hq | ].
      intros [_ [Hm | (a & ev & Ha & Hev & Hs & Hne)]]; try congruence.
  - split; [ intros Hq; discriminate Hq | ].
    intros [_ [Hm | (a & ev & Ha & Hev & Hs & Hne)]]; try congruence.
Qed.

Lemma selfEvaluation_refines_or_ends (st : RAGState num) (lg : AnalyticsLog) :
  node (step svc {| node := SelfEvaluation_; state := st; log := lg |}) = QueryRefinement
  \/ node (step svc {| node := SelfEvaluation_; state := st; log := lg |}) = END.
Proof.
  rewrite selfEvaluation_route.
  destruct (evaluationAsksForRefinement svc st && (refinementAttempts st <? 3)%nat); auto.
Qed.

Lemma steps_add (n m : nat) (c : Config num) :
  steps svc (n + m) c = steps svc m (steps svc n c).
Proof.
  revert c. induction n as [| n IH]; intros c; simpl; [ reflexivity | apply IH ].
Qed.

Lemma steps_attempts_monotone (n : nat) (c : Config num) :
  refinementAttempts (state c) <= refinementAttempts (state (steps svc n c)).
Proof.
  revert c. induction n as [| n IH]; intros c; simpl; [ lia | ].
  specialize (IH (step svc c)). rewrite step_attempts in IH.
  destruct (node c); lia.
Qed.

(** One cycle: refine, retrieve, generate, evaluate. *)
Lemma cycle (c : Config num) :
  node c = QueryRefinement ->
  node (steps svc 1 c) = DocumentRetrieval
  /\ node (steps svc 2 c) = AnswerGeneration_
  /\ node (steps svc 3 c) = SelfEvaluation_
  /\ refinementAttempts (state (steps svc 4 c)) = refinementAttempts (state c) + 1
  /\ (node (steps svc 4 c) = END
      \/ node (steps svc 4 c) = QueryRefinement
         /\ refinementAttempts (state c) + 1 < 3).
Proof.
  intros Hq. cbn [steps].
  assert (H1 : node (step svc c) = DocumentRetrieval)
    by (rewrite step_node, Hq; reflexivity).
  assert (H2 : node (step svc (step svc c)) = AnswerGeneration_)
    by (rewrite step_node, H1; reflexivity).
  assert (H3 : node (step svc (step svc (step svc c))) = SelfEvaluation_)
    by (rewrite step_node, H2; reflexivity).
  assert (A3 : refinementAttempts (state (step svc (step svc (step svc c))))
               = refinementAttempts (state c) + 1).
  { rewrite step_attempts, H2, step_attempts, H1, step_attempts, Hq. reflexivity. }
  repeat split; try assumption.
  - rewrite step_attempts, H3. exact A3.
  - destruct (step svc (step svc (step svc c))) as [n3 st3 lg3].
    cbn [node state] in H3, A3. subst n3.
    rewrite selfEvaluation_route.
    destruct (evaluationAsksForRefinement svc st3); cbn [andb]; [ | now left ].
    destruct (Nat.ltb_spec (refinementAttempts st3) 3); [ right | now left ].
    split; [ reflexivity | lia ].
Qed.

Lemma run_cycle (fuel : nat) (c : Config num) :
  node c = QueryRefinement ->
  run svc (4 + fuel) c = run svc fuel (steps svc 4 c).
Proof.
  intros Hq. destruct (cycle c Hq) as (H1 & H2 & H3 & _).
  cbn [steps] in *.
  change (4 + fuel) with (S (S (S (S fuel)))).
  cbn [run]. rewrite Hq. cbn [run]. rewrite H1. cbn [run]. rewrite H2.
  cbn [run]. rewrite H3. reflexivity.
Qed.

Lemma run_at_end (fuel : nat) (c : Config num) :
  node c = END -> run svc fuel c = (Returns (state c), log c).
Proof. intros He. destruct fuel; simpl; now rewrite He. Qed.

(** From the refinement node the run ends after at most [k + 1] cycles,
    [k] being what the attempt counter lacks to 3. *)
Lemma run_terminates (k : nat) :
  forall (c : Config num) (fuel : nat),
    node c = QueryRefinement ->
    3 - refinementAttempts (state c) <= k ->
    4 * (k + 1) <= fuel ->
    exists cycles,
      1 <= cycles <= k + 1
      /\ node (steps svc (4 * cycles) c) = END
      /\ run svc fuel c
         = (Returns (state (steps svc (4 * cycles) c)), log (steps svc (4 * cycles) c))
      /\ refinementAttempts (state (steps svc (4 * cycles) c))
         = refinementAttempts (state c) + cycles
      /\ refinementAttempts (state c) + cycles
         <= Nat.max 3 (refinementAttempts (state c) + 1)
      /\ (forall j, j < cycles -> node (steps svc (4 * j) c) = QueryRefinement).
Proof.
  induction k as [| k IH]; intros c fuel Hq Hk Hfuel.
  - destruct (cycle c Hq) as (_ & _ & _ & Ha & [He | [_ Hlt]]); [ | lia ].
    exists 1. replace fuel with (4 + (fuel - 4)) by lia.
    rewrite run_cycle by assumption. change (4 * 1) with 4.
    rewrite run_at_end by assumption.
    repeat split; try lia; try assumption.
    intros j Hj. replace j with 0 by lia. exact Hq.
  - destruct (cycle c Hq) as (_ & _ & _ & Ha & [He | [Hq' Hlt]]).
    + exists 1. replace fuel with (4 + (fuel - 4)) by lia.
      rewrite run_cycle by assumption. change (4 * 1) with 4.
      rewrite run_at_end by assumption.
      repeat split; try lia; try assumption.
      intros j Hj. replace j with 0 by lia. exact Hq.
    + destruct (IH (steps svc 4 c) (fuel - 4) Hq')
        as (m & Hm & Hend & Hrun & Hatt & Hmax & Hloop); [ lia | lia | ].
      exists (S m).
      replace (4 * S m) with (4 + 4 * m) by lia. rewrite steps_add.
      replace fuel with (4 + (fuel - 4)) by lia.
      rewrite run_cycle by assumption.
      repeat split; try lia; try assumption.
      intros [| j] Hj; [ exact Hq | ].
      replace (4 * S j) with (4 + 4 * j) by lia. rewrite steps_add.
      apply Hloop. lia.
Qed.
End Workflow.

Section WorkflowNodes.
Import VectorStore RagWorkflow.
Context {num : Type} `{JsNumber num}.
Variable svc : Services num.

(** A failure of retrieval is caught by its node: the run goes on with no
    document and with the error recorded. *)
Lemma documentRetrievalNode_failure (st : RAGState num) (lg : AnalyticsLog)
      (message : string) :
  retrieveDocuments svc (refinementAttempts st) (queryToUse st)
    {| opt_subject := subject st; opt_gradeLevel := gradeLevel st;
       opt_userRole := userRole st; opt_topK := Some 5 |} = Throws message ->
  let c' := step svc {| node := DocumentRetrieval; state := st; log := lg |} in
  node c' = AnswerGeneration_
  /\ retrievedDocuments (state c') = []
  /\ error (state c') = Some message
  /\ log c' = lg.
Proof.
  intros Hfail. unfold step, documentRetrievalNode. cbn [node state log].
  rewrite Hfail. cbn. auto.
Qed.

(** A failure of generation is caught by its node: the answer becomes the
    apology and the error is recorded. *)
Lemma answerGenerationNode_failure (st : RAGState num) (lg : AnalyticsLog)
      (message : string) :
  generateAnswer svc (refinementAttempts st) (queryToUse st) (retrievedDocuments st)
    (mode st) (messages st) = Throws message ->
  let c' := step svc {| node := AnswerGeneration_; state := st; log := lg |} in
  node c' = SelfEvaluation_
  /\ generatedAnswer (state c') = Some generationApology
  /\ error (state c') = Some message
  /\ log c' = lg.
Proof.
  intros Hfail. unfold step, answerGenerationNode. cbn [node state log].
  rewrite Hfail. cbn. auto.
Qed.
End WorkflowNodes.

Section WorkflowClaims.
Import VectorStore RagWorkflow.
Local Open Scope string_scope.

(** C1 as stated fails: in this run the store is empty and the language
    model answers with a blank.  When the evaluation node is reached, no
    document has been retrieved, so the condition of C1 does not hold; but
    the generated answer is the empty string, the node asks for a
    refinement without evaluating anything, and the run goes back to the
    refinement node. *)
Lemma empty_answer_refines_without_documents :
  node (steps Inputs.blankServices 3 (Inputs.start Inputs.firstQuestion))
  = SelfEvaluation_
  /\ retrievedDocuments
       (state (steps Inputs.blankServices 3 (Inputs.start Inputs.firstQuestion))) = []
  /\ generatedAnswer
       (state (steps Inputs.blankServices 3 (Inputs.start Inputs.firstQuestion)))
     = Some ""
  /\ refinementAttempts
       (state (steps Inputs.blankServices 3 (Inputs.start Inputs.firstQuestion))) = 1
  /\ node (steps Inputs.blankServices 4 (Inputs.start Inputs.firstQuestion))
     = QueryRefinement.
Proof. repeat split; vm_compute; reflexivity. Qed.

(** C1, amended: after the Evaluate step the workflow goes either back to
    Refine or to Done.  It goes back to Refine if and only if the attempt
    counter is below 3 and either no answer was generated (the answer is
    missing or empty), or the evaluation returned a score below 0.7 and at
    least one document was retrieved; in every other case it goes to
    Done.  This holds for every number type, in particular for doubles. *)
Theorem evaluate_transition :
  forall (num : Type) (N : JsNumber num) (svc : Services num)
         (st : RAGState num) (lg : AnalyticsLog),
    let next := node (step svc {| node := SelfEvaluation_; state := st; log := lg |}) in
    let refine :=
      (refinementAttempts st < 3)
      /\ (answerMissing st = true
          \/ exists answer evaluation,
               generatedAnswer st = Some answer
               /\ evaluateAnswer svc (refinementAttempts st) (originalQuery st) answer
                    (retrievedDocuments st) (or_zero (confidence st))
                  = Returns evaluation
               /\ ltb (SelfEvaluation.score evaluation) (dec 7 10) = true
               /\ retrievedDocuments st <> []) in
    (next = QueryRefinement \/ next = END)
    /\ (next = QueryRefinement <-> refine)
    /\ (next = END <-> ~ refine).
Proof.
  intros num N svc st lg next refine.
  pose proof (selfEvaluation_refines_iff svc st lg) as Hiff.
  pose proof (selfEvaluation_refines_or_ends svc st lg) as Hor.
  fold next in Hiff, Hor. fold refine in Hiff.
  split; [ exact Hor | ]. split; [ exact Hiff | ].
  split.
  - intros He Hr. apply Hiff in Hr. congruence.
  - intros Hn. destruct Hor as [Hq | He]; [ | exact He ].
    apply Hiff in Hq. contradiction.
Qed.

(** C2 as stated fails: in the same run no document is retrieved in any
    cycle, yet the loop is not left after the first evaluation: the run
    goes round three times and ends with the attempt counter at 3. *)
Lemma loop_continues_without_documents :
  exists final lg,
    invoke (buildRAGWorkflow Inputs.blankServices) Inputs.firstQuestion []
    = (Returns final, lg)
    /\ refinementAttempts final = 3
    /\ retrievedDocuments final = []
    /\ retrievedDocuments
         (state (steps Inputs.blankServices 4 (Inputs.start Inputs.firstQuestion))) = []
    /\ node (steps Inputs.blankServices 4 (Inputs.start Inputs.firstQuestion))
       = QueryRefinement.
Proof.
  eexists. eexists.
  split; [ vm_compute; reflexivity | ].
  repeat split; vm_compute; reflexivity.
Qed.

(** C2, amended: in every run the attempt counter never decreases from one
    step to the next; the run terminates, within the recursion limit of
    the graph, after one to three cycles, and the final attempt count is
    the number of cycles, hence at most 3.  The loop is left at an
    evaluation once the attempt cap is reached, or, when a non-empty
    answer was generated, once the evaluation score is not below 0.7 or no
    document was retrieved.  (With a missing or empty answer the loop goes
    on until the cap, whatever was retrieved.) *)
Theorem refinement_loop_bounded :
  forall (num : Type) (N : JsNumber num) (svc : Services num)
         (query userId' : string) (userRole' : Role) (mode' conversationId' : string)
         (options : option (option string * option Z)) (log0 : AnalyticsLog),
    let c0 :=
      {| node := QueryRefinement;
         state := createInitialState query userId' userRole' mode' conversationId'
                                     options;
         log := log0 |} in
    (forall c : Config num,
        refinementAttempts (state c) <= refinementAttempts (state (step svc c)))
    /\ (exists cycles,
          1 <= cycles <= 3
          /\ invoke (buildRAGWorkflow svc) (state c0) log0
             = (Returns (state (steps svc (4 * cycles) c0)),
                log (steps svc (4 * cycles) c0))
          /\ refinementAttempts (state (steps svc (4 * cycles) c0)) = cycles
          /\ forall n, refinementAttempts (state (steps svc n c0)) <= 3)
    /\ (forall (st : RAGState num) (lg : AnalyticsLog),
          let next :=
            node (step svc {| node := SelfEvaluation_; state := st; log := lg |}) in
          (3 <= refinementAttempts st -> next = END)
          /\ (answerMissing st = false -> retrievedDocuments st = [] -> next = END)
          /\ (answerMissing st = false ->
              forall answer evaluation,
                generatedAnswer st = Some answer ->
                evaluateAnswer svc (refinementAttempts st) (originalQuery st) answer
                  (retrievedDocuments st) (or_zero (confidence st))
                = Returns evaluation ->
                ltb (SelfEvaluation.score evaluation) (dec 7 10) = false ->
                next = END)).
Proof.
  intros num N svc query userId' userRole' mode' conversationId' options log0 c0.
  split; [ | split ].
  - intros c. rewrite step_attempts. destruct (node c); lia.
  - destruct (run_terminates svc (k := 3) c0 (fuel := recursionLimit) eq_refl)
      as (cycles & Hc & Hend & Hrun & Hatt & Hmax & Hloop).
    + cbn. lia.
    + unfold recursionLimit. lia.
    + cbn [c0 state createInitialState refinementAttempts] in Hatt, Hmax.
      exists cycles. split; [ lia | ]. split; [ exact Hrun | ].
      split; [ exact Hatt | ].
      intros n.
      destruct (Nat.le_gt_cases n (4 * cycles)) as [Hle | Hgt].
      * replace (4 * cycles) with (n + (4 * cycles - n)) in Hatt by lia.
        rewrite steps_add in Hatt.
        pose proof (steps_attempts_monotone svc (4 * cycles - n) (steps svc n c0)).
        lia.
      * replace n with (4 * cycles + (n - 4 * cycles)) by lia.
        rewrite steps_add.
        assert (Hstay : forall m c, node c = END -> steps svc m c = c).
        { induction m as [| m IHm]; intros c He; [ reflexivity | ].
          cbn [steps].
          assert (Hs : step svc c = c).
          { destruct c as [n' st' lg']. cbn [node] in He. subst n'. reflexivity. }
          rewrite Hs. now apply IHm. }
        rewrite Hstay by assumption. lia.
  - intros st lg next.
    pose proof (selfEvaluation_refines_iff svc st lg) as Hiff.
    pose proof (selfEvaluation_refines_or_ends svc st lg) as Hor.
    fold next in Hiff, Hor.
    repeat split.
    + intros Hcap. destruct Hor as [Hq | He]; [ | exact He ].
      apply Hiff in Hq. lia.
    + intros Hans Hdocs. destruct Hor as [Hq | He]; [ | exact He ].
      apply Hiff in Hq as [_ [Hm | (a & ev & _ & _ & _ & Hne)]]; congruence.
    + intros Hans answer evaluation Ha Hev Hscore.
      destruct Hor as [Hq | He]; [ | exact He ].
      apply Hiff in Hq as [_ [Hm | (a & ev & Ha' & Hev' & Hs & _)]]; [ congruence | ].
      rewrite Ha in Ha'. injection Ha' as <-.
      rewrite Hev in Hev'. injection Hev' as <-. congruence.
Qed.

(** A graph whose [invoke] throws, run through the same boundary. *)
Example executeWith_broken_graph :
  executeWith Inputs.answeringServices Inputs.brokenGraph
              "2+2=4, true or false?" "student1" Student "math_solver"
              "conversation1" None []
  = (Returns {| success := false;
                answer := Some workflowApology;
                res_confidence := None;
                res_sources := None;
                documents := None;
                res_metadata := None;
                res_error := Some "graph failure" |},
     [ {| row_event := {| ev_userId := "student1";
                          eventType := EvWorkflowError;
                          queryText := "2+2=4, true or false?";
                          documentsRetrieved := None;
                          ev_tokenUsage := None;
                          ev_success := Some false;
                          errorMessage := Some "graph failure" |};
          row_success := false |} ]).
Proof. reflexivity. Qed.

(** Scenario A of the specification: no document is retrieved and the
    model answers; the run ends after one cycle with [success = true]. *)
Example run_without_documents_takes_one_attempt :
  exists result lg,
    executeRAGWorkflow Inputs.answeringServices
                       "2+2=4, true or false?" "student1" Student "math_solver"
                       "conversation1" None []
    = (Returns result, lg)
    /\ success result = true
    /\ answer result = Some "True: 2 + 2 = 4."
    /\ option_map (@rm_refinementAttempts float) (res_metadata result) = Some 1.
Proof.
  eexists. eexists. split; [ vm_compute; reflexivity | ].
  repeat split.
Qed.
End WorkflowClaims.

(** ** Further properties of the workflow *)

Section WorkflowFrame.
Import VectorStore RagWorkflow.
Context {num : Type} `{JsNumber num}.
Variable svc : Services num.

Lemma logAnalytics_extends (event : AnalyticsEvent) (lg : AnalyticsLog) :
  exists rows, logAnalytics svc event lg = lg ++ rows.
Proof.
  unfold logAnalytics. destruct (analyticsInsertFails svc event).
  - exists []. now rewrite app_nil_r.
  - eexists. reflexivity.
Qed.

Lemma carriedOver_refl (c : Config num) : carriedOver c c.
Proof.
  unfold carriedOver. repeat split; auto; exists []; now rewrite app_nil_r.
Qed.

Lemma carriedOver_trans (c1 c2 c3 : Config num) :
  carriedOver c1 c2 -> carriedOver c2 c3 -> carriedOver c1 c3.
Proof.
  unfold carriedOver.
  intros (A1 & A2 & A3 & A4 & A5 & A6 & A7 & [m1 A8] & A9 & [r1 A10] & A11)
         (B1 & B2 & B3 & B4 & B5 & B6 & B7 & [m2 B8] & B9 & [r2 B10] & B11).
  repeat split; try congruence; try lia; auto.
  - exists (m1 ++ m2). now rewrite B8, A8, app_assoc.
  - exists (r1 ++ r2). now rewrite B10, A10, app_assoc.
Qed.

Lemma step_carriedOver (c : Config num) : carriedOver c (step svc c).
Proof.
  destruct c as [n st lg]. unfold carriedOver, step. cbn [node state log].
  destruct n.
  - unfold queryRefinementNode.
    destruct (refineQuery svc _ _ _ _ _); cbn;
      repeat split; auto; try (eexists; reflexivity);
      exists []; now rewrite app_nil_r.
  - unfold documentRetrievalNode.
    destruct (retrieveDocuments svc _ _ _); cbn;
      repeat split; auto; try (eexists; reflexivity);
      try apply logAnalytics_extends; try discriminate;
      exists []; now rewrite app_nil_r.
  - unfold answerGenerationNode.
    destruct (generateAnswer svc _ _ _ _ _); cbn;
      repeat split; auto; try lia; try (eexists; reflexivity);
      try apply logAnalytics_extends; try discriminate;
      exists []; now rewrite app_nil_r.
  - unfold selfEvaluationNode.
    destruct (generatedAnswer st) as [a |];
      [ destruct (negb (Js.truthy a));
        [ | destruct (evaluateAnswer svc _ _ _ _ _) ] | ];
      cbn; repeat split; auto; try (eexists; reflexivity);
      exists []; now rewrite app_nil_r.
  - cbn. repeat split; auto; exists []; now rewrite app_nil_r.
Qed.

Lemma steps_carriedOver (n : nat) : forall c : Config num, carriedOver c (steps svc n c).
Proof.
  induction n as [| n IH]; intros c; cbn [steps].
  - apply carriedOver_refl.
  - eapply carriedOver_trans; [ apply step_carriedOver | apply IH ].
Qed.
End WorkflowFrame.

Section WorkflowRuns.
Import VectorStore RagWorkflow.
Local Open Scope string_scope.

(** X1: from any point of a run to any later point, the inputs of the run
    (original query, user, role, mode, subject, grade level, conversation)
    are unchanged, the message list and the analytics log only grow at
    their end, the token usage does not decrease, and an error that has
    been recorded is never cleared. *)
Theorem run_accumulates :
  forall (num : Type) (N : JsNumber num) (svc : Services num)
         (c : Config num) (n : nat),
    originalQuery (state (steps svc n c)) = originalQuery (state c)
    /\ userId (state (steps svc n c)) = userId (state c)
    /\ userRole (state (steps svc n c)) = userRole (state c)
    /\ mode (state (steps svc n c)) = mode (state c)
    /\ subject (state (steps svc n c)) = subject (state c)
    /\ gradeLevel (state (steps svc n c)) = gradeLevel (state c)
    /\ conversationId (state (steps svc n c)) = conversationId (state c)
    /\ (exists added,
          messages (state (steps svc n c)) = (messages (state c) ++ added)%list)
    /\ tokenUsage (state c) <= tokenUsage (state (steps svc n c))
    /\ (exists rows, log (steps svc n c) = (log c ++ rows)%list)
    /\ (error (state c) <> None -> error (state (steps svc n c)) <> None).
Proof.
  intros num N svc c n. exact (steps_carriedOver svc n c).
Qed.

Lemma refinement_step
      (num : Type) (N : JsNumber num) (svc : Services num)
      (st : RAGState num) (lg : AnalyticsLog) :
  exists st',
    step svc {| node := QueryRefinement; state := st; log := lg |}
    = {| node := DocumentRetrieval; state := st'; log := lg |}
    /\ refinementAttempts st' = refinementAttempts st + 1
    /\ retrievedDocuments st' = retrievedDocuments st
    /\ generatedAnswer st' = generatedAnswer st
    /\ confidence st' = confidence st
    /\ error st' = error st
    /\ tokenUsage st' = tokenUsage st
    /\ mode st' = mode st
    /\ originalQuery st' = originalQuery st.
Proof.
  unfold step, queryRefinementNode. cbn [node state log].
  destruct (refineQuery svc _ _ _ _ _); eexists;
    (split; [ reflexivity | cbn; repeat split ]).
Qed.

Lemma retrieval_step
      (num : Type) (N : JsNumber num) (svc : Services num)
      (st : RAGState num) (lg : AnalyticsLog)
      (retrieved : Outcome (list (ScoredChunk num))) :
  retrieveDocuments svc (refinementAttempts st) (queryToUse st)
    {| opt_subject := subject st; opt_gradeLevel := gradeLevel st;
       opt_userRole := userRole st; opt_topK := Some 5 |} = retrieved ->
  exists st' lg',
    step svc {| node := DocumentRetrieval; state := st; log := lg |}
    = {| node := AnswerGeneration_; state := st'; log := lg' |}
    /\ refinementAttempts st' = refinementAttempts st
    /\ retrievedDocuments st'
       = match retrieved with Returns docs => docs | Throws _ => [] end
    /\ error st' = match retrieved with
                   | Returns _ => error st
                   | Throws message => Some message
                   end
    /\ generatedAnswer st' = generatedAnswer st
    /\ confidence st' = confidence st
    /\ tokenUsage st' = tokenUsage st
    /\ mode st' = mode st
    /\ originalQuery st' = originalQuery st.
Proof.
  intros Hret. unfold step, documentRetrievalNode. cbn [node state log].
  rewrite Hret. destruct retrieved; do 2 eexists;
    (split; [ reflexivity | cbn; repeat split ]).
Qed.

Lemma generation_step
      (num : Type) (N : JsNumber num) (svc : Services num)
      (st : RAGState num) (lg : AnalyticsLog)
      (result : AnswerGeneration.GenerationResult num) :
  generateAnswer svc (refinementAttempts st) (queryToUse st) (retrievedDocuments st)
    (mode st) (messages st) = Returns result ->
  exists st' lg',
    step svc {| node := AnswerGeneration_; state := st; log := lg |}
    = {| node := SelfEvaluation_; state := st'; log := lg' |}
    /\ refinementAttempts st' = refinementAttempts st
    /\ retrievedDocuments st' = retrievedDocuments st
    /\ error st' = error st
    /\ generatedAnswer st' = Some (AnswerGeneration.answer result)
    /\ confidence st' = Some (AnswerGeneration.confidence result)
    /\ tokenUsage st' = tokenUsage st + AnswerGeneration.tokenUsage result.
Proof.
  intros Hgen. unfold step, answerGenerationNode. cbn [node state log].
  rewrite Hgen. do 2 eexists. split; [ reflexivity | cbn; repeat split ].
Qed.

Lemma evaluation_step
      (num : Type) (N : JsNumber num) (svc : Services num)
      (st : RAGState num) (lg : AnalyticsLog) :
  exists st',
    step svc {| node := SelfEvaluation_; state := st; log := lg |}
    = {| node := if evaluationAsksForRefinement svc st
                    && (refinementAttempts st <? 3)%nat
                 then QueryRefinement else END;
         state := st'; log := lg |}
    /\ refinementAttempts st' = refinementAttempts st
    /\ retrievedDocuments st' = retrievedDocuments st
    /\ error st' = error st
    /\ generatedAnswer st' = generatedAnswer st
    /\ confidence st' = confidence st
    /\ tokenUsage st' = tokenUsage st.
Proof.
  pose proof (selfEvaluation_route svc st lg) as Hroute.
  destruct (step svc {| node := SelfEvaluation_; state := st; log := lg |})
    as [n' st' lg'] eqn:Hstep.
  cbn [node] in Hroute. subst n'.
  assert (Hst : st' = applyUpdate st (selfEvaluationNode svc st) /\ lg' = lg).
  { unfold step in Hstep. cbn [node state log] in Hstep.
    injection Hstep as _ <- <-. auto. }
  destruct Hst as [-> ->]. clear Hstep.
  eexists. split; [ reflexivity | ].
  unfold selfEvaluationNode.
  destruct (generatedAnswer st) as [a |] eqn:Ha;
    [ destruct (negb (Js.truthy a));
      [ | destruct (evaluateAnswer svc _ _ _ _ _) ] | ];
    cbn; rewrite ?Ha; repeat split.
Qed.

(** The first cycle of a run in which retrieval yields no document
    (whether it returns none or fails) and generation returns a non-empty
    answer: the run ends after this one cycle. *)
Lemma one_cycle_without_documents
      (num : Type) (N : JsNumber num) (svc : Services num)
      (st0 : RAGState num) (log0 : AnalyticsLog)
      (retrieved : Outcome (list (ScoredChunk num)))
      (result : AnswerGeneration.GenerationResult num) :
  refinementAttempts st0 = 0 ->
  (forall q o, retrieveDocuments svc 1 q o = retrieved) ->
  match retrieved with Returns docs => docs = [] | Throws _ => True end ->
  (forall q h, generateAnswer svc 1 q [] (mode st0) h = Returns result) ->
  Js.truthy (AnswerGeneration.answer result) = true ->
  exists final lg,
    invoke (buildRAGWorkflow svc) st0 log0 = (Returns final, lg)
    /\ refinementAttempts final = 1
    /\ retrievedDocuments final = []
    /\ generatedAnswer final = Some (AnswerGeneration.answer result)
    /\ confidence final = Some (AnswerGeneration.confidence result)
    /\ error final = match retrieved with
                     | Returns _ => error st0
                     | Throws message => Some message
                     end
    /\ tokenUsage final = tokenUsage st0 + AnswerGeneration.tokenUsage result.
Proof.
  intros Hzero Hret Hnone Hgen Hanswer.
  cbn [invoke buildRAGWorkflow].
  change recursionLimit with (4 + 21).
  rewrite run_cycle by reflexivity. cbn [steps].
  (* refine *)
  destruct (@refinement_step num N svc st0 log0)
    as (st1 & -> & A1 & D1 & G1 & C1 & E1 & T1 & M1 & _).
  rewrite Hzero in A1. cbn [Nat.add] in A1.
  (* retrieve *)
  destruct (@retrieval_step num N svc st1 log0 retrieved)
    as (st2 & lg2 & -> & A2 & D2 & E2 & G2 & C2 & T2 & M2 & _).
  { rewrite A1. apply Hret. }
  assert (D2' : retrievedDocuments st2 = []).
  { rewrite D2. destruct retrieved; [ assumption | reflexivity ]. }
  (* generate *)
  destruct (@generation_step num N svc st2 lg2 result)
    as (st3 & lg3 & -> & A3 & D3 & E3 & G3 & C3 & T3).
  { rewrite A2, A1, D2', M2, M1. apply Hgen. }
  (* evaluate *)
  destruct (@evaluation_step num N svc st3 lg3)
    as (st4 & -> & A4 & D4 & E4 & G4 & C4 & T4).
  assert (Hstop : evaluationAsksForRefinement svc st3 = false).
  { unfold evaluationAsksForRefinement. rewrite G3, Hanswer. cbn [negb].
    rewrite D3, D2'.
    destruct (evaluateAnswer svc _ _ _ _ _); [ | reflexivity ].
    cbn [List.length Nat.ltb Nat.leb]. now rewrite andb_false_r. }
  rewrite Hstop. cbn [andb].
  rewrite run_at_end by reflexivity. cbn [state log].
  do 2 eexists. split; [ reflexivity | ].
  repeat split.
  - congruence.
  - congruence.
  - congruence.
  - congruence.
  - rewrite E4, E3, E2. destruct retrieved; congruence.
  - rewrite T4, T3, T2, T1. reflexivity.
Qed.

(** X2: when the first retrieval returns no document and generation
    returns a non-empty answer, the workflow ends after exactly one cycle,
    whatever the refinement and evaluation services do: the record has
    [success = true], the generated answer and its confidence, no
    document, and an attempt count of 1. *)
Theorem run_without_documents_ends_after_one_cycle :
  forall (num : Type) (N : JsNumber num) (svc : Services num)
         (query userId' : string) (userRole' : Role) (mode' conversationId' : string)
         (options : option (option string * option Z)) (log0 : AnalyticsLog)
         (result : AnswerGeneration.GenerationResult num),
    (forall q o, retrieveDocuments svc 1 q o = Returns []) ->
    (forall q h, generateAnswer svc 1 q [] mode' h = Returns result) ->
    Js.truthy (AnswerGeneration.answer result) = true ->
    exists res lg,
      executeRAGWorkflow svc query userId' userRole' mode' conversationId' options log0
      = (Returns res, lg)
      /\ success res = true
      /\ answer res = Some (AnswerGeneration.answer result)
      /\ res_confidence res = Some (AnswerGeneration.confidence result)
      /\ documents res = Some []
      /\ option_map (@rm_refinementAttempts num) (res_metadata res) = Some 1.
Proof.
  intros num N svc query userId' userRole' mode' conversationId' options log0 result
         Hret Hgen Hanswer.
  destruct (@one_cycle_without_documents num N svc
              (createInitialState query userId' userRole' mode' conversationId' options)
              log0 (Returns []) result eq_refl Hret eq_refl Hgen Hanswer)
    as (final & lg & Hrun & Ha & Hd & Hg & Hc & He & _).
  unfold executeRAGWorkflow, executeWith. rewrite Hrun.
  do 2 eexists. split; [ reflexivity | ].
  cbn [success answer res_confidence documents res_metadata option_map
       rm_refinementAttempts].
  unfold noError. rewrite He, Hg, Hc, Hd, Ha. cbn. repeat split.
Qed.

Lemma run_without_documents_ends_after_one_cycle_witness :
  (forall q o, retrieveDocuments Inputs.answeringServices 1 q o = Returns [])
  /\ Js.truthy "True: 2 + 2 = 4." = true
  /\ exists res lg,
      executeRAGWorkflow Inputs.answeringServices "2+2=4, true or false?" "student1"
                         Student "math_solver" "conversation1" None []
      = (Returns res, lg)
      /\ success res = true
      /\ answer res = Some "True: 2 + 2 = 4."
      /\ documents res = Some []
      /\ option_map (@rm_refinementAttempts float) (res_metadata res) = Some 1.
Proof.
  assert (Hret : forall q o,
             retrieveDocuments Inputs.answeringServices 1 q o = Returns []).
  { intros q o. cbn. unfold VectorStore.retrieveDocuments. cbn.
    unfold Js.slice. cbn. now rewrite firstn_nil. }
  split; [ exact Hret | ]. split; [ reflexivity | ].
  destruct (@run_without_documents_ends_after_one_cycle
              float double_number Inputs.answeringServices
              "2+2=4, true or false?" "student1" Student "math_solver"
              "conversation1" None []
              {| AnswerGeneration.answer := "True: 2 + 2 = 4.";
                 AnswerGeneration.confidence :=
                   AnswerGeneration.confidenceOf (num := float) [];
                 AnswerGeneration.sources := [];
                 AnswerGeneration.tokenUsage := 4;
                 AnswerGeneration.metadata :=
                   {| AnswerGeneration.documentsUsed := 0;
                      AnswerGeneration.avgRelevance :=
                        AnswerGeneration.averageRelevance (num := float) [] |} |}
              Hret (fun q h => eq_refl) eq_refl)
    as (res & lg & Hrun & Hs & Ha & _ & Hd & Hm).
  exists res, lg. repeat split; assumption.
Defined.



(** X4: a failure of generation does not end the run.  The node records
    the error and puts the apology in place of the answer; the evaluation
    node then evaluates that apology like any answer, and the run goes
    back to the refinement node exactly when the attempt counter is below
    3, a document was retrieved, and the evaluation of the apology returns
    a score below 0.7. *)
Theorem generation_failure_is_evaluated :
  forall (num : Type) (N : JsNumber num) (svc : Services num)
         (st : RAGState num) (lg : AnalyticsLog) (message : string),
    generateAnswer svc (refinementAttempts st) (queryToUse st) (retrievedDocuments st)
      (mode st) (messages st) = Throws message ->
    let c1 := step svc {| node := AnswerGeneration_; state := st; log := lg |} in
    node c1 = SelfEvaluation_
    /\ generatedAnswer (state c1) = Some generationApology
    /\ error (state c1) = Some message
    /\ (node (step svc c1) = QueryRefinement
        <-> refinementAttempts st < 3
            /\ retrievedDocuments st <> []
            /\ exists evaluation,
                 evaluateAnswer svc (refinementAttempts st) (originalQuery st)
                   generationApology (retrievedDocuments st)
                   (or_zero (confidence st)) = Returns evaluation
                 /\ ltb (SelfEvaluation.score evaluation) (dec 7 10) = true).
Proof.
  intros num N svc st lg message Hfail c1.
  assert (Hc1 : c1 = {| node := SelfEvaluation_;
                        state := applyUpdate st [Set_error message;
                                                 Set_generatedAnswer generationApology];
                        log := lg |}).
  { subst c1. unfold step, answerGenerationNode. cbn [node state log].
    rewrite Hfail. reflexivity. }
  rewrite Hc1. cbn [node state].
  split; [ reflexivity | ]. split; [ reflexivity | ]. split; [ reflexivity | ].
  rewrite selfEvaluation_refines_iff.
  cbn [applyUpdate fold_left assign refinementAttempts retrievedDocuments
       originalQuery confidence generatedAnswer].
  unfold answerMissing. cbn [applyUpdate fold_left assign generatedAnswer].
  split.
  - intros [Hlt [Hm | (a & ev & Ha & Hev & Hs & Hne)]]; [ discriminate Hm | ].
    injection Ha as <-. repeat split; auto. exists ev. auto.
  - intros (Hlt & Hne & ev & Hev & Hs). split; [ assumption | right ].
    exists generationApology, ev. auto.
Qed.

Lemma generation_failure_is_evaluated_witness :
  AnswerGeneration.generateAnswer (num := float) Inputs.failingModel "x" [] "research" []
  = Throws "Answer generation failed: model unavailable"
  /\ exists svc : Services float,
      generateAnswer svc 1 "x" [] "research" [HumanMessage "x"]
      = Throws "Answer generation failed: model unavailable"
      /\ node (step svc
                 {| node := AnswerGeneration_;
                    state := applyUpdate
                               (createInitialState "x" "u" Student "research" "c" None)
                               [Set_refinementAttempts 1];
                    log := [] |}) = SelfEvaluation_.
Proof.
  split; [ reflexivity | ].
  exists {| refineQuery := RagWorkflow.refineQuery Inputs.answeringServices;
            retrieveDocuments := RagWorkflow.retrieveDocuments Inputs.answeringServices;
            generateAnswer :=
              fun _ q docs m h =>
                AnswerGeneration.generateAnswer Inputs.failingModel q docs m h;
            evaluateAnswer := RagWorkflow.evaluateAnswer Inputs.answeringServices;
            analyticsInsertFails := fun _ => false |}.
  split; [ reflexivity | ].
  refine (proj1 (@generation_failure_is_evaluated float double_number _
                   (applyUpdate (createInitialState "x" "u" Student "research" "c" None)
                                [Set_refinementAttempts 1])
                   [] "Answer generation failed: model unavailable" _)).
  reflexivity.
Defined.
End WorkflowRuns.

(** ** The workflow boundary *)

Section WorkflowFailures.
Import VectorStore RagWorkflow.
Context {num : Type} `{JsNumber num}.
Variable svc : Services num.

(** The [error] channel after a step: the message of the failure, if the
    step is a retrieval or a generation that fails, and what it was
    otherwise. *)
Lemma step_error (c : Config num) :
  error (state (step svc c))
  = match failureAt svc c with
    | Some message => Some message
    | None => error (state c)
    end.
Proof.
  destruct c as [n st lg].
  unfold step, failureAt, retrievalCall, generationCall. cbn [node state log].
  destruct n.
  - unfold queryRefinementNode. destruct (refineQuery svc _ _ _ _ _); reflexivity.
  - unfold documentRetrievalNode. destruct (retrieveDocuments svc _ _ _); reflexivity.
  - unfold answerGenerationNode. destruct (generateAnswer svc _ _ _ _ _); reflexivity.
  - destruct (@evaluation_step num _ svc st lg) as (st' & Hstep & _ & _ & He & _).
    unfold step in Hstep. cbn [node state log] in Hstep.
    injection Hstep as _ <-. exact He.
  - reflexivity.
Qed.

Lemma last_cons {A : Type} (x d : A) (l : list A) : last (x :: l) d = last l x.
Proof.
  revert x d. induction l as [| y l IH]; intros x d; [ reflexivity | ].
  change (last (x :: y :: l) d) with (last (y :: l) d).
  now rewrite (IH y d), (IH y x).
Qed.

Lemma last_some {A : Type} (l : list A) (d : option A) :
  last (map Some l) d
  = match last (map Some l) None with Some x => Some x | None => d end.
Proof.
  destruct l as [| x l]; [ reflexivity | ].
  cbn [map]. rewrite !last_cons.
  assert (Hsome : exists y, last (map Some l) (Some x) = Some y).
  { clear d. revert x. induction l as [| y l IH]; intros x; [ now exists x | ].
    cbn [map]. rewrite last_cons. apply IH. }
  destruct Hsome as [y ->]. reflexivity.
Qed.

(** The last failure, step by step. *)
Lemma lastFailure_step (n : nat) (c : Config num) :
  lastFailure svc (S n) c
  = match lastFailure svc n (step svc c) with
    | Some message => Some message
    | None => failureAt svc c
    end.
Proof.
  unfold lastFailure. cbn [failures].
  destruct (failureAt svc c) as [message |].
  - cbn [map]. rewrite last_cons. apply last_some.
  - now destruct (last (map Some (failures svc n (step svc c))) None).
Qed.

(** No failure is recorded exactly when no retrieval and no generation
    of the run has failed. *)
Lemma lastFailure_none (n : nat) :
  forall c : Config num,
    lastFailure svc n c = None
    <-> forall k, k < n -> failureAt svc (steps svc k c) = None.
Proof.
  induction n as [| n IH]; intros c.
  - split; [ intros _ k Hk; lia | reflexivity ].
  - rewrite lastFailure_step. split.
    + intros Hnone k Hk.
      destruct (lastFailure svc n (step svc c)) eqn:Hrest; [ discriminate | ].
      destruct k as [| k]; [ exact Hnone | ].
      cbn [steps]. apply (proj1 (IH (step svc c)) Hrest). lia.
    + intros Hall.
      assert (Hrest : lastFailure svc n (step svc c) = None).
      { apply IH. intros k Hk. apply (Hall (S k)). lia. }
      rewrite Hrest. apply (Hall 0). lia.
Qed.

(** The failure recorded is the last one of the run. *)
Lemma lastFailure_some (n : nat) :
  forall (c : Config num) (message : string),
    lastFailure svc n c = Some message
    <-> exists k,
          k < n
          /\ failureAt svc (steps svc k c) = Some message
          /\ forall j, k < j < n -> failureAt svc (steps svc j c) = None.
Proof.
  induction n as [| n IH]; intros c message.
  - split; [ discriminate | intros (k & Hk & _); lia ].
  - rewrite lastFailure_step. split.
    + destruct (lastFailure svc n (step svc c)) as [m |] eqn:Hrest.
      * intros [= ->]. apply IH in Hrest. destruct Hrest as (k & Hk & Hat & Hafter).
        exists (S k). split; [ lia | ]. split; [ exact Hat | ].
        intros [| j] Hj; [ lia | ]. cbn [steps]. apply Hafter. lia.
      * intros Hat. exists 0. split; [ lia | ]. split; [ exact Hat | ].
        intros [| j] Hj; [ lia | ]. cbn [steps].
        apply (proj1 (lastFailure_none n (step svc c)) Hrest). lia.
    + intros ([| k] & Hk & Hat & Hafter).
      * assert (Hrest : lastFailure svc n (step svc c) = None).
        { apply lastFailure_none. intros j Hj. apply (Hafter (S j)). lia. }
        rewrite Hrest. exact Hat.
      * assert (Hrest : lastFailure svc n (step svc c) = Some message).
        { apply IH. exists k. split; [ lia | ]. split; [ exact Hat | ].
          intros j Hj. apply (Hafter (S j)). lia. }
        now rewrite Hrest.
Qed.

Lemma steps_error (n : nat) :
  forall c : Config num,
    error (state (steps svc n c)) = last (map Some (failures svc n c)) (error (state c)).
Proof.
  induction n as [| n IH]; intros c; [ reflexivity | ].
  cbn [steps failures]. rewrite IH, step_error.
  destruct (failureAt svc c) as [message |]; [ | reflexivity ].
  cbn [map]. now rewrite last_cons.
Qed.

Lemma generation_answer (st : RAGState num) (lg : AnalyticsLog) :
  generatedAnswer (state (step svc {| node := AnswerGeneration_; state := st; log := lg |}))
  = match generationCall svc st with
    | Returns generated => Some (AnswerGeneration.answer generated)
    | Throws _ => Some generationApology
    end.
Proof.
  unfold step, answerGenerationNode, generationCall. cbn [node state log].
  destruct (generateAnswer svc _ _ _ _ _); reflexivity.
Qed.

(** The answer a cycle leaves is written by its generation node. *)
Lemma cycle_answer (c : Config num) :
  node c = QueryRefinement ->
  generatedAnswer (state (steps svc 4 c))
  = match generationCall svc (state (steps svc 2 c)) with
    | Returns generated => Some (AnswerGeneration.answer generated)
    | Throws _ => Some generationApology
    end.
Proof.
  intros Hq. destruct (cycle svc c Hq) as (_ & H2 & H3 & _).
  change (steps svc 4 c) with (step svc (step svc (steps svc 2 c))).
  change (steps svc 3 c) with (step svc (steps svc 2 c)) in H3.
  destruct (steps svc 2 c) as [n2 st2 lg2]. cbn [node state] in *. subst n2.
  pose proof (generation_answer st2 lg2) as Hanswer.
  destruct (step svc {| node := AnswerGeneration_; state := st2; log := lg2 |})
    as [n3 st3 lg3]. cbn [node state] in *. subst n3.
  destruct (@evaluation_step num _ svc st3 lg3) as (st' & -> & _ & _ & _ & Hg & _).
  cbn [state]. congruence.
Qed.
End WorkflowFailures.

Section WorkflowBoundary.
Import VectorStore RagWorkflow.
Local Open Scope string_scope.

(** C3 as stated fails: here the store is unreachable, so the retrieval
    of the run fails.  The failure is caught in the retrieval node; the
    model then answers from no document, and the record returned has
    [success = false] with that generated answer, which is neither of
    the two apologies of the program. *)
Lemma internal_failure_without_apology :
  ~ (forall (svc : Services float) (query userId' : string) (userRole' : Role)
            (mode' conversationId' : string)
            (options : option (option string * option Z)) (log0 : AnalyticsLog),
        (exists n,
            failureAt svc
              (steps svc n
                 {| node := QueryRefinement;
                    state := createInitialState query userId' userRole' mode'
                                                conversationId' options;
                    log := log0 |}) <> None) ->
        exists result log1,
          executeRAGWorkflow svc query userId' userRole' mode' conversationId'
                             options log0
          = (Returns result, log1)
          /\ success result = false
          /\ (answer result = Some workflowApology
              \/ answer result = Some generationApology)).
Proof.
  intros Hclaim.
  destruct (Hclaim Inputs.unreachableStoreServices "2+2=4, true or false?"
              "student1" Student "math_solver" "conversation1" None [])
    as (result & log1 & Hrun & _ & Hanswer).
  - exists 1. vm_compute. discriminate.
  - vm_compute in Hrun. injection Hrun as <- _.
    destruct Hanswer as [Hanswer | Hanswer]; vm_compute in Hanswer; discriminate.
Qed.

(** C3, amended: for every query, every user, every mode and every
    behaviour of the services, [executeRAGWorkflow] returns a result
    record and throws nothing: the run of the graph ends after one to
    three cycles.  A failure of refinement or of evaluation is caught in
    its node and leaves no trace.  A failure of retrieval or of
    generation is caught in its node, and the record says of it what
    follows.  It has no [error] key.  Its [success] is [false] exactly when the last such failure of
    the run has a non-empty message, and [true] when there was none.  Its
    answer is written by the last generation of the run: the generation
    apology if that call failed, the generated answer otherwise.  The
    [workflow_complete] event handed to the analytics log carries the
    same [success] and the message of the last failure.  Apart from
    that, and for any compiled graph: when [invoke] itself throws, the
    exception is caught, a [workflow_error] event with [success = false]
    is handed to the analytics log, and the record returned has
    [success = false], the workflow apology as its answer and the
    message of the exception as its error. *)
Theorem executeRAGWorkflow_reports_failures :
  forall (num : Type) (N : JsNumber num) (svc : Services num)
         (query userId' : string) (userRole' : Role) (mode' conversationId' : string)
         (options : option (option string * option Z)) (log0 : AnalyticsLog),
    let initialState :=
      createInitialState query userId' userRole' mode' conversationId' options in
    let c0 := {| node := QueryRefinement; state := initialState; log := log0 |} in
    (exists cycles result log1,
        1 <= cycles <= 3
        /\ executeRAGWorkflow svc query userId' userRole' mode' conversationId' options log0
           = (Returns result, log1)
        /\ res_error result = None
        /\ success result
           = match lastFailure svc (4 * cycles) c0 with
             | Some message => negb (Js.truthy message)
             | None => true
             end
        /\ node (steps svc (4 * cycles - 2) c0) = AnswerGeneration_
        /\ answer result
           = match generationCall svc (state (steps svc (4 * cycles - 2) c0)) with
             | Returns generated => Some (AnswerGeneration.answer generated)
             | Throws _ => Some generationApology
             end
        /\ log1
           = logAnalytics svc
               {| ev_userId := userId';
                  eventType := EvWorkflowComplete;
                  queryText := query;
                  documentsRetrieved := None;
                  ev_tokenUsage := option_map (@rm_tokenUsage num) (res_metadata result);
                  ev_success := Some (success result);
                  errorMessage := lastFailure svc (4 * cycles) c0 |}
               (log (steps svc (4 * cycles) c0))
        /\ (lastFailure svc (4 * cycles) c0 = None
            <-> forall k, k < 4 * cycles -> failureAt svc (steps svc k c0) = None)
        /\ (forall message,
              lastFailure svc (4 * cycles) c0 = Some message
              <-> exists k,
                    k < 4 * cycles
                    /\ failureAt svc (steps svc k c0) = Some message
                    /\ forall j, k < j < 4 * cycles ->
                                 failureAt svc (steps svc j c0) = None))
    /\ (forall workflow : CompiledGraph num,
          exists result log1,
            executeWith svc workflow query userId' userRole' mode' conversationId'
                        options log0
            = (Returns result, log1)
            /\ (forall message lg,
                  invoke workflow initialState log0 = (Throws message, lg) ->
                  success result = false
                  /\ answer result = Some workflowApology
                  /\ res_error result = Some message
                  /\ log1 = logAnalytics svc
                              {| ev_userId := userId';
                                 eventType := EvWorkflowError;
                                 queryText := query;
                                 documentsRetrieved := None;
                                 ev_tokenUsage := None;
                                 ev_success := Some false;
                                 errorMessage := Some message |} lg)
            /\ (forall final lg,
                  invoke workflow initialState log0 = (Returns final, lg) ->
                  success result = noError final
                  /\ answer result = generatedAnswer final
                  /\ res_error result = None)).
Proof.
  intros num N svc query userId' userRole' mode' conversationId' options log0
         initialState c0.
  split.
  - destruct (run_terminates svc (k := 3) c0 (fuel := recursionLimit) eq_refl)
      as (cycles & Hc & Hend & Hrun & _ & Hmax & Hloop);
      [ cbn; lia | unfold recursionLimit; lia | ].
    cbn [c0 state initialState createInitialState refinementAttempts] in Hmax.
    assert (Hlast : node (steps svc (4 * (cycles - 1)) c0) = QueryRefinement)
      by (apply Hloop; lia).
    assert (H4 : steps svc (4 * cycles) c0
                 = steps svc 4 (steps svc (4 * (cycles - 1)) c0)).
    { rewrite <- steps_add. f_equal. lia. }
    assert (H2 : steps svc (4 * cycles - 2) c0
                 = steps svc 2 (steps svc (4 * (cycles - 1)) c0)).
    { rewrite <- steps_add. f_equal. lia. }
    pose proof (cycle_answer svc _ Hlast) as Hanswer.
    destruct (cycle svc _ Hlast) as (_ & Hnode & _).
    rewrite <- H4, <- H2 in Hanswer. rewrite <- H2 in Hnode.
    pose proof (steps_error svc (4 * cycles) c0) as Herror.
    change (error (state c0)) with (@None string) in Herror.
    fold (lastFailure svc (4 * cycles) c0) in Herror.
    unfold executeRAGWorkflow, executeWith. fold initialState.
    cbn [invoke buildRAGWorkflow]. fold c0. rewrite Hrun.
    exists cycles. do 2 eexists.
    split; [ lia | ]. split; [ reflexivity | ].
    cbn [res_error success answer res_metadata option_map rm_tokenUsage].
    unfold noError. rewrite Herror, Hanswer.
    split; [ reflexivity | ]. split; [ reflexivity | ].
    split; [ exact Hnode | ]. split; [ reflexivity | ].
    split; [ reflexivity | ].
    split; [ apply lastFailure_none | intros message; apply lastFailure_some ].
  - intros workflow. unfold executeWith. fold initialState.
    destruct (invoke workflow initialState log0) as [[final | message] lg].
    + do 2 eexists. split; [ reflexivity | ]. split.
      * intros m lg' Hm. discriminate.
      * intros f lg' Hf. injection Hf as <- <-. repeat split.
    + do 2 eexists. split; [ reflexivity | ]. split.
      * intros m lg' Hm. injection Hm as <- <-. repeat split.
      * intros f lg' Hf. discriminate.
Qed.

(** The theorem at work on the unreachable store: one cycle, one failure
    in it, that of the retrieval; the record has [success = false], no
    [error] key, and the answer the model generated. *)
Example unreachable_store_run :
  lastFailure Inputs.unreachableStoreServices 4 (Inputs.start Inputs.firstQuestion)
  = Some "database unavailable"
  /\ failures Inputs.unreachableStoreServices 4 (Inputs.start Inputs.firstQuestion)
     = ["database unavailable"]
  /\ exists result lg,
      executeRAGWorkflow Inputs.unreachableStoreServices
                         "2+2=4, true or false?" "student1" Student "math_solver"
                         "conversation1" None []
      = (Returns result, lg)
      /\ success result = false
      /\ res_error result = None
      /\ answer result = Some "True: 2 + 2 = 4."
      /\ map row_success lg = [true; false].
Proof.
  split; [ vm_compute; reflexivity | ].
  split; [ vm_compute; reflexivity | ].
  eexists. eexists. split; [ vm_compute; reflexivity | ].
  repeat split.
Qed.

(** A failure whose message is empty is not reported at all:
    [!result.error] is [true] of the empty string, and the record has
    [success = true]. *)
Example failure_with_an_empty_message :
  failures Inputs.silentFailureServices 4 (Inputs.start Inputs.firstQuestion) = [""]
  /\ exists result lg,
      executeRAGWorkflow Inputs.silentFailureServices
                         "2+2=4, true or false?" "student1" Student "math_solver"
                         "conversation1" None []
      = (Returns result, lg)
      /\ success result = true
      /\ answer result = Some "True: 2 + 2 = 4.".
Proof.
  split; [ vm_compute; reflexivity | ].
  eexists. eexists. split; [ vm_compute; reflexivity | ].
  repeat split.
Qed.
End WorkflowBoundary.

(** ** Further properties of answer generation *)

Section Sources.
Import VectorStore AnswerGeneration.
Context {num : Type} `{JsNumber num}.

Lemma existsb_eqb_In (x : string) (l : list string) :
  existsb (String.eqb x) l = true <-> In x l.
Proof.
  rewrite existsb_exists. split.
  - intros (y & Hy & E). apply String.eqb_eq in E. now subst.
  - intros Hin. exists x. split; [ assumption | apply String.eqb_refl ].
Qed.

Lemma unique_In (l : list string) :
  forall seen x, In x (unique seen l) <-> In x l /\ ~ In x seen.
Proof.
  induction l as [| y l IH]; intros seen x; simpl; [ tauto | ].
  destruct (existsb (String.eqb y) seen) eqn:E.
  - apply existsb_eqb_In in E. rewrite IH. split.
    + intros [Hin Hn]. auto.
    + intros [[-> | Hin] Hn]; [ contradiction | auto ].
  - assert (Hy : ~ In y seen).
    { intros Hin. apply existsb_eqb_In in Hin. congruence. }
    simpl. rewrite IH. simpl. split.
    + intros [<- | [Hin Hn]]; [ auto | ]. split; [ auto | tauto ].
    + intros [[-> | Hin] Hn]; [ auto | ].
      destruct (string_dec y x) as [-> | Hne]; [ auto | right ].
      split; [ assumption | ]. intros [E' | Hs]; [ contradiction | contradiction ].
Qed.

Lemma unique_NoDup (l : list string) : forall seen, NoDup (unique seen l).
Proof.
  induction l as [| y l IH]; intros seen; simpl; [ constructor | ].
  destruct (existsb (String.eqb y) seen); [ apply IH | ].
  constructor; [ | apply IH ].
  rewrite unique_In. simpl. tauto.
Qed.

Lemma NoDup_firstn {A : Type} (k : nat) (l : list A) : NoDup l -> NoDup (firstn k l).
Proof.
  revert k. induction l as [| x l IH]; intros [| k] Hnd; simpl; try constructor.
  - inversion Hnd as [| ? ? Hx Hl]; subst. intros Hin. apply Hx.
    eapply In_firstn. eassumption.
  - inversion Hnd; subst. auto.
Qed.

Lemma firstn_all_or_full {A : Type} (k : nat) (l : list A) :
  firstn k l = l \/ List.length (firstn k l) = k.
Proof.
  destruct (Nat.le_gt_cases (List.length l) k) as [Hle | Hgt].
  - left. now apply firstn_all2.
  - right. apply firstn_length_le. lia.
Qed.
End Sources.

Section SourcesAndStreaming.
Import VectorStore AnswerGeneration.

(** X5: the sources of an answer are pairwise distinct, at most five, and
    each is the title (or "Unknown" for an empty title) of a retrieved
    document whose score is above 0.5; conversely the title of every such
    document is among the sources unless the list is full. *)
Theorem extractSources_distinct_relevant_titles :
  forall (num : Type) (N : JsNumber num) (docs : list (ScoredChunk num)),
    NoDup (extractSources docs)
    /\ List.length (extractSources docs) <= 5
    /\ (forall s, In s (extractSources docs) ->
          exists d, In d docs
                    /\ gtb (sc_score d) (dec 5 10) = true
                    /\ s = titleOrUnknown d)
    /\ (forall d, In d docs -> gtb (sc_score d) (dec 5 10) = true ->
          In (titleOrUnknown d) (extractSources docs)
          \/ List.length (extractSources docs) = 5).
Proof.
  intros num N docs. unfold extractSources, Js.slice.
  cbn [Nat.sub skipn].
  set (titles := unique [] (map titleOrUnknown
                              (filter (fun doc => gtb (sc_score doc) (dec 5 10)) docs))).
  assert (Htitles : forall s, In s titles <->
                      exists d, In d docs /\ gtb (sc_score d) (dec 5 10) = true
                                /\ s = titleOrUnknown d).
  { intros s. unfold titles. rewrite unique_In, in_map_iff. split.
    - intros [(d & <- & Hd) _]. apply filter_In in Hd as [Hin Hs]. eauto.
    - intros (d & Hin & Hs & ->). split; [ | intros [] ].
      exists d. split; [ reflexivity | ]. apply filter_In. auto. }
  split; [ apply NoDup_firstn, unique_NoDup | ].
  split; [ apply firstn_le_length | ].
  split.
  - intros s Hs. apply In_firstn in Hs. now apply Htitles.
  - intros d Hin Hs.
    destruct (firstn_all_or_full 5 titles) as [E | E]; [ left | right; exact E ].
    rewrite E. apply Htitles. eauto.
Qed.

Lemma string_app_assoc (a b c : string) : ((a ++ b) ++ c = a ++ (b ++ c))%string.
Proof. induction a as [| x a IH]; simpl; [ reflexivity | now rewrite IH ]. Qed.

Lemma string_app_empty_r (a : string) : (a ++ "" = a)%string.
Proof. induction a as [| x a IH]; simpl; [ reflexivity | now rewrite IH ]. Qed.

Lemma string_length_app (a b : string) :
  String.length (a ++ b) = String.length a + String.length b.
Proof. induction a as [| x a IH]; simpl; [ reflexivity | now rewrite IH ]. Qed.

Lemma receiveChunk_fold (chunks : list string) :
  forall (full : string) (received : list string),
    fold_left receiveChunk chunks (full, received)
    = ((full ++ fold_right String.append "" chunks)%string, received ++ chunks).
Proof.
  induction chunks as [| c chunks IH]; intros full received; simpl.
  - now rewrite string_app_empty_r, app_nil_r.
  - unfold receiveChunk at 2. cbn [fst snd].
    rewrite IH, string_app_assoc, <- app_assoc. reflexivity.
Qed.

(** X6: the streaming variant hands every chunk of the stream to the
    callback, in order, also the chunks that came before a failure in
    mid-stream; a failure is thrown on with its message unchanged.  When
    the stream ends normally the answer returned is the concatenation of
    what the callback received, untrimmed, and the confidence and the
    sources are those [generateAnswer] returns for the same documents. *)
Theorem generateAnswerStream_returns_what_it_streamed :
  forall (num : Type) (N : JsNumber num) (env : StreamEnv)
         (query mode : string) (docs : list (ScoredChunk num)),
    match llmStream env mode query docs with
    | Throws e => generateAnswerStream env query docs mode = (Throws e, [])
    | Returns (chunks, failure) =>
        snd (generateAnswerStream env query docs mode) = chunks
        /\ match failure with
           | Some e => fst (generateAnswerStream env query docs mode) = Throws e
           | None =>
               exists r,
               fst (generateAnswerStream env query docs mode) = Returns r
               /\ st_answer r = fold_right String.append ""%string chunks
               /\ st_tokenUsage r = estimateTokens (st_answer r)
               /\ st_confidence r = confidenceOf docs
               /\ st_sources r = extractSources docs
               /\ forall (genv : Env num) (history : list (BaseMessage num))
                         (g : GenerationResult num),
                    generateAnswer genv query docs mode history = Returns g ->
                    confidence g = st_confidence r /\ sources g = st_sources r
           end
    end.
Proof.
  intros num N env query mode docs. unfold generateAnswerStream.
  destruct (llmStream env mode query docs) as [[chunks failure] | e];
    [ | reflexivity ].
  rewrite receiveChunk_fold. cbn [app String.append].
  destruct failure as [e |]; cbn [fst snd]; split; try reflexivity.
  eexists. split; [ reflexivity | ]. cbn [st_answer st_tokenUsage st_confidence
                                          st_sources].
  do 4 (split; [ reflexivity | ]).
  intros genv history g Hg.
  unfold generateAnswer, try_catch in Hg.
  destruct (chainInvoke genv mode query docs _); [ | discriminate ].
  injection Hg as <-. split; reflexivity.
Qed.
End SourcesAndStreaming.

(** ** Further properties of the evaluation *)

Section EvaluationScore.
Import VectorStore SelfEvaluation.
Local Open Scope R_scope.

(** In exact arithmetic the score [evaluateAnswer] returns lies in
    [0, 1]. *)
Lemma evaluateAnswer_score_exact (env : Env R) (query answer : string)
      (docs : list (ScoredChunk R)) (confidence : R) :
  0 <= score (evaluateAnswer env query answer docs confidence) <= 1.
Proof.
  unfold evaluateAnswer.
  destruct (llmEvaluate env query answer docs confidence) as [evaluation | e].
  - cbn [score]. unfold zero, one. cbn [num_max num_min of_Z real_number].
    apply clamp_bounds.
  - unfold heuristicEvaluation. cbn [score]. unfold zero, one.
    cbn [num_max num_min of_Z real_number]. apply clamp_bounds.
Qed.

(** On doubles, the score is the clamp of a number that is NaN exactly
    when the score the model reported is, or, in the fallback, when the
    confidence is. *)
Lemma evaluateAnswer_clamps (env : Env float) (query answer : string)
      (docs : list (ScoredChunk float)) (confidence : float) :
  exists x, score (evaluateAnswer env query answer docs confidence) = clamp01 x
    /\ (forall evaluation,
          llmEvaluate env query answer docs confidence = Returns evaluation ->
          is_nan x = is_nan (score evaluation))
    /\ (forall e,
          llmEvaluate env query answer docs confidence = Throws e ->
          is_nan x = is_nan confidence).
Proof.
  unfold evaluateAnswer.
  destruct (llmEvaluate env query answer docs confidence) as [evaluation | e].
  - cbn [score]. eexists. split; [ reflexivity | ].
    split; [ | discriminate ].
    intros ? [= <-]. cbn [is_nan mul double_number].
    repeat match goal with
           | |- context [if ?c then _ else _] => destruct c
           end;
      repeat (erewrite double_is_nan_mul by (vm_compute; reflexivity));
      reflexivity.
  - unfold heuristicEvaluation. cbn [score]. eexists. split; [ reflexivity | ].
    split; [ discriminate | intros _ _ ].
    unfold checkLength, checkKeywords, checkDocuments.
    cbn [is_nan add double_number].
    repeat match goal with
           | |- context [if ?c then _ else _] => destruct c
           | |- context [match ?d with [] => _ | _ :: _ => _ end] => destruct d
           end;
      cbn [t_score];
      (rewrite double_is_nan_add by (vm_compute; exact I));
      (erewrite double_is_nan_mul by (vm_compute; reflexivity)); reflexivity.
Qed.

(** X7: the score [evaluateAnswer] returns, on the doubles the program
    computes with.  A score that is a number lies in [0, 1].  The score
    is NaN exactly when, the language model's evaluation being used, the
    score it reported is not a number, or when, in the fallback, the
    confidence is NaN: [Math.max(0, Math.min(1, NaN))] is NaN. *)
Theorem evaluateAnswer_score_in_unit_interval :
  forall (env : Env float) (query answer : string) (docs : list (ScoredChunk float))
         (confidence : float),
    let s := score (evaluateAnswer env query answer docs confidence) in
    (is_nan s = false -> leb zero s = true /\ leb s one = true)
    /\ (forall evaluation,
          llmEvaluate env query answer docs confidence = Returns evaluation ->
          is_nan s = is_nan (score evaluation))
    /\ (forall e,
          llmEvaluate env query answer docs confidence = Throws e ->
          is_nan s = is_nan confidence).
Proof.
  intros env query answer docs confidence s.
  destruct (evaluateAnswer_clamps env query answer docs confidence)
    as (x & Hs & Hmodel & Hfallback).
  fold s in Hs. destruct (double_clamp01 x) as [Hnan Hrange].
  cbn [is_nan double_number] in *. rewrite Hs, Hnan.
  split; [ exact Hrange | ].
  split; [ exact Hmodel | exact Hfallback ].
Qed.

(** A reply whose JSON has no numeric score parses; the score returned
    is then NaN, whatever the documents and the confidence. *)
Example evaluateAnswer_without_a_numeric_score :
  is_nan (score (evaluateAnswer Inputs.unscoredEvaluator "q" "a" [] 1%float)) = true.
Proof. vm_compute. reflexivity. Qed.

(** X8: when the language model's evaluation is used, its score [s] is
    multiplied by 0.8 if the average retrieval score is below 0.5 -- which
    is always the case when no document was retrieved -- and by 0.9 if the
    confidence is below 0.5, and then clamped to [0, 1]; feedback,
    strengths and improvements are passed on unchanged. *)
Theorem evaluateAnswer_penalties :
  forall (env : Env R) (query answer : string) (docs : list (ScoredChunk R))
         (confidence : R) (evaluation : Evaluation R),
    llmEvaluate env query answer docs confidence = Returns evaluation ->
    let average := sumScores docs / INR (or_one (List.length docs)) in
    exists fd fc : R,
      score (evaluateAnswer env query answer docs confidence)
      = Rmax 0 (Rmin 1 (score evaluation * fd * fc))
      /\ (average < 5 / 10 -> fd = 8 / 10)
      /\ (5 / 10 <= average -> fd = 1)
      /\ (docs = [] -> fd = 8 / 10)
      /\ (confidence < 5 / 10 -> fc = 9 / 10)
      /\ (5 / 10 <= confidence -> fc = 1)
      /\ feedback (evaluateAnswer env query answer docs confidence)
         = feedback evaluation
      /\ strengths (evaluateAnswer env query answer docs confidence)
         = strengths evaluation
      /\ improvements (evaluateAnswer env query answer docs confidence)
         = improvements evaluation.
Proof.
  intros env query answer docs confidence evaluation Hllm average.
  unfold evaluateAnswer. rewrite Hllm.
  cbn [score feedback strengths improvements].
  unfold zero, one, dec, of_nat.
  cbn [num_max num_min ltb mul div of_Z real_number].
  rewrite <- INR_IZR_INZ. fold average.
  exists (if Real.ltb average (5 / 10) then 8 / 10 else 1),
         (if Real.ltb confidence (5 / 10) then 9 / 10 else 1).
  split.
  { f_equal. f_equal.
    destruct (Real.ltb average (5 / 10)), (Real.ltb confidence (5 / 10)); lra. }
  repeat split.
  - intros Hlt. apply real_ltb_true in Hlt. now rewrite Hlt.
  - intros Hge. apply real_ltb_false in Hge. now rewrite Hge.
  - intros ->.
    assert (Hlt : Real.ltb average (5 / 10) = true).
    { apply real_ltb_true. subst average. unfold sumScores, zero.
      cbn [fold_left of_Z real_number List.length or_one INR]. lra. }
    now rewrite Hlt.
  - intros Hlt. apply real_ltb_true in Hlt. now rewrite Hlt.
  - intros Hge. apply real_ltb_false in Hge. now rewrite Hge.
Qed.

Lemma evaluateAnswer_penalties_witness :
  llmEvaluate Inputs.generousEvaluator "q" "a" [] 0
  = Returns {| score := 1; feedback := "Good"; strengths := []; improvements := [] |}
  /\ score (evaluateAnswer Inputs.generousEvaluator "q" "a" [] 0)
     = Rmax 0 (Rmin 1 (1 * (8 / 10) * (9 / 10))).
Proof.
  split; [ reflexivity | ].
  destruct (evaluateAnswer_penalties Inputs.generousEvaluator "q" "a" [] 0 eq_refl)
    as (fd & fc & Hs & _ & _ & Hd & Hc & _).
  rewrite Hs, (Hd eq_refl), Hc by lra. reflexivity.
Defined.
End EvaluationScore.

Section BestAnswer.
Import SelfEvaluation.

Lemma reduceHighest_in_range {num : Type} `{JsNumber num}
      (arr : list CandidateAnswer) (rest : list CandidateAnswer) :
  forall idx maxIdx,
    maxIdx < List.length arr ->
    idx + List.length rest = List.length arr ->
    reduceHighest arr rest idx maxIdx < List.length arr.
Proof.
  induction rest as [| ans rest IH]; intros idx maxIdx Hmax Hidx; simpl in *.
  - assumption.
  - apply IH; [ | lia ].
    destruct (nth_error arr maxIdx) as [best |]; [ | assumption ].
    destruct (gtb (ca_confidence ans) (ca_confidence best)); lia.
Qed.

(** X9: for a non-empty list of candidate answers [selectBestAnswer]
    always returns a valid index, whatever the language model replies or
    however it fails; and when the reply starts with a number between 1
    and the number of answers, the index returned is that number minus
    one. *)
Theorem selectBestAnswer_returns_valid_index :
  forall (num : Type) (N : JsNumber num) (env : SelectionEnv)
         (query context : string) (answers : list CandidateAnswer),
    answers <> [] ->
    selectBestAnswer env query answers context < List.length answers
    /\ forall reply parsed,
         llmSelect env query answers context = Returns reply ->
         Js.parseInt (Js.trim reply) = Some parsed ->
         (1 <= parsed <= Z.of_nat (List.length answers))%Z ->
         selectBestAnswer env query answers context = Z.to_nat (parsed - 1).
Proof.
  intros num N env query context answers Hne.
  assert (Hlen : 0 < List.length answers) by (destruct answers; simpl; [ congruence | lia ]).
  assert (Hfallback : highestConfidence answers < List.length answers).
  { unfold highestConfidence. apply reduceHighest_in_range; [ assumption | reflexivity ]. }
  unfold selectBestAnswer. split.
  - destruct (llmSelect env query answers context) as [reply | e]; [ | assumption ].
    destruct (Js.parseInt (Js.trim reply)) as [parsed |]; [ | assumption ].
    destruct (Z.ltb_spec (parsed - 1) 0) as [Hneg | Hpos]; cbn [orb];
      [ assumption | ].
    destruct (Z.leb_spec (Z.of_nat (List.length answers)) (parsed - 1));
      [ assumption | lia ].
  - intros reply parsed -> -> [Hlo Hhi].
    destruct (Z.ltb_spec (parsed - 1) 0) as [Hneg | Hpos]; [ lia | ]. cbn [orb].
    destruct (Z.leb_spec (Z.of_nat (List.length answers)) (parsed - 1));
      [ lia | reflexivity ].
Qed.

Lemma selectBestAnswer_returns_valid_index_witness :
  [Inputs.candidate "a" 0.5%float; Inputs.candidate "b" 0.25%float] <> []
  /\ selectBestAnswer Inputs.secondSelector "q"
       [Inputs.candidate "a" 0.5%float; Inputs.candidate "b" 0.25%float] "ctx" = 1
  /\ selectBestAnswer Inputs.secondSelector "q"
       [Inputs.candidate "a" 0.5%float; Inputs.candidate "b" 0.25%float] "ctx" < 2.
Proof.
  split; [ discriminate | ]. split; [ vm_compute; reflexivity | ].
  refine (proj1 (@selectBestAnswer_returns_valid_index float double_number
                   Inputs.secondSelector "q" "ctx"
                   [Inputs.candidate "a" 0.5%float; Inputs.candidate "b" 0.25%float]
                   _)).
  discriminate.
Defined.

Local Open Scope R_scope.

Lemma reduceHighest_first_highest (arr : list (CandidateAnswer (num := R))) :
  forall rest pre maxIdx best,
    arr = (pre ++ rest)%list ->
    nth_error arr maxIdx = Some best ->
    (forall j a, (j < List.length pre)%nat -> nth_error arr j = Some a ->
                 ca_confidence a <= ca_confidence best) ->
    (forall j a, (j < maxIdx)%nat -> nth_error arr j = Some a ->
                 ca_confidence a < ca_confidence best) ->
    (maxIdx <= List.length pre)%nat ->
    exists best',
      nth_error arr (reduceHighest arr rest (List.length pre) maxIdx) = Some best'
      /\ (forall j a, nth_error arr j = Some a ->
                      ca_confidence a <= ca_confidence best')
      /\ (forall j a, (j < reduceHighest arr rest (List.length pre) maxIdx)%nat ->
                      nth_error arr j = Some a ->
                      ca_confidence a < ca_confidence best').
Proof.
  induction rest as [| ans rest IH]; intros pre maxIdx best Harr Hbest Hle Hlt Hidx.
  - cbn [reduceHighest]. exists best. split; [ assumption | ]. split; [ | assumption ].
    intros j a Hj. apply (Hle j a); [ | assumption ].
    rewrite app_nil_r in Harr. subst arr.
    apply nth_error_Some. congruence.
  - cbn [reduceHighest]. rewrite Hbest.
    assert (Hans : nth_error arr (List.length pre) = Some ans).
    { subst arr. rewrite nth_error_app2 by lia. now rewrite Nat.sub_diag. }
    assert (Harr' : arr = ((pre ++ [ans]) ++ rest)%list)
      by (rewrite <- app_assoc; exact Harr).
    assert (Hlen' : List.length (pre ++ [ans]) = S (List.length pre))
      by (rewrite length_app; simpl; lia).
    cbn [gtb ltb real_number].
    destruct (Real.ltb (ca_confidence best) (ca_confidence ans)) eqn:E.
    + apply real_ltb_true in E.
      rewrite <- Hlen'.
      apply (IH (pre ++ [ans])%list (List.length pre) ans Harr' Hans).
      * intros j a Hj Ha. rewrite Hlen' in Hj.
        destruct (Nat.eq_dec j (List.length pre)) as [-> | Hne].
        -- rewrite Hans in Ha. injection Ha as <-. lra.
        -- specialize (Hle j a ltac:(lia) Ha). lra.
      * intros j a Hj Ha. specialize (Hle j a Hj Ha). lra.
      * rewrite Hlen'. lia.
    + apply real_ltb_false in E.
      rewrite <- Hlen'.
      apply (IH (pre ++ [ans])%list maxIdx best Harr' Hbest).
      * intros j a Hj Ha. rewrite Hlen' in Hj.
        destruct (Nat.eq_dec j (List.length pre)) as [-> | Hne].
        -- rewrite Hans in Ha. injection Ha as <-. exact E.
        -- apply (Hle j a); [ lia | assumption ].
      * assumption.
      * rewrite Hlen'. lia.
Qed.

(** X10: when the language model fails, or its reply does not start with
    a number between 1 and the number of answers, [selectBestAnswer] falls
    back on the confidence: for a non-empty list it returns the index of
    an answer of highest confidence, and the first such index. *)
Theorem selectBestAnswer_falls_back_on_highest_confidence :
  forall (env : SelectionEnv (num := R)) (query context : string)
         (answers : list (CandidateAnswer (num := R))),
    answers <> [] ->
    match llmSelect env query answers context with
    | Throws _ => True
    | Returns reply =>
        match Js.parseInt (Js.trim reply) with
        | None => True
        | Some parsed => (parsed < 1 \/ Z.of_nat (List.length answers) < parsed)%Z
        end
    end ->
    exists best,
      nth_error answers (selectBestAnswer env query answers context) = Some best
      /\ (forall j a, nth_error answers j = Some a ->
                      ca_confidence a <= ca_confidence best)
      /\ (forall j a, (j < selectBestAnswer env query answers context)%nat ->
                      nth_error answers j = Some a ->
                      ca_confidence a < ca_confidence best).
Proof.
  intros env query context answers Hne Hfallback.
  assert (Hsel : selectBestAnswer env query answers context
                 = highestConfidence answers).
  { unfold selectBestAnswer.
    destruct (llmSelect env query answers context) as [reply | e]; [ | reflexivity ].
    destruct (Js.parseInt (Js.trim reply)) as [parsed |]; [ | reflexivity ].
    destruct (Z.ltb_spec (parsed - 1) 0) as [Hneg | Hpos]; [ reflexivity | ].
    cbn [orb].
    destruct (Z.leb_spec (Z.of_nat (List.length answers)) (parsed - 1));
      [ reflexivity | lia ]. }
  rewrite Hsel. unfold highestConfidence.
  destruct answers as [| first others]; [ congruence | ].
  apply reduceHighest_first_highest with (pre := @nil CandidateAnswer) (best := first).
  - reflexivity.
  - reflexivity.
  - intros j a Hj. simpl in Hj. lia.
  - intros j a Hj. lia.
  - simpl. lia.
Qed.

Lemma selectBestAnswer_falls_back_on_highest_confidence_witness :
  [Inputs.candidate "a" 1; Inputs.candidate "b" 3; Inputs.candidate "c" 3] <> []
  /\ exists best,
      nth_error [Inputs.candidate "a" 1; Inputs.candidate "b" 3; Inputs.candidate "c" 3]
                (selectBestAnswer Inputs.failingSelector "q"
                   [Inputs.candidate "a" 1; Inputs.candidate "b" 3;
                    Inputs.candidate "c" 3] "ctx") = Some best
      /\ forall j a,
           nth_error [Inputs.candidate "a" 1; Inputs.candidate "b" 3;
                      Inputs.candidate "c" 3] j = Some a ->
           ca_confidence a <= ca_confidence best.
Proof.
  split; [ discriminate | ].
  destruct (@selectBestAnswer_falls_back_on_highest_confidence
              Inputs.failingSelector "q" "ctx"
              [Inputs.candidate "a" 1; Inputs.candidate "b" 3; Inputs.candidate "c" 3]
              ltac:(discriminate) I)
    as (best & Hbest & Hmax & _).
  exists best. split; assumption.
Defined.
End BestAnswer.

(** ** Further properties of the refinement store *)

Section RefinementLearning.
Import QueryRefinement.
Context {num : Type} `{JsNumber num}.

Lemma sameApartFromUsage_refl (table : Table num) :
  Forall2 sameApartFromUsage table table.
Proof.
  induction table as [| r table IH]; constructor; [ | exact IH ].
  unfold sameApartFromUsage. repeat split; reflexivity || lia.
Qed.

Lemma incrementUsage_sameApartFromUsage (env : Env num) (id : nat) (table : Table num) :
  Forall2 sameApartFromUsage table (incrementUsage env id table).
Proof.
  induction table as [| r table IH]; simpl; constructor; [ | exact IH ].
  unfold sameApartFromUsage.
  destruct (ref_id r =? id)%nat; simpl; repeat split; reflexivity || lia.
Qed.

Lemma storeRefinementAttempt_rows (env : Env num) (table : Table num)
      (query refined mode : string) (subject : option string) :
  exists updated added,
    storeRefinementAttempt env table query refined mode subject
    = (updated ++ added)%list
    /\ Forall2 sameApartFromUsage table updated
    /\ (added = []
        \/ added = [newRefinement env table query refined mode subject]).
Proof.
  unfold storeRefinementAttempt.
  destruct (findFirstFails env).
  { exists table, []. rewrite app_nil_r.
    split; [ reflexivity | split; [ apply sameApartFromUsage_refl | now left ] ]. }
  destruct (find (sameRefinement query refined mode subject) table) as [existing |];
    destruct (writeFails env).
  - exists table, []. rewrite app_nil_r.
    split; [ reflexivity | split; [ apply sameApartFromUsage_refl | now left ] ].
  - exists (incrementUsage env (ref_id existing) table), []. rewrite app_nil_r.
    split; [ reflexivity
           | split; [ apply incrementUsage_sameApartFromUsage | now left ] ].
  - exists table, []. rewrite app_nil_r.
    split; [ reflexivity | split; [ apply sameApartFromUsage_refl | now left ] ].
  - exists table, [newRefinement env table query refined mode subject].
    split; [ reflexivity | split; [ apply sameApartFromUsage_refl | now right ] ].
Qed.

Lemma refineQuery_rows (env : Env num) (table : Table num)
      (query mode : string) (subject : option string) (attempt : nat) :
  exists updated added,
    snd (refineQuery env table query mode subject attempt) = (updated ++ added)%list
    /\ Forall2 sameApartFromUsage table updated
    /\ (added = []
        \/ added = [newRefinement env table query
                      (fst (refineQuery env table query mode subject attempt))
                      mode subject]).
Proof.
  assert (Hsame : exists updated added : Table num,
             table = (updated ++ added)%list
             /\ Forall2 sameApartFromUsage table updated
             /\ (added = []
                 \/ added = [newRefinement env table query query mode subject])).
  { exists table, []. rewrite app_nil_r.
    split; [ reflexivity | split; [ apply sameApartFromUsage_refl | now left ] ]. }
  unfold refineQuery.
  destruct (attempt =? 0)%nat; [ exact Hsame | ].
  destruct (findHistorical env table mode subject) as [history | e];
    [ | exact Hsame ].
  match goal with
  | |- context [llmRewrite env ?request] =>
      destruct (llmRewrite env request) as [content | e]
  end; [ | exact Hsame ].
  cbn [fst snd]. apply storeRefinementAttempt_rows.
Qed.

(** X11: [refineQuery] only ever counts usage: every row that was in the
    table is still there, in place, with the same queries, mode, subject
    and improvement score and a usage count that did not decrease; at most
    one row is appended, for the original query and the refined query
    returned, and it has no improvement score and the usage count 1. *)
Theorem refineQuery_only_counts_usage :
  forall (env : Env num) (table : Table num) (query mode : string)
         (subject : option string) (attemptNumber : nat),
    exists updated added,
      snd (refineQuery env table query mode subject attemptNumber)
      = (updated ++ added)%list
      /\ Forall2 sameApartFromUsage table updated
      /\ (added = []
          \/ exists r,
               added = [r]
               /\ originalQuery r = query
               /\ refinedQuery r
                  = fst (refineQuery env table query mode subject attemptNumber)
               /\ ref_mode r = mode
               /\ ref_subject r = subject
               /\ improvementScore r = None
               /\ usageCount r = 1%nat).
Proof.
  intros env table query mode subject attemptNumber.
  destruct (refineQuery_rows env table query mode subject attemptNumber)
    as (updated & added & Heq & Hrows & Hadded).
  exists updated, added. split; [ exact Heq | ]. split; [ exact Hrows | ].
  destruct Hadded as [-> | ->]; [ now left | right ].
  eexists. split; [ reflexivity | ]. cbn. repeat split; reflexivity.
Qed.

Lemma sameApartFromUsage_unscored (table updated : Table num) :
  Forall2 sameApartFromUsage table updated ->
  Forall unscored table -> Forall unscored updated.
Proof.
  induction 1 as [| old new table updated Hsame _ IH]; intros Hall;
    [ constructor | ].
  inversion Hall as [| ? ? [Hscore Husage] Hrest]; subst.
  constructor; [ | now apply IH ].
  destruct Hsame as (_ & _ & _ & _ & _ & Hs & Hu).
  split; [ congruence | lia ].
Qed.

Lemma refineQuery_unscored (env : Env num) (table : Table num)
      (query mode : string) (subject : option string) (attempt : nat) :
  Forall unscored table ->
  Forall unscored (snd (refineQuery env table query mode subject attempt)).
Proof.
  intros Hall.
  destruct (refineQuery_rows env table query mode subject attempt)
    as (updated & added & -> & Hrows & Hadded).
  apply Forall_app. split.
  - eapply sameApartFromUsage_unscored; eassumption.
  - destruct Hadded as [-> | ->]; [ constructor | ].
    constructor; [ | constructor ]. split; cbn; [ reflexivity | lia ].
Qed.

Lemma afterCalls_unscored
      (calls : list (Env num * string * string * option string * nat)) :
  forall table : Table num,
    Forall unscored table -> Forall unscored (afterCalls calls table).
Proof.
  induction calls as [| [[[[env query] mode] subject] attempt] calls IH];
    intros table Hall; [ exact Hall | ].
  cbn [afterCalls fold_left]. apply IH. now apply refineQuery_unscored.
Qed.

Lemma findHistorical_nothing_qualifies (env : Env num) (table : Table num)
      (mode : string) (subject : option string) :
  Forall (fun r => scoreAtLeast r (dec 7 10) = false) table ->
  match findHistorical env table mode subject with
  | Returns examples => examples = []
  | Throws _ => True
  end.
Proof.
  intros Hall. unfold findHistorical.
  destruct (findManyFails env); [ exact I | ].
  match goal with
  | |- firstn 5 (fold_right insertOrdered [] (filter ?p table)) = [] =>
      assert (Hnone : filter p table = [])
  end.
  { induction Hall as [| r table Hr _ IH]; [ reflexivity | ].
    cbn [filter]. rewrite Hr, andb_false_r. exact IH. }
  rewrite Hnone. reflexivity.
Qed.

(** X12: calls of [refineQuery] alone never teach the store anything:
    starting from the empty table, after any series of calls, with
    whatever language model and arguments, the lookup of successful
    refinements still finds no example (or fails). *)
Theorem refineQuery_alone_never_learns :
  forall (calls : list (Env num * string * string * option string * nat))
         (env : Env num) (mode : string) (subject : option string),
    match findHistorical env (afterCalls calls []) mode subject with
    | Returns examples => examples = []
    | Throws _ => True
    end.
Proof.
  intros calls env mode subject.
  apply findHistorical_nothing_qualifies.
  assert (Hall : Forall unscored (afterCalls calls ([] : Table num)))
    by (apply afterCalls_unscored; constructor).
  eapply Forall_impl; [ | exact Hall ].
  intros r [Hscore _]. unfold scoreAtLeast. now rewrite Hscore.
Qed.
End RefinementLearning.

Section RefinementFeedback.
Import QueryRefinement.
Local Open Scope string_scope.
Local Open Scope R_scope.

Lemma real_leb_false (x y : R) : Real.leb x y = false <-> y < x.
Proof. unfold Real.leb. destruct (Rle_dec x y); split; intros; try congruence; lra. Qed.

Lemma or_zero_real (x : option R) :
  or_zero x = match x with Some v => v | None => 0 end.
Proof.
  destruct x as [v |]; [ | reflexivity ].
  unfold or_zero, zero. cbn [eqb is_nan of_Z real_number]. rewrite orb_false_r.
  destruct (Real.eqb v 0) eqn:E; [ | reflexivity ].
  apply real_eqb_true in E. now subst.
Qed.

Lemma setScore_rows (id : nat) (x : R) (P : Refinement R -> Prop) (table : Table R) :
  Forall P table ->
  (forall r, P r ->
             P {| ref_id := ref_id r;
                  originalQuery := originalQuery r;
                  refinedQuery := refinedQuery r;
                  ref_mode := ref_mode r;
                  ref_subject := ref_subject r;
                  improvementScore := Some x;
                  usageCount := usageCount r;
                  lastUsed := lastUsed r |}) ->
  Forall P (setScore id x table).
Proof.
  intros Hall Hset. unfold setScore. apply Forall_map.
  eapply Forall_impl; [ | exact Hall ].
  intros r Hr. destruct (ref_id r =? id)%nat; [ now apply Hset | exact Hr ].
Qed.

Lemma weighted_average_bounds (c s : R) (n : nat) :
  0 <= c <= 1 -> 0 <= s <= 1 ->
  0 <= (c * IZR (Z.of_nat n) + s) / IZR (Z.of_nat (n + 1)) <= 1.
Proof.
  intros Hc Hs. rewrite <- !INR_IZR_INZ, plus_INR. cbn [INR].
  pose proof (pos_INR n) as Hn.
  assert (Hpos : 0 < INR n + 1) by lra.
  split.
  - apply Rmult_le_pos; [ nra | left; now apply Rinv_0_lt_compat ].
  - apply (Rmult_le_reg_r (INR n + 1)); [ exact Hpos | ].
    unfold Rdiv. rewrite Rmult_assoc, Rinv_l by lra. nra.
Qed.

(** X13: in exact arithmetic [updateRefinementScore] keeps the improvement
    scores in [0, 1]: if every score in the table lies in [0, 1] and the
    observed score does too, every score in the table afterwards lies in
    [0, 1]. *)
Theorem updateRefinementScore_keeps_scores_in_unit_interval :
  forall (env : Env R) (table : Table R) (query refined mode : string) (observed : R),
    Forall (fun r => forall x, improvementScore r = Some x -> 0 <= x <= 1) table ->
    0 <= observed <= 1 ->
    Forall (fun r => forall x, improvementScore r = Some x -> 0 <= x <= 1)
           (updateRefinementScore env table query refined mode observed).
Proof.
  intros env table query refined mode observed Hall Hobs.
  unfold updateRefinementScore.
  destruct (findFirstFails env); [ exact Hall | ].
  destruct (find (sameRefinement query refined mode None) table) as [r |] eqn:Hfind;
    [ | exact Hall ].
  destruct (writeFails env); [ exact Hall | ].
  apply setScore_rows; [ exact Hall | ].
  intros r' _ x Hx. cbn [improvementScore] in Hx. injection Hx as <-.
  rewrite or_zero_real. unfold of_nat. cbn [div add mul of_Z real_number].
  apply weighted_average_bounds; [ | exact Hobs ].
  apply find_some in Hfind. destruct Hfind as [Hin _].
  rewrite Forall_forall in Hall. specialize (Hall r Hin).
  destruct (improvementScore r) as [v |]; [ now apply Hall | lra ].
Qed.

Lemma updateRefinementScore_keeps_scores_in_unit_interval_witness :
  Forall (fun r : Refinement R => forall x, improvementScore r = Some x -> 0 <= x <= 1)
         (updateRefinementScore Inputs.feedbackEnv (afterCalls Inputs.oneCall [])
            "Solve EQ" "solve the linear equation" "math_solver" 1).
Proof.
  apply updateRefinementScore_keeps_scores_in_unit_interval; [ | lra ].
  unfold afterCalls, Inputs.oneCall. cbn [fold_left].
  match goal with
  | |- Forall _ (snd ?call) =>
      let rows := eval vm_compute in (snd call) in
      change (snd call) with rows
  end.
  constructor; [ | constructor ]. cbn [improvementScore]. discriminate.
Defined.

(** X14: one feedback is never enough.  After any series of [refineQuery]
    calls on an empty table and one call of [updateRefinementScore] with
    an observed score of at most 1, the lookup of successful refinements
    (improvement score at least 0.7) still finds no example: the first
    feedback on a row is averaged with a score of 0 weighted by the usage
    count. *)
Theorem first_feedback_never_qualifies :
  forall (calls : list (Env R * string * string * option string * nat))
         (env env' : Env R) (query refined mode mode' : string)
         (subject' : option string) (observed : R),
    observed <= 1 ->
    match findHistorical env'
            (updateRefinementScore env (afterCalls calls []) query refined mode observed)
            mode' subject' with
    | Returns examples => examples = []
    | Throws _ => True
    end.
Proof.
  intros calls env env' query refined mode mode' subject' observed Hobs.
  apply findHistorical_nothing_qualifies.
  assert (Hall : Forall unscored (afterCalls calls ([] : Table R)))
    by (apply afterCalls_unscored; constructor).
  assert (Hlow : forall r : Refinement R,
             unscored r -> scoreAtLeast r (dec 7 10) = false).
  { intros r [Hscore _]. unfold scoreAtLeast. now rewrite Hscore. }
  unfold updateRefinementScore.
  destruct (findFirstFails env);
    [ eapply Forall_impl; [ exact Hlow | exact Hall ] | ].
  destruct (find (sameRefinement query refined mode None) (afterCalls calls []))
    as [r |] eqn:Hfind;
    [ | eapply Forall_impl; [ exact Hlow | exact Hall ] ].
  destruct (writeFails env);
    [ eapply Forall_impl; [ exact Hlow | exact Hall ] | ].
  apply find_some in Hfind. destruct Hfind as [Hin _].
  rewrite Forall_forall in Hall. destruct (Hall r Hin) as [Hscore Husage].
  apply setScore_rows.
  - apply Forall_forall. intros r' Hr'. apply Hlow. now apply Hall.
  - intros r' _. unfold scoreAtLeast. cbn [improvementScore].
    rewrite Hscore. unfold or_zero, zero, dec, of_nat.
    cbn [div add mul leb of_Z real_number].
    apply real_leb_false.
    rewrite <- !INR_IZR_INZ, plus_INR. cbn [INR].
    assert (Hn : 1 <= INR (usageCount r)).
    { replace 1 with (INR 1) by reflexivity. now apply le_INR. }
    apply (Rmult_lt_reg_r (INR (usageCount r) + 1)); [ lra | ].
    unfold Rdiv at 1. rewrite Rmult_assoc, Rinv_l by lra. nra.
Qed.

Lemma first_feedback_never_qualifies_witness :
  findHistorical Inputs.feedbackEnv
    (updateRefinementScore Inputs.feedbackEnv (afterCalls Inputs.oneCall [])
       "Solve EQ" "solve the linear equation" "math_solver" 1)
    "math_solver" (Some "math")
  = Returns [].
Proof.
  pose proof (@first_feedback_never_qualifies Inputs.oneCall Inputs.feedbackEnv
                Inputs.feedbackEnv "Solve EQ" "solve the linear equation"
                "math_solver" "math_solver" (Some "math") 1 ltac:(lra)) as Hnone.
  destruct (findHistorical Inputs.feedbackEnv
              (updateRefinementScore Inputs.feedbackEnv (afterCalls Inputs.oneCall [])
                 "Solve EQ" "solve the linear equation" "math_solver" 1)
              "math_solver" (Some "math")) as [examples | e] eqn:E.
  - now subst.
  - unfold findHistorical in E. cbn [findManyFails Inputs.feedbackEnv] in E.
    discriminate.
Defined.
End RefinementFeedback.

Section HistoricalLookup.
Import QueryRefinement.
Local Open Scope string_scope.
Context {num : Type} `{JsNumber num}.

Lemma insertOrdered_perm (x : Refinement num) (l : Table num) :
  Permutation (x :: l) (insertOrdered x l).
Proof.
  induction l as [| y l IH]; simpl; [ reflexivity | ].
  destruct (precedes y x); [ | reflexivity ].
  rewrite perm_swap. now constructor.
Qed.

Lemma ordered_perm (l : Table num) :
  Permutation l (fold_right insertOrdered [] l).
Proof.
  induction l as [| x l IH]; simpl; [ constructor | ].
  rewrite <- insertOrdered_perm. now constructor.
Qed.

Lemma precedes_usage (a b : Refinement num) :
  precedes a b = true -> (usageCount b <= usageCount a)%nat.
Proof.
  unfold precedes. intros Hp. apply orb_true_iff in Hp.
  destruct Hp as [Hlt | Heq].
  - apply Nat.ltb_lt in Hlt. lia.
  - apply andb_true_iff in Heq. destruct Heq as [Heq _].
    apply Nat.eqb_eq in Heq. lia.
Qed.

Lemma not_precedes_usage (a b : Refinement num) :
  precedes a b = false -> (usageCount a <= usageCount b)%nat.
Proof.
  unfold precedes. intros Hp. apply orb_false_iff in Hp.
  destruct Hp as [Hlt _]. apply Nat.ltb_ge in Hlt. exact Hlt.
Qed.

Lemma insertOrdered_sorted (x : Refinement num) (l : Table num) :
  StronglySorted (fun a b => (usageCount b <= usageCount a)%nat) l ->
  StronglySorted (fun a b => (usageCount b <= usageCount a)%nat) (insertOrdered x l).
Proof.
  induction 1 as [| y l Hsorted IH Hy]; simpl.
  - constructor; constructor.
  - destruct (precedes y x) eqn:E.
    + constructor; [ exact IH | ].
      apply precedes_usage in E.
      rewrite <- (insertOrdered_perm x l). constructor; assumption.
    + apply not_precedes_usage in E.
      constructor; [ constructor; assumption | ].
      constructor; [ exact E | ].
      eapply Forall_impl; [ | exact Hy ]. cbn. intros z Hz. lia.
Qed.

Lemma ordered_sorted (l : Table num) :
  StronglySorted (fun a b => (usageCount b <= usageCount a)%nat)
                 (fold_right insertOrdered [] l).
Proof.
  induction l as [| x l IH]; simpl; [ constructor | ].
  now apply insertOrdered_sorted.
Qed.


(** X15: what the lookup of successful refinements returns.  At most five
    rows, each a row of the table with the mode asked for (and the subject,
    when one is given) and an improvement score of at least 0.7, ordered by
    decreasing usage count; and a row of the table that qualifies is left
    out only if five rows were returned, none of them used less. *)
Theorem findHistorical_most_used_successful :
  forall (env : Env num) (table : Table num) (mode : string)
         (subject : option string) (examples : Table num),
    findHistorical env table mode subject = Returns examples ->
    (List.length examples <= 5)%nat
    /\ (forall r, In r examples ->
          In r table
          /\ ref_mode r = mode
          /\ (forall s, subject = Some s -> Js.truthy s = true -> ref_subject r = Some s)
          /\ exists x, improvementScore r = Some x /\ leb (dec 7 10) x = true)
    /\ StronglySorted (fun a b => (usageCount b <= usageCount a)%nat) examples
    /\ (forall r x,
          In r table ->
          ref_mode r = mode ->
          (forall s, subject = Some s -> Js.truthy s = true -> ref_subject r = Some s) ->
          improvementScore r = Some x ->
          leb (dec 7 10) x = true ->
          In r examples
          \/ (List.length examples = 5%nat
              /\ forall r', In r' examples -> (usageCount r <= usageCount r')%nat)).
Proof.
  intros env table mode subject examples. unfold findHistorical.
  destruct (findManyFails env); [ discriminate | ].
  match goal with
  | |- Returns (firstn 5 (fold_right insertOrdered [] (filter ?p table))) = _ -> _ =>
      set (matches := p)
  end.
  intros Hret.
  set (ordered := fold_right insertOrdered [] (filter matches table)) in *.
  assert (Hex : examples = firstn 5 ordered) by congruence.
  clear Hret. subst examples.
  assert (Hperm : Permutation (filter matches table) ordered) by apply ordered_perm.
  destruct (sorted_cut 5 (ordered_sorted (filter matches table)))
    as [Hfirst Hcut]. fold ordered in Hfirst, Hcut.
  split; [ apply firstn_le_length | ]. split; [ | split; [ exact Hfirst | ] ].
  - intros r Hr. apply In_firstn in Hr.
    apply (Permutation_in _ (Permutation_sym Hperm)) in Hr.
    apply filter_In in Hr. destruct Hr as [Hin Hm]. subst matches. cbn in Hm.
    apply andb_true_iff in Hm. destruct Hm as [Hm Hscore].
    apply andb_true_iff in Hm. destruct Hm as [Hmode Hsubject].
    split; [ exact Hin | ]. split; [ now apply String.eqb_eq | ]. split.
    + intros s -> Hs. rewrite Hs in Hsubject. unfold subjectIs in Hsubject.
      destruct (ref_subject r) as [s' |]; [ | discriminate ].
      apply String.eqb_eq in Hsubject. now subst.
    + unfold scoreAtLeast in Hscore.
      destruct (improvementScore r) as [x |]; [ | discriminate ].
      exists x. split; [ reflexivity | exact Hscore ].
  - intros r x Hin Hmode Hsubject Hscore Hx.
    assert (Hm : matches r = true).
    { subst matches. cbn. rewrite (proj2 (String.eqb_eq _ _) Hmode).
      unfold scoreAtLeast. rewrite Hscore, Hx, andb_true_r. cbn [andb].
      destruct subject as [s |]; [ | reflexivity ].
      destruct (Js.truthy s) eqn:Hs; [ | reflexivity ].
      unfold subjectIs. rewrite (Hsubject s eq_refl Hs).
      apply String.eqb_refl. }
    assert (Hord : In r ordered).
    { apply (Permutation_in _ Hperm). apply filter_In. now split. }
    rewrite <- (firstn_skipn 5 ordered) in Hord.
    apply in_app_or in Hord. destruct Hord as [Hkept | Hcutoff]; [ now left | right ].
    split.
    + assert (Hlen : (5 < List.length ordered)%nat).
      { destruct (Nat.le_gt_cases (List.length ordered) 5) as [Hle | Hgt];
          [ | exact Hgt ].
        rewrite skipn_all2 in Hcutoff by exact Hle. destruct Hcutoff. }
      rewrite length_firstn. lia.
    + intros r' Hr'. exact (Hcut r' r Hr' Hcutoff).
Qed.

End HistoricalLookup.

Section HistoricalLookupExample.
Import QueryRefinement.
Local Open Scope string_scope.

Lemma findHistorical_most_used_successful_witness :
  findHistorical Inputs.workingRewriter [Inputs.learnedRow; Inputs.provenRow]
                 "math_solver" (Some "math")
  = Returns [Inputs.provenRow]
  /\ (List.length [Inputs.provenRow] <= 5)%nat.
Proof.
  split; [ vm_compute; reflexivity | ].
  refine (proj1 (@findHistorical_most_used_successful float double_number
                   Inputs.workingRewriter [Inputs.learnedRow; Inputs.provenRow]
                   "math_solver" (Some "math") [Inputs.provenRow] _)).
  vm_compute. reflexivity.
Defined.
End HistoricalLookupExample.

(** ** Further properties of the chunker *)

Section ChunkerInvariants.
Import DocumentProcessing.
Local Open Scope string_scope.

Lemma truthy_false (s : string) : Js.truthy s = false -> s = "".
Proof.
  unfold Js.truthy. intros Hs. apply negb_false_iff in Hs.
  now apply String.eqb_eq in Hs.
Qed.

Lemma truthy_true (s : string) : Js.truthy s = true -> s <> "".
Proof.
  unfold Js.truthy. intros Hs. apply negb_true_iff in Hs.
  now apply String.eqb_neq in Hs.
Qed.

(** A property that every iteration of the loop keeps holds when the loop
    ends. *)
Lemma forLoop_invariant (options : ChunkOptions) (sentences : list string)
      (n : nat) (P : nat -> LoopState -> Prop) :
  (forall i st, (i < n)%nat -> P i st -> P (S i) (loopBody options sentences i st)) ->
  forall steps i st,
    (i + steps = n)%nat -> P i st -> P n (forLoop options sentences i steps st).
Proof.
  intros Hstep. induction steps as [| steps IH]; intros i st Hn HP; cbn [forLoop].
  - replace n with i by lia. exact HP.
  - apply IH; [ lia | ]. apply Hstep; [ lia | exact HP ].
Qed.

Lemma occursIn_app_r (s x y : string) : occursIn s x -> occursIn s (x ++ y).
Proof.
  intros (pre & post & ->). exists pre, (post ++ y).
  now rewrite !string_app_assoc.
Qed.

Lemma occursIn_suffix (s x : string) : occursIn s (x ++ s).
Proof. exists x, "". now rewrite string_app_empty_r. Qed.

Lemma occursIn_empty (s : string) : occursIn s "" -> s = "".
Proof.
  intros (pre & post & Heq). destruct pre; [ | discriminate ].
  destruct s; [ reflexivity | discriminate ].
Qed.

(** X16: the chunker loses no sentence: every sentence the text is split
    into occurs, trimmed, in the content of some chunk, whatever the size
    bound is. *)
Theorem chunkDocument_keeps_every_sentence :
  forall (text : string) (options : ChunkOptions) (sentence : string),
    In sentence (splitSentences text) ->
    Js.trim sentence <> "" ->
    exists c, In c (chunkDocument text options)
              /\ occursIn (Js.trim sentence) (content c).
Proof.
  intros text options sentence Hin Hne.
  set (sentences := splitSentences text).
  set (covered := fun (s : string) (st : LoopState) =>
                    s = "" \/ occursIn s (currentChunk st)
                    \/ exists c, In c (chunks st) /\ occursIn s (content c)).
  assert (Hloop : forall j, (j < List.length sentences)%nat ->
                    covered (Js.trim (nth j sentences ""))
                      (forLoop options sentences 0 (List.length sentences)
                         {| chunks := []; currentChunk := ""; nextIndex := 0 |})).
  { apply (forLoop_invariant options sentences
             (fun i st => forall j, (j < i)%nat ->
                                    covered (Js.trim (nth j sentences "")) st)).
    - intros i st Hi Hinv j Hj. unfold loopBody.
      destruct (Nat.eq_dec j i) as [-> | Hji].
      + destruct (String.length (currentChunk st ++ " " ++ Js.trim (nth i sentences ""))
                  <=? chunkSize options)%nat.
        * right. left. cbn [currentChunk].
          rewrite <- string_app_assoc. apply occursIn_suffix.
        * right. left. cbn [currentChunk].
          rewrite <- string_app_assoc. apply occursIn_suffix.
      + assert (Hold : covered (Js.trim (nth j sentences "")) st)
          by (apply Hinv; lia).
        destruct (String.length (currentChunk st ++ " " ++ Js.trim (nth i sentences ""))
                  <=? chunkSize options)%nat.
        * destruct Hold as [Hempty | [Hcur | Hchunk]].
          -- now left.
          -- right. left. cbn [currentChunk]. now apply occursIn_app_r.
          -- right. right. exact Hchunk.
        * destruct (Js.truthy (currentChunk st)) eqn:Htruthy.
          -- destruct Hold as [Hempty | [Hcur | (c & Hc & Hocc)]].
             ++ now left.
             ++ right. right. cbn [chunks pushChunk].
                eexists. split; [ apply in_or_app; right; left; reflexivity | ].
                exact Hcur.
             ++ right. right. cbn [chunks pushChunk].
                exists c. split; [ apply in_or_app; now left | exact Hocc ].
          -- destruct Hold as [Hempty | [Hcur | Hchunk]].
             ++ now left.
             ++ left. apply occursIn_empty.
                now rewrite (truthy_false _ Htruthy) in Hcur.
             ++ right. right. exact Hchunk.
    - reflexivity.
    - intros j Hj. lia. }
  destruct (In_nth sentences sentence "" Hin) as (j & Hj & Hnth).
  specialize (Hloop j Hj). rewrite Hnth in Hloop.
  unfold chunkDocument. fold sentences.
  destruct (Js.truthy (currentChunk _)) eqn:Htruthy.
  - destruct Hloop as [Hempty | [Hcur | (c & Hc & Hocc)]]; [ contradiction | | ].
    + eexists. cbn [chunks pushChunk].
      split; [ apply in_or_app; right; left; reflexivity | exact Hcur ].
    + exists c. cbn [chunks pushChunk].
      split; [ apply in_or_app; now left | exact Hocc ].
  - destruct Hloop as [Hempty | [Hcur | (c & Hc & Hocc)]]; [ contradiction | | ].
    + rewrite (truthy_false _ Htruthy) in Hcur.
      apply occursIn_empty in Hcur. contradiction.
    + exists c. split; assumption.
Qed.

Lemma chunkDocument_keeps_every_sentence_witness :
  In " Cccc." (splitSentences "Aaaa. Bbbb. Cccc. Dddd.")
  /\ Js.trim " Cccc." <> ""
  /\ exists c,
       In c (chunkDocument "Aaaa. Bbbb. Cccc. Dddd."
               {| chunkSize := 10; chunkOverlap := 2; documentTitle := "t" |})
       /\ occursIn (Js.trim " Cccc.") (content c).
Proof.
  assert (Hin : In " Cccc." (splitSentences "Aaaa. Bbbb. Cccc. Dddd."))
    by (vm_compute; tauto).
  assert (Hne : Js.trim " Cccc." <> "") by (vm_compute; discriminate).
  split; [ exact Hin | ]. split; [ exact Hne | ].
  exact (@chunkDocument_keeps_every_sentence "Aaaa. Bbbb. Cccc. Dddd."
           {| chunkSize := 10; chunkOverlap := 2; documentTitle := "t" |}
           " Cccc." Hin Hne).
Defined.

Lemma list_ascii_of_string_app (a b : string) :
  list_ascii_of_string (a ++ b)
  = (list_ascii_of_string a ++ list_ascii_of_string b)%list.
Proof. induction a as [| x a IH]; simpl; [ reflexivity | now rewrite IH ]. Qed.

Lemma matchSentences_unterminated_tail (tail : list ascii) :
  forallb (fun c => negb (is_terminator c)) tail = true ->
  forall l body terms,
    matchSentences (l ++ tail) body terms = matchSentences l body terms.
Proof.
  intros Htail. induction l as [| c l IH]; intros body terms.
  - cbn [app]. revert body terms.
    induction tail as [| c tail IHt]; intros body terms; [ reflexivity | ].
    cbn [forallb] in Htail. apply andb_true_iff in Htail.
    destruct Htail as [Hc Htail]. apply negb_true_iff in Hc.
    cbn [matchSentences]. rewrite Hc.
    destruct terms as [| t terms].
    + rewrite (IHt Htail). reflexivity.
    + rewrite (IHt Htail). reflexivity.
  - cbn [app matchSentences].
    destruct (is_terminator c); destruct body, terms; rewrite ?IH; reflexivity.
Qed.

(** X17: text after the last sentence terminator is dropped.  When the
    text holds at least one sentence (a run of other characters followed
    by [.], [!] or [?]), whatever follows the last terminator -- a final
    sentence without punctuation, for instance -- reaches no chunk:
    chunking the text with such a tail gives the chunks of the text
    without it. *)
Theorem chunkDocument_drops_unterminated_tail :
  forall (text tail : string) (options : ChunkOptions),
    matchSentences (list_ascii_of_string text) [] [] <> [] ->
    forallb (fun c => negb (is_terminator c)) (list_ascii_of_string tail) = true ->
    chunkDocument (text ++ tail) options = chunkDocument text options.
Proof.
  intros text tail options Hsome Htail.
  assert (Hsplit : splitSentences (text ++ tail) = splitSentences text).
  { unfold splitSentences.
    rewrite list_ascii_of_string_app, (matchSentences_unterminated_tail _ Htail).
    destruct (matchSentences (list_ascii_of_string text) [] []);
      [ contradiction | reflexivity ]. }
  unfold chunkDocument. rewrite Hsplit. reflexivity.
Qed.

Lemma chunkDocument_drops_unterminated_tail_witness :
  map content
      (chunkDocument ("Water boils at 100 degrees." ++ " It freezes at 0 degrees")
         Inputs.ingestionOptions)
  = ["Water boils at 100 degrees."].
Proof.
  rewrite (@chunkDocument_drops_unterminated_tail
             "Water boils at 100 degrees." " It freezes at 0 degrees"
             Inputs.ingestionOptions).
  - vm_compute. reflexivity.
  - vm_compute. discriminate.
  - vm_compute. reflexivity.
Defined.

(** X18: the chunks are numbered consecutively from 0, in order; each
    carries its number and the document title in its metadata, has a
    non-empty content, and refers to a window of at most five sentences
    that ends within the text. *)
Theorem chunkDocument_numbering :
  forall (text : string) (options : ChunkOptions),
    map chunkIndex (chunkDocument text options)
    = seq 0 (List.length (chunkDocument text options))
    /\ Forall (fun c =>
                 cm_chunkIndex (metadata c) = chunkIndex c
                 /\ cm_documentTitle (metadata c) = documentTitle options
                 /\ content c <> ""
                 /\ (sentenceStart (metadata c) <= sentenceEnd (metadata c))%nat
                 /\ (sentenceEnd (metadata c) - sentenceStart (metadata c) <= 5)%nat
                 /\ (sentenceEnd (metadata c) <= List.length (splitSentences text))%nat)
              (chunkDocument text options).
Proof.
  intros text options.
  set (sentences := splitSentences text).
  set (n := List.length sentences).
  set (good := fun c : DocChunk =>
                 cm_chunkIndex (metadata c) = chunkIndex c
                 /\ cm_documentTitle (metadata c) = documentTitle options
                 /\ content c <> ""
                 /\ (sentenceStart (metadata c) <= sentenceEnd (metadata c))%nat
                 /\ (sentenceEnd (metadata c) - sentenceStart (metadata c) <= 5)%nat
                 /\ (sentenceEnd (metadata c) <= n)%nat).
  set (inv := fun st : LoopState =>
                map chunkIndex (chunks st) = seq 0 (nextIndex st)
                /\ Forall good (chunks st)).
  assert (Hpush : forall st from to,
             inv st -> Js.truthy (currentChunk st) = true ->
             (from <= to)%nat -> (to - from <= 5)%nat -> (to <= n)%nat ->
             inv (pushChunk (documentTitle options) st from to)).
  { intros st from to [Hseq Hgood] Htruthy Hle Hwin Hto. split.
    - cbn [chunks pushChunk nextIndex]. rewrite map_app, Hseq, seq_S. reflexivity.
    - cbn [chunks pushChunk]. apply Forall_app. split; [ exact Hgood | ].
      constructor; [ | constructor ]. unfold good. cbn.
      repeat split; try reflexivity; try lia. now apply truthy_true. }
  assert (Hloop : inv (forLoop options sentences 0 n
                         {| chunks := []; currentChunk := ""; nextIndex := 0 |})).
  { apply (@forLoop_invariant options sentences n (fun _ st => inv st)).
    - intros i st Hi Hinv. unfold loopBody.
      destruct (String.length (currentChunk st ++ " " ++ Js.trim (nth i sentences ""))
                <=? chunkSize options)%nat; [ exact Hinv | ].
      destruct (Js.truthy (currentChunk st)) eqn:Htruthy; [ | exact Hinv ].
      destruct (Hpush st (i - 5)%nat i Hinv Htruthy) as [Hseq Hgood]; try lia.
      split; assumption.
    - reflexivity.
    - split; [ reflexivity | constructor ]. }
  assert (Hresult : inv {| chunks := chunkDocument text options;
                           currentChunk := "";
                           nextIndex := List.length (chunkDocument text options) |}).
  { unfold chunkDocument. fold sentences. fold n.
    destruct (Js.truthy (currentChunk _)) eqn:Htruthy.
    - destruct (Hpush _ (n - 5)%nat n Hloop Htruthy) as [Hseq Hgood]; try lia.
      split; [ | exact Hgood ]. cbn [chunks nextIndex].
      rewrite Hseq. f_equal.
      rewrite <- (length_map chunkIndex), Hseq, length_seq. reflexivity.
    - destruct Hloop as [Hseq Hgood]. split; [ | exact Hgood ].
      cbn [chunks nextIndex]. rewrite Hseq. f_equal.
      rewrite <- (length_map chunkIndex), Hseq, length_seq. reflexivity. }
  exact Hresult.
Qed.

Lemma string_length_list (s : string) :
  String.length s = List.length (list_ascii_of_string s).
Proof. induction s as [| c s IH]; simpl; [ reflexivity | now rewrite IH ]. Qed.

Lemma list_length_string (l : list ascii) :
  String.length (string_of_list_ascii l) = List.length l.
Proof. induction l as [| c l IH]; simpl; [ reflexivity | now rewrite IH ]. Qed.

Lemma drop_spaces_length (l : list ascii) :
  (List.length (Js.drop_spaces l) <= List.length l)%nat.
Proof.
  induction l as [| c l IH]; simpl; [ lia | ].
  destruct (Js.is_space c); simpl; lia.
Qed.

Lemma trim_length (s : string) : (String.length (Js.trim s) <= String.length s)%nat.
Proof.
  unfold Js.trim. rewrite list_length_string, length_rev, string_length_list.
  etransitivity; [ apply drop_spaces_length | ].
  rewrite length_rev. apply drop_spaces_length.
Qed.

Lemma overlap_length (m : nat) (sentences : list string) (i : nat) :
  Forall (fun s => (String.length s <= m)%nat) sentences ->
  (String.length (Js.join " " (Js.slice (i - 2) i sentences)) <= 2 * m + 1)%nat.
Proof.
  intros Hall. unfold Js.slice, Js.join.
  assert (Hsub : Forall (fun s => (String.length s <= m)%nat)
                        (firstn (i - (i - 2)) (skipn (i - 2) sentences))).
  { apply Forall_forall. intros s Hs. apply In_firstn in Hs.
    rewrite Forall_forall in Hall. apply Hall.
    rewrite <- (firstn_skipn (i - 2) sentences). apply in_or_app. now right. }
  assert (Hlen : (List.length (firstn (i - (i - 2)) (skipn (i - 2) sentences)) <= 2)%nat).
  { etransitivity; [ apply firstn_le_length | lia ]. }
  destruct (firstn (i - (i - 2)) (skipn (i - 2) sentences)) as [| a [| b [| c l]]].
  - simpl. lia.
  - inversion Hsub; subst. simpl. lia.
  - inversion Hsub as [| ? ? Ha Hrest]; subst. inversion Hrest; subst.
    cbn [String.concat]. rewrite !string_length_app. simpl. lia.
  - simpl in Hlen. lia.
Qed.

(** X19: the size bound the chunker does keep.  If no sentence of the
    text is longer than [m] characters, no chunk is longer than the
    larger of [chunkSize] and [3 * m + 2]: a chunk either grew within the
    bound, or was started from the two preceding sentences, a separator
    each, and the current sentence. *)
Theorem chunkDocument_size_bound :
  forall (text : string) (options : ChunkOptions) (m : nat),
    (forall s, In s (splitSentences text) -> (String.length s <= m)%nat) ->
    Forall (fun c => (String.length (content c)
                      <= Nat.max (chunkSize options) (3 * m + 2))%nat)
           (chunkDocument text options).
Proof.
  intros text options m Hsentences.
  set (sentences := splitSentences text).
  set (bound := Nat.max (chunkSize options) (3 * m + 2)).
  assert (Hall : Forall (fun s => (String.length s <= m)%nat) sentences)
    by (apply Forall_forall; exact Hsentences).
  set (inv := fun st : LoopState =>
                (String.length (currentChunk st) <= bound)%nat
                /\ Forall (fun c => (String.length (content c) <= bound)%nat)
                          (chunks st)).
  assert (Hpush : forall st from to,
             inv st -> inv (pushChunk (documentTitle options) st from to)).
  { intros st from to [Hcur Hchunks]. split; [ exact Hcur | ].
    cbn [chunks pushChunk]. apply Forall_app. split; [ exact Hchunks | ].
    constructor; [ exact Hcur | constructor ]. }
  assert (Hloop : inv (forLoop options sentences 0 (List.length sentences)
                         {| chunks := []; currentChunk := ""; nextIndex := 0 |})).
  { apply (@forLoop_invariant options sentences (List.length sentences)
             (fun _ st => inv st)).
    - intros i st Hi [Hcur Hchunks]. unfold loopBody.
      assert (Hsentence : (String.length (Js.trim (nth i sentences "")) <= m)%nat).
      { etransitivity; [ apply trim_length | ].
        rewrite Forall_forall in Hall. apply Hall. now apply nth_In. }
      destruct (String.length (currentChunk st ++ " " ++ Js.trim (nth i sentences ""))
                <=? chunkSize options)%nat eqn:Hfits.
      + apply Nat.leb_le in Hfits. split; [ | exact Hchunks ]. cbn [currentChunk].
        rewrite !string_length_app in *.
        destruct (Js.truthy (currentChunk st)); cbn [String.length] in *; lia.
      + assert (Hst : inv (if Js.truthy (currentChunk st)
                           then pushChunk (documentTitle options) st (i - 5) i
                           else st)).
        { destruct (Js.truthy (currentChunk st));
            [ apply Hpush | ]; split; assumption. }
        destruct Hst as [_ Hchunks']. split; [ | exact Hchunks' ].
        cbn [currentChunk]. rewrite !string_length_app. cbn [String.length].
        pose proof (overlap_length i Hall) as Hoverlap. lia.
    - reflexivity.
    - split; [ simpl; lia | constructor ]. }
  unfold chunkDocument. fold sentences.
  destruct (Js.truthy (currentChunk _)).
  - exact (proj2 (Hpush _ _ _ Hloop)).
  - exact (proj2 Hloop).
Qed.

Lemma chunkDocument_size_bound_witness :
  Forall (fun c => (String.length (content c) <= Nat.max 10 (3 * 6 + 2))%nat)
         (chunkDocument "Aaaa. Bbbb. Cccc. Dddd."
            {| chunkSize := 10; chunkOverlap := 2; documentTitle := "t" |}).
Proof.
  apply (@chunkDocument_size_bound "Aaaa. Bbbb. Cccc. Dddd."
           {| chunkSize := 10; chunkOverlap := 2; documentTitle := "t" |} 6).
  intros s Hs. vm_compute in Hs.
  repeat (destruct Hs as [<- | Hs]; [ simpl; lia | ]). destruct Hs.
Defined.
End ChunkerInvariants.

(** ** Hybrid search *)

Section HybridSearch.
Import VectorStore.
Context {num : Type} `{JsNumber num}.
Local Open Scope string_scope.

Lemma mapSet_In (r x : HybridResult num) (m : list (HybridResult num)) :
  In x (mapSet r m) -> x = r \/ In x m.
Proof.
  induction m as [| y m IH]; simpl.
  - intros [<- | []]. now left.
  - destruct (hr_id y =? hr_id r); simpl; intros [<- | Hin]; auto.
    destruct (IH Hin); auto.
Qed.

Lemma mapSet_NoDup (r : HybridResult num) (m : list (HybridResult num)) :
  NoDup (map hr_id m) -> NoDup (map hr_id (mapSet r m)).
Proof.
  induction m as [| y m IH]; simpl; intros Hnd.
  - constructor; [ intros [] | constructor ].
  - inversion Hnd as [| ? ? Hy Hm]; subst.
    destruct (hr_id y =? hr_id r) eqn:E; simpl.
    + apply String.eqb_eq in E. rewrite <- E. now constructor.
    + apply String.eqb_neq in E. constructor; [ | now apply IH ].
      intros Hin. apply in_map_iff in Hin. destruct Hin as (x & Hid & Hx).
      apply mapSet_In in Hx. destruct Hx as [-> | Hx]; [ congruence | ].
      apply Hy. rewrite <- Hid. now apply in_map.
Qed.

Lemma mapGet_mapSet (id : string) (r : HybridResult num) (m : list (HybridResult num)) :
  mapGet id (mapSet r m) = if hr_id r =? id then Some r else mapGet id m.
Proof.
  unfold mapGet. induction m as [| y m IH]; simpl.
  - reflexivity.
  - destruct (hr_id y =? hr_id r) eqn:E; simpl.
    + apply String.eqb_eq in E. rewrite E.
      destruct (hr_id r =? id); reflexivity.
    + rewrite IH. destruct (hr_id y =? id) eqn:Ey; [ | reflexivity ].
      apply String.eqb_eq in Ey. subst id. apply String.eqb_neq in E.
      destruct (hr_id r =? hr_id y) eqn:Er; [ | reflexivity ].
      apply String.eqb_eq in Er. congruence.
Qed.

Lemma mapGet_Some (id : string) (x : HybridResult num) (m : list (HybridResult num)) :
  mapGet id m = Some x -> In x m /\ hr_id x = id.
Proof.
  unfold mapGet. intros Hfind. apply find_some in Hfind.
  destruct Hfind as [Hin Hid]. now apply String.eqb_eq in Hid.
Qed.

Lemma mapGet_member (x : HybridResult num) (m : list (HybridResult num)) :
  NoDup (map hr_id m) -> In x m -> mapGet (hr_id x) m = Some x.
Proof.
  unfold mapGet. induction m as [| y m IH]; simpl; intros Hnd Hin; [ contradiction | ].
  inversion Hnd as [| ? ? Hy Hm]; subst.
  destruct Hin as [-> | Hin].
  - now rewrite String.eqb_refl.
  - destruct (hr_id y =? hr_id x) eqn:E; [ | now apply IH ].
    apply String.eqb_eq in E. exfalso. apply Hy. rewrite E. now apply in_map.
Qed.

(** What the two loops keep: the keys are distinct, and a property of
    the entries that the new entries have and an update of the score
    preserves. *)
Lemma combined_invariant (alpha : num) (P : HybridResult num -> Prop)
      (vectorResults : list (ScoredChunk num)) (keywordResults' : list (Chunk num)) :
  (forall id content s s' md,
      P {| hr_id := id; hr_content := content; hr_score := s; hr_metadata := md |} ->
      P {| hr_id := id; hr_content := content; hr_score := s'; hr_metadata := md |}) ->
  (forall c, In c keywordResults' ->
             forall s md, P {| hr_id := chunk_id c; hr_content := chunk_content c;
                               hr_score := s; hr_metadata := md |}) ->
  (forall v, In v vectorResults ->
             forall s md, P {| hr_id := sc_id v; hr_content := sc_content v;
                               hr_score := s; hr_metadata := md |}) ->
  let combined := fold_left (addKeyword alpha) keywordResults'
                            (fold_left (addVector alpha) vectorResults []) in
  NoDup (map hr_id combined) /\ Forall P combined.
Proof.
  intros Hscore Hkeyword Hvector.
  assert (Hset : forall r m,
             P r -> NoDup (map hr_id m) /\ Forall P m ->
             NoDup (map hr_id (mapSet r m)) /\ Forall P (mapSet r m)).
  { intros r m Hr [Hnd Hall]. split; [ now apply mapSet_NoDup | ].
    apply Forall_forall. intros x Hx. apply mapSet_In in Hx.
    destruct Hx as [-> | Hx]; [ exact Hr | ].
    rewrite Forall_forall in Hall. now apply Hall. }
  assert (Hfirst : forall vs m,
             (forall v, In v vs -> In v vectorResults) ->
             NoDup (map hr_id m) /\ Forall P m ->
             NoDup (map hr_id (fold_left (addVector alpha) vs m))
             /\ Forall P (fold_left (addVector alpha) vs m)).
  { induction vs as [| v vs IH]; intros m Hsub Hm; [ exact Hm | ].
    cbn [fold_left]. apply IH; [ intros v' Hv'; apply Hsub; now right | ].
    unfold addVector. apply Hset; [ | exact Hm ].
    apply Hvector. apply Hsub. now left. }
  assert (Hsecond : forall ks m,
             (forall c, In c ks -> In c keywordResults') ->
             NoDup (map hr_id m) /\ Forall P m ->
             NoDup (map hr_id (fold_left (addKeyword alpha) ks m))
             /\ Forall P (fold_left (addKeyword alpha) ks m)).
  { induction ks as [| c ks IH]; intros m Hsub Hm; [ exact Hm | ].
    cbn [fold_left]. apply IH; [ intros c' Hc'; apply Hsub; now right | ].
    unfold addKeyword.
    destruct (mapGet (chunk_id c) m) as [existing |] eqn:Hget.
    - apply Hset; [ | exact Hm ].
      apply mapGet_Some in Hget. destruct Hget as [Hin _].
      destruct Hm as [_ Hall]. rewrite Forall_forall in Hall.
      specialize (Hall existing Hin). destruct existing as [id content s md].
      cbn. now apply (Hscore id content s).
    - apply Hset; [ | exact Hm ]. apply Hkeyword. apply Hsub. now left. }
  apply Hsecond; [ auto | ]. apply Hfirst; [ auto | ].
  split; constructor.
Qed.

Lemma insertCombined_perm (x : HybridResult num) (l : list (HybridResult num)) :
  Permutation (insertCombined x l) (x :: l).
Proof.
  induction l as [| y l IH]; simpl; [ reflexivity | ].
  destruct (ltb (hr_score x) (hr_score y)); [ | reflexivity ].
  rewrite IH. apply perm_swap.
Qed.

Lemma stableSortCombined_perm (l : list (HybridResult num)) :
  Permutation (stableSortCombined l) l.
Proof.
  unfold stableSortCombined. induction l as [| x l IH]; simpl; [ reflexivity | ].
  rewrite insertCombined_perm. now constructor.
Qed.

Lemma sortCombined_perm (env : SearchEnv num) (l : list (HybridResult num)) :
  Permutation (sortCombined env l) l.
Proof.
  unfold sortCombined. destruct (existsb _ l).
  - apply sortInconsistent_permutes.
  - apply stableSortCombined_perm.
Qed.

(** Where the results of [retrieveDocuments] come from. *)
Lemma retrieveDocuments_sources (env : Env num) (query : string)
      (options : RetrieveOptions) (docs : list (ScoredChunk num)) :
  retrieveDocuments env query options = Returns docs ->
  forall v, In v docs ->
    exists c, In c (chunkTable env)
              /\ whereClause options (chunk_document c) = true
              /\ sc_id v = chunk_id c
              /\ sc_content v = chunk_content c.
Proof.
  intros Hret v Hv.
  destruct (retrieveDocuments_returns _ _ _ Hret) as (q & scored & _ & Hscored & ->).
  apply In_firstn in Hv.
  apply (Permutation_in _ (sortByScore_perm _ _)) in Hv.
  apply nonNull_In in Hv.
  destruct (Forall2_In_r Hscored _ Hv) as (c & Hc & Hscore).
  apply In_firstn in Hc. apply filter_In in Hc. destruct Hc as [Hc Hwhere].
  exists c. split; [ exact Hc | ]. split; [ exact Hwhere | ].
  unfold scoreChunk in Hscore.
  destruct (chunk_embedding c) as [e |]; [ | discriminate ].
  destruct (cosineSimilarity q e) as [s | err]; [ | discriminate ].
  injection Hscore as <-. split; reflexivity.
Qed.

(** X20: what [hybridSearch] returns.  A list of at most [topK] results
    in which no chunk occurs twice, each with the id and content of a
    chunk of the table whose document has the subject asked for and is
    public when a student asks.  It never falls back on the vector
    results: it throws exactly when [retrieveDocuments] or the keyword
    query fails, and what it throws then is the [ReferenceError] of the
    [catch] block. *)
Theorem hybridSearch_results :
  forall (env : SearchEnv num) (query : string) (o : HybridOptions num),
    ((exists e', retrieveDocuments (store env) query (hy_options o) = Throws e')
     \/ keywordQueryUp env = false
     <-> hybridSearch env query o = Throws "vectorResults is not defined")
    /\
    match hybridSearch env query o with
    | Returns results =>
        (List.length results <= topKOf o)%nat
        /\ NoDup (map hr_id results)
        /\ forall r, In r results ->
             exists c, In c (chunkTable (store env))
                       /\ chunk_id c = hr_id r
                       /\ chunk_content c = hr_content r
                       /\ (opt_userRole (hy_options o) = Student ->
                           doc_isPublic (chunk_document c) = true)
                       /\ (forall s, opt_subject (hy_options o) = Some s ->
                                     Js.truthy s = true ->
                                     doc_subject (chunk_document c) = Some s)
    | Throws e =>
        e = "vectorResults is not defined"
        /\ ((exists e', retrieveDocuments (store env) query (hy_options o) = Throws e')
            \/ keywordQueryUp env = false)
    end.
Proof.
  intros env query o. unfold hybridSearch, try_catch.
  destruct (retrieveDocuments (store env) query (hy_options o))
    as [vectorResults | e] eqn:Hvector;
    [ | split; [ split; [ reflexivity | left; now exists e ]
               | split; [ reflexivity | left; now exists e ] ] ].
  unfold keywordResults.
  destruct (keywordQueryUp env);
    [ | split; [ split; [ reflexivity | now right ]
               | split; [ reflexivity | now right ] ] ].
  split;
    [ split; [ intros [[e' He'] | Hdown]; discriminate | discriminate ] | ].
  set (ks := firstn (topKOf o * 2)
               (filter (keywordWhere env o (keywordsOf query)) (chunkTable (store env)))).
  set (allowed := fun d : Document =>
                    (opt_userRole (hy_options o) = Student -> doc_isPublic d = true)
                    /\ (forall s, opt_subject (hy_options o) = Some s ->
                                  Js.truthy s = true -> doc_subject d = Some s)).
  set (P := fun r : HybridResult num =>
              exists c, In c (chunkTable (store env))
                        /\ chunk_id c = hr_id r
                        /\ chunk_content c = hr_content r
                        /\ allowed (chunk_document c)).
  assert (Hsubject : forall d s,
             (if Js.truthy s then option_string_is (doc_subject d) s else true) = true ->
             Js.truthy s = true -> doc_subject d = Some s).
  { intros d s Hd Hs. rewrite Hs in Hd. unfold option_string_is in Hd.
    destruct (doc_subject d) as [s' |]; [ | discriminate ].
    apply String.eqb_eq in Hd. now subst. }
  destruct (@combined_invariant (alphaOf o) P vectorResults ks) as [Hnd Hall].
  - intros id content s s' md (c & Hc & Hid & Hcontent & Hallowed).
    exists c. repeat split; assumption || apply Hallowed.
  - intros c Hc s md. exists c. subst ks. apply In_firstn in Hc.
    apply filter_In in Hc. destruct Hc as [Hc Hwhere].
    split; [ exact Hc | ]. split; [ reflexivity | ]. split; [ reflexivity | ].
    unfold keywordWhere in Hwhere.
    apply andb_true_iff in Hwhere. destruct Hwhere as [Hwhere Hrole].
    apply andb_true_iff in Hwhere. destruct Hwhere as [_ Hsub].
    split.
    + intros Hstudent. now rewrite Hstudent in Hrole.
    + intros s' Hs Htruthy. rewrite Hs in Hsub. now apply Hsubject.
  - intros v Hv s md.
    destruct (retrieveDocuments_sources _ _ _ Hvector v Hv)
      as (c & Hc & Hwhere & Hid & Hcontent).
    exists c. split; [ exact Hc | ]. cbn [hr_id hr_content].
    split; [ now symmetry | ]. split; [ now symmetry | ].
    unfold whereClause in Hwhere.
    apply andb_true_iff in Hwhere. destruct Hwhere as [Hwhere Hrole].
    apply andb_true_iff in Hwhere. destruct Hwhere as [Hsub _].
    split.
    + intros Hstudent. now rewrite Hstudent in Hrole.
    + intros s' Hs Htruthy. rewrite Hs in Hsub. now apply Hsubject.
  - unfold Js.slice. rewrite Nat.sub_0_r, skipn_O.
    split; [ apply firstn_le_length | ]. split.
    + rewrite <- firstn_map. apply NoDup_firstn.
      eapply Permutation_NoDup; [ | exact Hnd ].
      apply Permutation_map. symmetry. apply sortCombined_perm.
    + intros r Hr. apply In_firstn in Hr.
      apply (Permutation_in _ (sortCombined_perm _ _)) in Hr.
      rewrite Forall_forall in Hall. destruct (Hall r Hr) as (c & Hc & Hid & Hcontent & Hrole & Hsub).
      exists c. repeat split; assumption.
Qed.
End HybridSearch.

Section HybridSearchExamples.
Import VectorStore.
Local Open Scope string_scope.

(** Either failure ends in the [ReferenceError]; without one, the chunk
    the keyword query finds is returned. *)
Example hybridSearch_failures :
  hybridSearch Inputs.keywordDown "linear equations" Inputs.hybridStudent
  = Throws "vectorResults is not defined"
  /\ hybridSearch Inputs.embeddingDown "linear equations" Inputs.hybridStudent
     = Throws "vectorResults is not defined"
  /\ exists r,
      hybridSearch Inputs.keywordStore "linear equations" Inputs.hybridStudent
      = Returns [r]
      /\ hr_id r = "c2".
Proof.
  split; [ reflexivity | ]. split; [ reflexivity | ].
  eexists. split; reflexivity.
Qed.
End HybridSearchExamples.

Section HybridScores.
Import VectorStore.
Local Open Scope string_scope.

(** Rows with distinct keys keep distinct keys when some are filtered
    out. *)
Lemma distinct_keys_filter {Row Key : Type} (key : Row -> Key) (keep : Row -> bool) :
  forall rows : list Row,
    NoDup (map key rows) -> NoDup (map key (filter keep rows)).
Proof.
  induction rows as [| row rows IH]; simpl; intros Hnd; [ constructor | ].
  inversion Hnd as [| ? ? Hfresh Hrest]; subst.
  destruct (keep row); simpl; [ | now apply IH ].
  constructor; [ | now apply IH ].
  intros Hin. apply Hfresh. apply in_map_iff in Hin.
  destruct Hin as (other & Hkey & Hin). apply filter_In in Hin.
  rewrite <- Hkey. apply in_map. tauto.
Qed.

Lemma scored_distinct_ids {num : Type} `{JsNumber num} (q : list num)
      (chunks : list (Chunk num)) (scored : list (option (ScoredChunk num))) :
  Forall2 (fun c r => scoreChunk q c = Returns r) chunks scored ->
  NoDup (map (@chunk_id _) chunks) ->
  NoDup (map (@sc_id _) (nonNull scored))
  /\ forall v, In v (nonNull scored) -> In (sc_id v) (map (@chunk_id _) chunks).
Proof.
  induction 1 as [| c r chunks scored Hc _ IH]; intros Hnd.
  - split; [ constructor | intros v [] ].
  - inversion Hnd as [| ? ? Hfresh Hrest]; subst.
    destruct (IH Hrest) as [IHnd IHin].
    assert (Hid : forall v, r = Some v -> sc_id v = chunk_id c).
    { intros v ->. unfold scoreChunk in Hc.
      destruct (chunk_embedding c) as [e |]; [ | discriminate ].
      destruct (cosineSimilarity q e) as [s | err]; [ | discriminate ].
      injection Hc as <-. reflexivity. }
    destruct r as [v |]; cbn [nonNull map].
    + split.
      * constructor; [ | exact IHnd ].
        intros Hin. apply in_map_iff in Hin. destruct Hin as (v' & Hv' & Hin).
        apply Hfresh. rewrite <- (Hid v eq_refl), <- Hv'. now apply IHin.
      * intros v' [<- | Hv']; [ left; symmetry; now apply Hid | right; now apply IHin ].
    + split; [ exact IHnd | ]. intros v' Hv'. right. now apply IHin.
Qed.

Lemma retrieveDocuments_distinct_ids {num : Type} `{JsNumber num}
      (env : Env num) (query : string) (options : RetrieveOptions)
      (docs : list (ScoredChunk num)) :
  NoDup (map (@chunk_id _) (chunkTable env)) ->
  retrieveDocuments env query options = Returns docs ->
  NoDup (map (@sc_id _) docs).
Proof.
  intros Hnd Hret.
  destruct (retrieveDocuments_returns _ _ _ Hret) as (q & scored & _ & Hscored & ->).
  rewrite <- firstn_map. apply NoDup_firstn.
  eapply Permutation_NoDup;
    [ apply Permutation_map; symmetry; apply sortByScore_perm | ].
  refine (proj1 (@scored_distinct_ids _ _ q _ _ Hscored _)).
  rewrite <- firstn_map. apply NoDup_firstn. now apply distinct_keys_filter.
Qed.

Lemma addKeyword_score {num : Type} `{JsNumber num} (alpha : num) (id : string)
      (m : list (HybridResult num)) (c : Chunk num) :
  option_map hr_score (mapGet id (addKeyword alpha m c))
  = if chunk_id c =? id
    then Some (match option_map hr_score (mapGet id m) with
               | Some s => add s (mul (sub one alpha) (dec 5 10))
               | None => mul (sub one alpha) (dec 5 10)
               end)
    else option_map hr_score (mapGet id m).
Proof.
  unfold addKeyword.
  destruct (mapGet (chunk_id c) m) as [existing |] eqn:Hget;
    rewrite mapGet_mapSet; cbn [hr_id].
  - destruct (mapGet_Some _ _ Hget) as [_ Hid]. rewrite Hid.
    destruct (chunk_id c =? id) eqn:E; [ | reflexivity ].
    apply String.eqb_eq in E. subst id. now rewrite Hget.
  - destruct (chunk_id c =? id) eqn:E; [ | reflexivity ].
    apply String.eqb_eq in E. subst id. now rewrite Hget.
Qed.

Lemma keywords_score {num : Type} `{JsNumber num} (alpha : num) (id : string)
      (ks : list (Chunk num)) :
  NoDup (map (@chunk_id _) ks) ->
  forall m,
    option_map hr_score (mapGet id (fold_left (addKeyword alpha) ks m))
    = if existsb (fun c => chunk_id c =? id) ks
      then Some (match option_map hr_score (mapGet id m) with
                 | Some s => add s (mul (sub one alpha) (dec 5 10))
                 | None => mul (sub one alpha) (dec 5 10)
                 end)
      else option_map hr_score (mapGet id m).
Proof.
  induction ks as [| c ks IH]; intros Hnd m; [ reflexivity | ].
  inversion Hnd as [| ? ? Hfresh Hrest]; subst.
  cbn [fold_left existsb]. rewrite (IH Hrest), addKeyword_score.
  destruct (chunk_id c =? id) eqn:E; [ | reflexivity ].
  apply String.eqb_eq in E. subst id. cbn [orb].
  destruct (existsb (fun c' => chunk_id c' =? chunk_id c) ks) eqn:Hex; [ | reflexivity ].
  exfalso. apply Hfresh. apply existsb_exists in Hex.
  destruct Hex as (c' & Hc' & Heq). apply String.eqb_eq in Heq.
  rewrite <- Heq. now apply in_map.
Qed.

Lemma vectors_score {num : Type} `{JsNumber num} (alpha : num) (id : string)
      (vs : list (ScoredChunk num)) :
  NoDup (map (@sc_id _) vs) ->
  forall m,
    option_map hr_score (mapGet id (fold_left (addVector alpha) vs m))
    = match find (fun v => sc_id v =? id) vs with
      | Some v => Some (mul (sc_score v) alpha)
      | None => option_map hr_score (mapGet id m)
      end.
Proof.
  induction vs as [| v vs IH]; intros Hnd m; [ reflexivity | ].
  inversion Hnd as [| ? ? Hfresh Hrest]; subst.
  cbn [fold_left find]. rewrite (IH Hrest). unfold addVector at 1.
  rewrite mapGet_mapSet. cbn [hr_id hr_score].
  destruct (sc_id v =? id) eqn:E.
  - apply String.eqb_eq in E. subst id.
    destruct (find (fun v' => sc_id v' =? sc_id v) vs) as [v' |] eqn:Hfind;
      [ | reflexivity ].
    exfalso. apply Hfresh. apply find_some in Hfind. destruct Hfind as [Hin Heq].
    apply String.eqb_eq in Heq. rewrite <- Heq. now apply in_map.
  - reflexivity.
Qed.

Local Open Scope R_scope.

Lemma insertCombined_descending (x : HybridResult R) (l : list (HybridResult R)) :
  StronglySorted (fun a b => hr_score b <= hr_score a) l ->
  StronglySorted (fun a b => hr_score b <= hr_score a) (insertCombined x l).
Proof.
  induction l as [| y l IH]; simpl; intros Hs.
  - repeat constructor.
  - apply StronglySorted_inv in Hs as [Hs Hy].
    cbn [ltb real_number].
    destruct (Real.ltb (hr_score x) (hr_score y)) eqn:E.
    + apply real_ltb_true in E. constructor; [ auto | ].
      rewrite Forall_forall. intros z Hz.
      apply (Permutation_in _ (insertCombined_perm x l)) in Hz.
      destruct Hz as [<- | Hz]; [ lra | ].
      rewrite Forall_forall in Hy. auto.
    + apply real_ltb_false in E. constructor.
      * now constructor.
      * constructor; [ assumption | ].
        rewrite Forall_forall in *. intros z Hz. specialize (Hy z Hz). lra.
Qed.

(** No real number is NaN: the engine has no say. *)
Lemma sortCombined_real (env : SearchEnv R) (l : list (HybridResult R)) :
  sortCombined env l = stableSortCombined l.
Proof.
  unfold sortCombined. cbn [is_nan real_number].
  replace (existsb (fun _ : HybridResult R => false) l) with false; [ reflexivity | ].
  induction l as [| x l IH]; [ reflexivity | exact IH ].
Qed.

Lemma sortCombined_descending (env : SearchEnv R) (l : list (HybridResult R)) :
  StronglySorted (fun a b => hr_score b <= hr_score a) (sortCombined env l).
Proof.
  rewrite sortCombined_real.
  unfold stableSortCombined. induction l as [| x l IH]; simpl.
  - constructor.
  - now apply insertCombined_descending.
Qed.

(** X21: the scores of a hybrid search, in exact arithmetic, when the
    chunk ids of the table are distinct.  The results come by decreasing
    score, and the score of a result is [alpha] times its vector score
    (0 when [retrieveDocuments] did not return the chunk) plus
    [(1 - alpha) * 0.5] when the keyword query returned the chunk: a
    keyword match counts the same however many keywords match. *)
Theorem hybridSearch_scores :
  forall (env : SearchEnv R) (query : string) (o : HybridOptions R)
         (results : list (HybridResult R)),
    NoDup (map (@chunk_id _) (chunkTable (store env))) ->
    hybridSearch env query o = Returns results ->
    StronglySorted (fun a b => hr_score b <= hr_score a) results
    /\ forall r, In r results ->
         hr_score r
         = match retrieveDocuments (store env) query (hy_options o) with
           | Returns vectorResults =>
               match find (fun v => sc_id v =? hr_id r)%string vectorResults with
               | Some v => sc_score v * alphaOf o
               | None => 0
               end
           | Throws _ => 0
           end
           + match keywordResults env query o with
             | Returns keywordResults' =>
                 if existsb (fun c => chunk_id c =? hr_id r)%string keywordResults'
                 then (1 - alphaOf o) * (5 / 10)
                 else 0
             | Throws _ => 0
             end.
Proof.
  intros env query o results Htable. unfold hybridSearch, try_catch.
  destruct (retrieveDocuments (store env) query (hy_options o))
    as [vectorResults | e] eqn:Hvector; [ | discriminate ].
  destruct (keywordResults env query o) as [ks | e] eqn:Hkeyword; [ | discriminate ].
  intros Hret.
  set (combined := fold_left (addKeyword (alphaOf o)) ks
                     (fold_left (addVector (alphaOf o)) vectorResults [])) in *.
  assert (Hresults : results = firstn (topKOf o) (sortCombined env combined)).
  { unfold Js.slice in Hret. rewrite Nat.sub_0_r, skipn_O in Hret. congruence. }
  clear Hret. subst results.
  assert (Hvs : NoDup (map (@sc_id _) vectorResults))
    by (eapply retrieveDocuments_distinct_ids; eassumption).
  assert (Hks : NoDup (map (@chunk_id _) ks)).
  { unfold keywordResults in Hkeyword.
    destruct (keywordQueryUp env); [ | discriminate ].
    injection Hkeyword as <-.
    rewrite <- firstn_map. apply NoDup_firstn. now apply distinct_keys_filter. }
  destruct (@combined_invariant R real_number (alphaOf o) (fun _ => True)
              vectorResults ks) as [Hnd _]; auto.
  fold combined in Hnd.
  split.
  - apply (sorted_cut (topKOf o) (sortCombined_descending env combined)).
  - intros r Hr. apply In_firstn in Hr.
    apply (Permutation_in _ (sortCombined_perm _ _)) in Hr.
    pose proof (mapGet_member r combined Hnd Hr) as Hget.
    pose proof (keywords_score (alphaOf o) (hr_id r) ks Hks
                  (fold_left (addVector (alphaOf o)) vectorResults [])) as Hscore.
    fold combined in Hscore. rewrite Hget in Hscore.
    rewrite (vectors_score (alphaOf o) (hr_id r) vectorResults Hvs []) in Hscore.
    cbn [option_map mapGet find] in Hscore.
    unfold one, dec in Hscore. cbn [add mul sub div of_Z real_number] in Hscore.
    destruct (find (fun v => sc_id v =? hr_id r)%string vectorResults) as [v |];
      destruct (existsb (fun c => chunk_id c =? hr_id r)%string ks);
      cbn [option_map] in Hscore; try discriminate;
      injection Hscore as ->; lra.
Qed.

Lemma hybridSearch_scores_witness :
  exists r,
    hybridSearch Inputs.keywordStore "linear equations" Inputs.hybridStudent = Returns [r]
    /\ hr_id r = "c2"
    /\ hr_score r = 0 + (1 - alphaOf Inputs.hybridStudent) * (5 / 10).
Proof.
  assert (Hv : retrieveDocuments (store Inputs.keywordStore) "linear equations"
                 (hy_options Inputs.hybridStudent) = Returns []) by reflexivity.
  assert (Hk : keywordResults Inputs.keywordStore "linear equations" Inputs.hybridStudent
               = Returns [Inputs.chunkOf "c2" None]) by reflexivity.
  eexists. split; [ reflexivity | ]. split; [ reflexivity | ].
  match goal with
  | |- hr_score ?r = _ =>
      destruct (@hybridSearch_scores Inputs.keywordStore "linear equations"
                  Inputs.hybridStudent [r]) as [_ Hf]
  end.
  - repeat constructor. intros [].
  - reflexivity.
  - match goal with
    | |- hr_score ?r = _ => specialize (Hf r (or_introl eq_refl))
    end.
    rewrite Hv, Hk in Hf. exact Hf.
Defined.
End HybridScores.

(** ** Document ingestion *)

Section Ingestion.
Import DocumentProcessing DocumentStore.
Context {num : Type}.
Local Open Scope string_scope.

Lemma chunkDocument_indexes (text : string) (options : ChunkOptions) :
  map chunkIndex (chunkDocument text options)
  = seq 0 (List.length (chunkDocument text options)).
Proof.
  set (sentences := splitSentences text).
  set (inv := fun st : LoopState => map chunkIndex (chunks st) = seq 0 (nextIndex st)).
  assert (Hpush : forall st from to,
             inv st -> inv (pushChunk (documentTitle options) st from to)).
  { intros st from to Hseq. unfold inv. cbn [chunks pushChunk nextIndex].
    rewrite map_app, Hseq, seq_S. reflexivity. }
  assert (Hloop : inv (forLoop options sentences 0 (List.length sentences)
                         {| chunks := []; currentChunk := ""; nextIndex := 0 |})).
  { apply (@forLoop_invariant options sentences (List.length sentences)
             (fun _ st => inv st)).
    - intros i st _ Hinv. unfold loopBody.
      destruct (String.length (currentChunk st ++ " " ++ Js.trim (nth i sentences ""))
                <=? chunkSize options)%nat; [ exact Hinv | ].
      destruct (Js.truthy (currentChunk st)); [ | exact Hinv ].
      exact (Hpush st _ _ Hinv).
    - reflexivity.
    - reflexivity. }
  assert (Hlen : forall l : list DocChunk, forall k,
             map chunkIndex l = seq 0 k -> map chunkIndex l = seq 0 (List.length l)).
  { intros l k Hl. rewrite Hl. f_equal.
    rewrite <- (length_map chunkIndex), Hl, length_seq. reflexivity. }
  unfold chunkDocument. fold sentences.
  destruct (Js.truthy (currentChunk _)).
  - eapply Hlen. exact (Hpush _ _ _ Hloop).
  - eapply Hlen. exact Hloop.
Qed.


(** What a successful [storeDocumentChunks] has written. *)
Lemma storeDocumentChunks_returns (env : Env num) (db db' : Db num) (documentId : string)
      (chunks' : list DocChunk) (r : StoreResult) :
  storeDocumentChunks env db documentId chunks' = (Returns r, db') ->
  exists rows,
    db' = {| documents := documents db; chunkRows := (chunkRows db ++ rows)%list |}
    /\ Forall2 (fun chunk row =>
                  row_content row = content chunk
                  /\ generateEmbedding env (content chunk) = Returns (row_embedding row)
                  /\ row_documentId row = documentId
                  /\ row_chunkIndex row = chunkIndex chunk)
               chunks' rows.
Proof.
  unfold storeDocumentChunks.
  destruct (mapM _ chunks') as [rows | e] eqn:Hrows; [ | discriminate ].
  destruct (chunkWriteFails env); [ discriminate | ].
  intros Heq. injection Heq as _ <-. exists rows. split; [ reflexivity | ].
  apply mapM_returns in Hrows.
  eapply Forall2_impl; [ | exact Hrows ].
  cbn. intros chunk row Hrow.
  destruct (generateEmbedding env (content chunk)) as [embedding |]; [ | discriminate ].
  injection Hrow as <-. cbn. repeat split; reflexivity.
Qed.

Lemma storeDocumentChunks_throws (env : Env num) (db db' : Db num) (documentId : string)
      (chunks' : list DocChunk) (e : string) :
  storeDocumentChunks env db documentId chunks' = (Throws e, db') -> db' = db.
Proof.
  unfold storeDocumentChunks.
  destruct (mapM _ chunks') as [rows | e0]; [ | congruence ].
  destruct (chunkWriteFails env); [ congruence | discriminate ].
Qed.

(** X22: what a successful [processDocument] has stored.  One document
    row, with the uploader, the visibility and the title of the upload and
    the id returned; and, after the rows the chunk table had, one row for
    each chunk of the cleaned text, in order, with the chunk's content, the
    embedding the service returned for it, the document's id, and the
    index 0, 1, 2, ...  The numbers of chunks in the result and in the
    document row are the number of rows written. *)
Theorem processDocument_stores_every_chunk :
  forall (env : Env num) (db db' : Db num) (fileBuffer fileType fileUrl : string)
         (metadata : DocumentMetadata) (r : ProcessResult),
    processDocument env db fileBuffer fileType fileUrl metadata = (Returns r, db') ->
    exists text document rows,
      extractText env fileBuffer fileType = Returns text
      /\ documents db' = (documents db ++ [document])%list
      /\ ai_id document = pr_documentId r
      /\ ai_title document = up_title metadata
      /\ ai_uploadedBy document = up_uploadedBy metadata
      /\ ai_isPublic document = up_isPublic metadata
      /\ ai_chunksCount document = List.length rows
      /\ pr_chunksCreated r = List.length rows
      /\ pr_textLength r = String.length (cleanText text)
      /\ chunkRows db' = (chunkRows db ++ rows)%list
      /\ Forall2 (fun chunk row =>
                    row_content row = content chunk
                    /\ generateEmbedding env (content chunk) = Returns (row_embedding row)
                    /\ row_documentId row = pr_documentId r)
                 (chunkDocument (cleanText text) (ingestionOptions (up_title metadata)))
                 rows
      /\ map row_chunkIndex rows = seq 0 (List.length rows).
Proof.
  intros env db db' fileBuffer fileType fileUrl metadata r. unfold processDocument.
  destruct (extractText env fileBuffer fileType) as [text | e]; [ | discriminate ].
  destruct (documentWriteFails env); [ discriminate | ].
  match goal with
  | |- context [storeDocumentChunks env ?db1 ?id ?cs] =>
      destruct (storeDocumentChunks env db1 id cs) as [[stored | e] db2] eqn:Hstore
  end; [ | discriminate ].
  intros Heq. injection Heq as <- <-.
  destruct (storeDocumentChunks_returns _ _ _ _ Hstore) as (rows & -> & Hrows).
  assert (Hlen : List.length rows
                 = List.length (chunkDocument (cleanText text)
                                  (ingestionOptions (up_title metadata))))
    by (symmetry; exact (Forall2_length Hrows)).
  eexists text, _, rows. cbn.
  repeat (split; [ now auto | ]). split.
  - eapply Forall2_impl; [ | exact Hrows ]. cbn. tauto.
  - rewrite Hlen, <- chunkDocument_indexes.
    clear Hstore Hlen. induction Hrows as [| chunk row l l' (_ & _ & _ & Hi) _ IH];
      [ reflexivity | ].
    cbn [map]. now rewrite Hi, IH.
Qed.


Lemma same_id_same_document (l : list AIDocument) (a b : AIDocument) :
  NoDup (map ai_id l) -> In a l -> In b l -> ai_id a = ai_id b -> a = b.
Proof.
  induction l as [| d l IH]; simpl; intros Hnd Ha Hb Hid; [ contradiction | ].
  inversion Hnd as [| ? ? Hfresh Hrest]; subst.
  destruct Ha as [-> | Ha], Hb as [-> | Hb].
  - reflexivity.
  - exfalso. apply Hfresh. rewrite Hid. now apply in_map.
  - exfalso. apply Hfresh. rewrite <- Hid. now apply in_map.
  - now apply IH.
Qed.

(** X24: only its uploader changes a document.  With distinct document
    ids, [deleteDocument] and [updateDocumentMetadata] return only if the
    document exists and was uploaded by the calling user, and whatever they
    return or throw, every document uploaded by somebody else is in the
    table afterwards as it was. *)
Theorem only_the_uploader_changes_a_document :
  forall (env : Env num) (db : Db num) (documentId userId : string)
         (updates : DocumentUpdates),
    NoDup (map ai_id (documents db)) ->
    (forall d, In d (documents db) -> ai_uploadedBy d <> userId ->
               In d (documents (snd (deleteDocument env db documentId userId)))
               /\ In d (documents (snd (updateDocumentMetadata env db documentId userId
                                         updates))))
    /\ ((exists r, fst (deleteDocument env db documentId userId) = Returns r)
        \/ (exists r, fst (updateDocumentMetadata env db documentId userId updates)
                      = Returns r) ->
        exists d, In d (documents db)
                  /\ ai_id d = documentId /\ ai_uploadedBy d = userId).
Proof.
  intros env db documentId userId updates Hnd.
  unfold deleteDocument, updateDocumentMetadata, findUnique.
  destruct (documentReadFails env).
  { split; [ intros d Hd _; split; exact Hd | ].
    intros [[r Hr] | [r Hr]]; discriminate. }
  destruct (find (fun d => ai_id d =? documentId) (documents db)) as [document |] eqn:Hfind.
  2: { split; [ intros d Hd _; split; exact Hd | ].
       intros [[r Hr] | [r Hr]]; discriminate. }
  apply find_some in Hfind. destruct Hfind as [Hdoc Hid].
  apply String.eqb_eq in Hid.
  destruct (ai_uploadedBy document =? userId) eqn:Howner; cbn [negb].
  2: { split; [ intros d Hd _; split; exact Hd | ].
       intros [[r Hr] | [r Hr]]; discriminate. }
  apply String.eqb_eq in Howner.
  split; [ | intros _; now exists document ].
  intros d Hd Hother.
  assert (Hdiff : (ai_id d =? documentId) = false).
  { apply String.eqb_neq. intros Hsame. apply Hother.
    rewrite (same_id_same_document (documents db) d document Hnd Hd Hdoc);
      [ exact Howner | congruence ]. }
  destruct (documentWriteFails env); cbn [snd documents]; [ split; exact Hd | ].
  split.
  - apply filter_In. split; [ exact Hd | now rewrite Hdiff ].
  - apply in_map_iff. exists d. rewrite Hdiff. split; [ reflexivity | exact Hd ].
Qed.
End Ingestion.

Section IngestionExamples.
Import DocumentProcessing DocumentStore.
Local Open Scope string_scope.

Lemma processDocument_stores_every_chunk_witness :
  match processDocument (Inputs.ingestion true) Inputs.emptyDb
          "Water boils at 100 degrees." "text/plain" "/water.txt" Inputs.lesson with
  | (Returns r, db') =>
      map row_chunkIndex (chunkRows db') = seq 0 (pr_chunksCreated r)
  | (Throws _, _) => False
  end.
Proof.
  destruct (processDocument (Inputs.ingestion true) Inputs.emptyDb
              "Water boils at 100 degrees." "text/plain" "/water.txt" Inputs.lesson)
    as [[r | e] db'] eqn:Hrun.
  - destruct (processDocument_stores_every_chunk _ _ _ _ _ _ Hrun)
      as (text & document & rows & _ & _ & _ & _ & _ & _ & _ & Hcreated & _
          & Hrows & _ & Hindex).
    rewrite Hrows, Hcreated. exact Hindex.
  - vm_compute in Hrun. discriminate.
Defined.


Lemma only_the_uploader_changes_a_document_witness :
  In (Inputs.document7 "teacher1")
     (documents (snd (deleteDocument (Inputs.ingestion true)
                        {| documents := [Inputs.document7 "teacher1"]; chunkRows := [] |}
                        "doc7" "teacher2"))).
Proof.
  refine (proj1 (proj1 (@only_the_uploader_changes_a_document float
                          (Inputs.ingestion true)
                          {| documents := [Inputs.document7 "teacher1"];
                             chunkRows := [] |}
                          "doc7" "teacher2"
                          {| new_title := None; new_description := None;
                             new_subject := None; new_gradeLevel := None;
                             new_isPublic := Some false |}
                          _)
                   (Inputs.document7 "teacher1") _ _)).
  - repeat constructor. intros [].
  - left. reflexivity.
  - discriminate.
Defined.
End IngestionExamples.

(** ** The server action *)

Section PlaygroundAction.
Import VectorStore RagWorkflow Playground.
Context {num : Type} `{JsNumber num}.
Local Open Scope string_scope.

(** X25: what [queryAIPlayground] reports and stores.  [error] is the
    negation of [success]; the call adds to the message table nothing, or
    the user's message, or the user's message followed by a non-empty
    assistant message in the same conversation; and when it reports
    success, the message says so, and the exchange is in the table: the
    user's message and, unless the answer is missing or empty, the
    assistant message with exactly the answer returned, both in the
    conversation returned. *)
Theorem queryAIPlayground_stores_what_it_reports :
  forall (env : Env) (svc : Services num) (tables : Tables num)
         (query : string) (options : QueryOptions),
    let out := queryAIPlayground env svc tables query options in
    ar_error (fst out) = negb (ar_success (fst out))
    /\ (exists added,
          chat (snd out) = (chat tables ++ added)%list
          /\ (added = []
              \/ (exists u, added = [u]
                            /\ msg_role u = FromUser /\ msg_content u = query)
              \/ (exists u a, added = [u; a]
                              /\ msg_role u = FromUser /\ msg_content u = query
                              /\ msg_role a = FromAssistant
                              /\ msg_content a <> ""
                              /\ msg_conversationId a = msg_conversationId u)))
    /\ (ar_success (fst out) = true ->
        ar_message (fst out) = Some "Answer generated successfully"
        /\ exists data u,
             ar_data (fst out) = Some data
             /\ msg_role u = FromUser /\ msg_content u = query
             /\ msg_conversationId u = ad_conversationId data
             /\ ((chat (snd out) = (chat tables ++ [u])%list
                  /\ (ad_answer data = None \/ ad_answer data = Some ""))
                 \/ exists a,
                      chat (snd out) = (chat tables ++ [u; a])%list
                      /\ msg_role a = FromAssistant
                      /\ ad_answer data = Some (msg_content a)
                      /\ msg_conversationId a = ad_conversationId data)).
Proof.
  intros env svc tables query options out.
  pattern out.
  match goal with |- ?P out => set (Q := P) end.
  assert (Hnothing : forall (message : string) (t : Tables num),
             chat t = chat tables -> Q (refused message, t)).
  { intros message t Hchat. subst Q.
    cbn [fst snd refused ar_error ar_success].
    split; [ reflexivity | ].
    split; [ exists []; rewrite app_nil_r; split; [ exact Hchat | now left ]
           | discriminate ]. }
  subst out. unfold queryAIPlayground, failed.
  destruct (auth env) as [[userId' |] | e];
    [ | apply Hnothing; reflexivity
      | apply Hnothing; reflexivity ].
  destruct (Js.truthy userId'); cbn [negb];
    [ | apply Hnothing; reflexivity ].
  match goal with
  | |- context [match ?lookup with Returns _ => _ | Throws _ => _ end] =>
      match lookup with
      | match findStudent env userId' with _ => _ end =>
          destruct lookup as [[user |] | e]
      end
  end;
    [ | apply Hnothing; reflexivity
      | apply Hnothing; reflexivity ].
  match goal with
  | |- context [match ?created with Returns _ => _ | Throws _ => _ end] =>
      match created with
      | match _ with Some _ => _ | None => _ end =>
          destruct created as [[conversationId' conversations'] | e]
      end
  end;
    [ | apply Hnothing; reflexivity ].
  destruct (executeRAGWorkflow svc query userId' (roleOf user) (qo_mode options)
              conversationId' (Some (qo_subject options, qo_gradeLevel options))
              (analytics tables)) as [[result | e] analytics'];
    [ | apply Hnothing; reflexivity ].
  destruct (userMessageWriteFails env);
    [ apply Hnothing; reflexivity | ].
  destruct (success result) eqn:Hsuccess.
  - destruct (answer result) as [text |] eqn:Hanswer.
    + destruct (Js.truthy text) eqn:Htruthy.
      * destruct (assistantMessageWriteFails env).
        -- subst Q. cbn [fst snd refused ar_error ar_success chat].
           split; [ reflexivity | ]. split; [ | discriminate ].
           eexists. split; [ reflexivity | ]. right. left.
           eexists. split; [ reflexivity | ]. split; reflexivity.
        -- subst Q. cbn [fst snd ar_error ar_success ar_message ar_data chat negb].
           split; [ reflexivity | ]. split.
           ++ eexists. split; [ rewrite <- app_assoc; reflexivity | ].
              right. right. do 2 eexists. split; [ reflexivity | ].
              cbn. repeat split; try reflexivity.
              now apply truthy_true.
           ++ intros _. split; [ reflexivity | ].
              do 2 eexists. split; [ reflexivity | ].
              split; [ | split; [ | split ] ]; cycle 3.
              { right. eexists. split; [ rewrite <- app_assoc; reflexivity | ].
                cbn. repeat split. }
              all: reflexivity.
      * subst Q. cbn [fst snd ar_error ar_success ar_message ar_data chat negb].
        split; [ reflexivity | ]. split.
        -- eexists. split; [ reflexivity | ]. right. left.
           eexists. split; [ reflexivity | ]. split; reflexivity.
        -- intros _. split; [ reflexivity | ].
           do 2 eexists. split; [ reflexivity | ].
           split; [ | split; [ | split ] ]; cycle 3.
           { left. split; [ reflexivity | ]. right. cbn.
             now rewrite (truthy_false _ Htruthy). }
           all: reflexivity.
    + subst Q. cbn [fst snd ar_error ar_success ar_message ar_data chat negb].
      split; [ reflexivity | ]. split.
      * eexists. split; [ reflexivity | ]. right. left.
        eexists. split; [ reflexivity | ]. split; reflexivity.
      * intros _. split; [ reflexivity | ].
        do 2 eexists. split; [ reflexivity | ].
        split; [ | split; [ | split ] ]; cycle 3.
        { left. split; [ reflexivity | now left ]. }
        all: reflexivity.
  - subst Q. cbn [fst snd ar_error ar_success ar_message ar_data chat negb].
    split; [ reflexivity | ]. split; [ | discriminate ].
    eexists. split; [ reflexivity | ]. right. left.
    eexists. split; [ reflexivity | ]. split; reflexivity.
Qed.
End PlaygroundAction.

Section PlaygroundAndWorkflow.
Import VectorStore RagWorkflow Playground.
Local Open Scope string_scope.

(** X26: the action and the workflow together, when the first retrieval
    yields no document and the model answers.  The answer reaches the
    caller in [data.answer] either way.  If the retrieval returned an empty
    list, the action reports success and stores the question and the
    answer.  If the retrieval failed, the action reports an error without
    a message, and stores the question only: the answer the caller was
    given is not in the conversation. *)
Theorem queryAIPlayground_answer_without_documents :
  forall (num : Type) (N : JsNumber num) (env : Env) (svc : Services num)
         (tables : Tables num) (query : string) (options : QueryOptions)
         (uid : string) (user : User) (cid : string)
         (retrieved : Outcome (list (ScoredChunk num)))
         (result : AnswerGeneration.GenerationResult num),
    auth env = Returns (Some uid) ->
    Js.truthy uid = true ->
    findStudent env uid = Returns (Some user) ->
    qo_conversationId options = Some cid ->
    Js.truthy cid = true ->
    userMessageWriteFails env = false ->
    assistantMessageWriteFails env = false ->
    (forall q o, retrieveDocuments svc 1 q o = retrieved) ->
    match retrieved with
    | Returns docs => docs = []
    | Throws message => Js.truthy message = true
    end ->
    (forall q h, generateAnswer svc 1 q [] (qo_mode options) h = Returns result) ->
    Js.truthy (AnswerGeneration.answer result) = true ->
    let out := queryAIPlayground env svc tables query options in
    let asked : Message num :=
      {| msg_conversationId := cid;
         msg_role := FromUser;
         msg_content := query;
         msg_confidence := None;
         msg_retrievedDocs := [];
         msg_metadata := None |} in
    exists data,
      ar_data (fst out) = Some data
      /\ ad_answer data = Some (AnswerGeneration.answer result)
      /\ ad_conversationId data = cid
      /\ match retrieved with
         | Returns _ =>
             ar_success (fst out) = true
             /\ exists a, chat (snd out) = (chat tables ++ [asked; a])%list
                          /\ msg_role a = FromAssistant
                          /\ msg_content a = AnswerGeneration.answer result
                          /\ msg_conversationId a = cid
         | Throws _ =>
             ar_success (fst out) = false
             /\ ar_error (fst out) = true
             /\ ar_message (fst out) = None
             /\ chat (snd out) = (chat tables ++ [asked])%list
         end.
Proof.
  intros num N env svc tables query options uid user cid retrieved result
         Hauth Huid Hstudent Hcid Hcid' Hwrite Hwrite' Hret Hnone Hgen Hanswer out asked.
  destruct (@one_cycle_without_documents num N svc
              (createInitialState query uid (roleOf user) (qo_mode options) cid
                 (Some (qo_subject options, qo_gradeLevel options)))
              (analytics tables) retrieved result eq_refl Hret)
    as (final & lg & Hrun & _ & Hd & Hg & Hc & He & _);
    [ destruct retrieved; [ exact Hnone | exact I ] | exact Hgen | exact Hanswer | ].
  cbn [createInitialState error] in He.
  assert (Hflow : executeRAGWorkflow svc query uid (roleOf user) (qo_mode options) cid
                    (Some (qo_subject options, qo_gradeLevel options)) (analytics tables)
                  = (Returns {| success := noError final;
                                answer := generatedAnswer final;
                                res_confidence := confidence final;
                                res_sources := sources final;
                                documents := Some (retrievedDocuments final);
                                res_metadata :=
                                  Some {| rm_refinementAttempts := refinementAttempts final;
                                          rm_evaluationScore := evaluationScore final;
                                          rm_tokenUsage := tokenUsage final |};
                                res_error := None |},
                     logAnalytics svc
                       {| ev_userId := uid;
                          eventType := EvWorkflowComplete;
                          queryText := query;
                          documentsRetrieved := None;
                          ev_tokenUsage := Some (tokenUsage final);
                          ev_success := Some (noError final);
                          errorMessage := error final |} lg)).
  { unfold executeRAGWorkflow, executeWith. now rewrite Hrun. }
  subst out. unfold queryAIPlayground.
  rewrite Hauth, Huid. cbn [negb]. rewrite Hstudent, Hcid, Hcid', Hflow, Hwrite.
  cbn [success answer res_error res_confidence res_sources documents res_metadata].
  rewrite Hg, Hanswer. unfold noError. rewrite He.
  destruct retrieved as [docs | message].
  - rewrite Hwrite'.
    cbn [fst snd ar_data ar_success ar_error ar_message chat].
    eexists. split; [ reflexivity | ]. cbn [ad_answer ad_conversationId].
    split; [ reflexivity | ]. split; [ reflexivity | ]. split; [ reflexivity | ].
    eexists. split; [ rewrite <- app_assoc; reflexivity | ].
    cbn. repeat split.
  - rewrite Hnone. cbn [negb].
    cbn [fst snd ar_data ar_success ar_error ar_message chat].
    eexists. split; [ reflexivity | ]. cbn [ad_answer ad_conversationId].
    repeat split.
Qed.

Lemma queryAIPlayground_answer_without_documents_witness :
  exists data,
    ar_data (fst (queryAIPlayground Inputs.studentSession Inputs.unreachableStoreServices
                    Inputs.noTables "2+2=4, true or false?" Inputs.mathQuestion))
    = Some data
    /\ ad_answer data = Some "True: 2 + 2 = 4."
    /\ ar_message (fst (queryAIPlayground Inputs.studentSession
                          Inputs.unreachableStoreServices Inputs.noTables
                          "2+2=4, true or false?" Inputs.mathQuestion))
       = None
    /\ List.length (chat (snd (queryAIPlayground Inputs.studentSession
                                 Inputs.unreachableStoreServices Inputs.noTables
                                 "2+2=4, true or false?" Inputs.mathQuestion)))
       = 1%nat.
Proof.
  destruct (@queryAIPlayground_answer_without_documents
              float double_number Inputs.studentSession Inputs.unreachableStoreServices
              Inputs.noTables "2+2=4, true or false?" Inputs.mathQuestion
              "student1" {| username := Some "amy" |} "conversation1"
              (Throws "database unavailable")
              {| AnswerGeneration.answer := "True: 2 + 2 = 4.";
                 AnswerGeneration.confidence :=
                   AnswerGeneration.confidenceOf (num := float) [];
                 AnswerGeneration.sources := [];
                 AnswerGeneration.tokenUsage := 4;
                 AnswerGeneration.metadata :=
                   {| AnswerGeneration.documentsUsed := 0;
                      AnswerGeneration.avgRelevance :=
                        AnswerGeneration.averageRelevance (num := float) [] |} |}
              eq_refl eq_refl eq_refl eq_refl eq_refl eq_refl eq_refl
              (fun q o => eq_refl) eq_refl (fun q h => eq_refl) eq_refl)
    as (data & Hdata & Hanswer & _ & _ & _ & Hmessage & Hchat).
  exists data. split; [ exact Hdata | ]. split; [ exact Hanswer | ].
  split; [ exact Hmessage | ]. rewrite Hchat. reflexivity.
Defined.
End PlaygroundAndWorkflow.

(** ** Text cleaning and chunk storage *)

Section CleanText.
Import DocumentProcessing DocumentStore.
Local Open Scope string_scope.

Lemma collapseWhitespace_length (l : list ascii) :
  forall in_run, (List.length (collapseWhitespace l in_run) <= List.length l)%nat.
Proof.
  induction l as [| c l IH]; intros in_run; simpl; [ lia | ].
  destruct (Js.is_space c); [ destruct in_run | ]; simpl;
    match goal with
    | |- context [collapseWhitespace l ?b] => specialize (IH b)
    end; lia.
Qed.

Lemma collapseWhitespace_plain (l : list ascii) :
  forall in_run,
    Forall (fun c => Js.is_space c = true -> c = " "%char) (collapseWhitespace l in_run).
Proof.
  induction l as [| c l IH]; intros in_run; simpl; [ constructor | ].
  destruct (Js.is_space c) eqn:E; [ destruct in_run | ].
  - apply IH.
  - constructor; [ reflexivity | apply IH ].
  - constructor; [ congruence | apply IH ].
Qed.

(** The two replacements that follow only drop characters. *)
Lemma removePageNumbers_keeps (P : ascii -> Prop) (l : list ascii) :
  Forall P l ->
  forall afterWord skip,
    Forall P (removePageNumbers l afterWord skip)
    /\ (List.length (removePageNumbers l afterWord skip) <= List.length l)%nat.
Proof.
  induction 1 as [| c l Hc _ IH]; intros afterWord skip;
    cbn [removePageNumbers List.length];
    [ split; [ constructor | lia ] | ].
  destruct skip as [| k].
  - destruct (if afterWord then None else pageMatch (c :: l)) as [n |].
    + destruct (IH (is_word c) (n - 1)%nat) as [Hall Hlen]. split; [ exact Hall | lia ].
    + destruct (IH (is_word c) 0%nat) as [Hall Hlen].
      split; [ now constructor | cbn [List.length]; lia ].
  - destruct (IH (is_word c) k) as [Hall Hlen]. split; [ exact Hall | lia ].
Qed.

Lemma squeezeRepeats_keeps (P : ascii -> Prop) (l : list ascii) :
  Forall P l ->
  forall skip,
    Forall P (squeezeRepeats l skip)
    /\ (List.length (squeezeRepeats l skip) <= List.length l)%nat.
Proof.
  induction 1 as [| c l Hc _ IH]; intros skip;
    cbn [squeezeRepeats List.length];
    [ split; [ constructor | lia ] | ].
  destruct skip as [| k].
  - destruct (negb (is_word c) && negb (Js.is_space c)
              && (3 <=? leading (Ascii.eqb c) l)%nat).
    + destruct (IH (leading (Ascii.eqb c) l)) as [Hall Hlen].
      split; [ now constructor | cbn [List.length]; lia ].
    + destruct (IH 0%nat) as [Hall Hlen].
      split; [ now constructor | cbn [List.length]; lia ].
  - destruct (IH k) as [Hall Hlen]. split; [ exact Hall | lia ].
Qed.

Lemma drop_spaces_suffix (l : list ascii) :
  exists spaces, l = (spaces ++ Js.drop_spaces l)%list.
Proof.
  induction l as [| c l (spaces & IH)]; simpl; [ now exists [] | ].
  destruct (Js.is_space c); [ | now exists [] ].
  exists (c :: spaces). simpl. now rewrite <- IH.
Qed.

Lemma drop_spaces_head (l rest : list ascii) (c : ascii) :
  Js.drop_spaces l = c :: rest -> Js.is_space c = false.
Proof.
  induction l as [| d l IH]; simpl; [ discriminate | ].
  destruct (Js.is_space d) eqn:E; [ exact IH | ].
  intros Heq. injection Heq as <- _. exact E.
Qed.

Lemma drop_spaces_keeps (P : ascii -> Prop) (l : list ascii) :
  Forall P l -> Forall P (Js.drop_spaces l).
Proof.
  intros Hall. destruct (drop_spaces_suffix l) as (spaces & Heq).
  rewrite Heq in Hall. apply Forall_app in Hall. tauto.
Qed.

(** What [trim] leaves at the two ends. *)
Lemma trim_ends (s : string) :
  (forall c rest, list_ascii_of_string (Js.trim s) = c :: rest ->
                  Js.is_space c = false)
  /\ (forall front c, list_ascii_of_string (Js.trim s) = (front ++ [c])%list ->
                      Js.is_space c = false).
Proof.
  unfold Js.trim. rewrite list_ascii_of_string_of_list_ascii.
  set (inner := Js.drop_spaces (list_ascii_of_string s)).
  split.
  - intros c rest Heq.
    destruct (drop_spaces_suffix (rev inner)) as (spaces & Hsuffix).
    assert (Hinner : inner = (rev (Js.drop_spaces (rev inner)) ++ rev spaces)%list).
    { rewrite <- rev_app_distr, <- Hsuffix. now rewrite rev_involutive. }
    rewrite Heq in Hinner. cbn [app] in Hinner.
    eapply drop_spaces_head. exact Hinner.
  - intros front c Heq.
    apply (f_equal (@rev ascii)) in Heq.
    rewrite rev_involutive, rev_app_distr in Heq. cbn [rev app] in Heq.
    eapply drop_spaces_head. exact Heq.
Qed.

(** X27: what [cleanText] guarantees.  The cleaned text is never longer
    than the text; the only whitespace left in it is the space character
    (no tab, no line break); and it neither starts nor ends with
    whitespace. *)
Theorem cleanText_cleans :
  forall text : string,
    (String.length (cleanText text) <= String.length text)%nat
    /\ Forall (fun c => Js.is_space c = true -> c = " "%char)
              (list_ascii_of_string (cleanText text))
    /\ (forall c rest, list_ascii_of_string (cleanText text) = c :: rest ->
                       Js.is_space c = false)
    /\ (forall front c, list_ascii_of_string (cleanText text) = (front ++ [c])%list ->
                        Js.is_space c = false).
Proof.
  intros text. unfold cleanText.
  set (collapsed := collapseWhitespace (list_ascii_of_string text) false).
  destruct (removePageNumbers_keeps
              (collapseWhitespace_plain (list_ascii_of_string text) false) false 0)
    as [Hplain1 Hlen1]. fold collapsed in Hplain1, Hlen1.
  destruct (squeezeRepeats_keeps Hplain1 0) as [Hplain2 Hlen2].
  set (squeezed := squeezeRepeats (removePageNumbers collapsed false 0) 0) in *.
  split; [ | split; [ | apply trim_ends ] ].
  - etransitivity; [ apply trim_length | ].
    rewrite list_length_string, string_length_list.
    pose proof (collapseWhitespace_length (list_ascii_of_string text) false).
    fold collapsed in H. lia.
  - unfold Js.trim.
    rewrite !list_ascii_of_string_of_list_ascii.
    apply Forall_rev, drop_spaces_keeps, Forall_rev, drop_spaces_keeps.
    exact Hplain2.
Qed.
End CleanText.

Section ChunkStorage.
Import DocumentProcessing DocumentStore.
Local Open Scope string_scope.

(** X28: storing the chunks of a document and deleting them again.  If no
    row of the chunk table belongs to the document, a
    [storeDocumentChunks] that returns has added one row per chunk.  A
    [deleteDocumentChunks] that follows it, in whatever state the
    database is by then, either fails, throws and leaves the rows in
    place, or returns [{ success: true }] and leaves the database as it
    was before the store: every row that was written is removed, and no
    row of another document is. *)
Theorem store_then_delete_chunks :
  forall (num : Type) (env later : Env num) (db db' : Db num) (documentId : string)
         (chunks' : list DocChunk) (r : StoreResult),
    storeDocumentChunks env db documentId chunks' = (Returns r, db') ->
    (forall row, In row (chunkRows db) -> row_documentId row <> documentId) ->
    List.length (chunkRows db') = (List.length (chunkRows db) + List.length chunks')%nat
    /\ (chunkDeleteFails later = false ->
        deleteDocumentChunks later db' documentId
        = (Returns {| dr_success := true |}, db))
    /\ (chunkDeleteFails later = true ->
        exists message,
          deleteDocumentChunks later db' documentId = (Throws message, db')).
Proof.
  intros num env later db db' documentId chunks' r Hstore Hother.
  destruct (storeDocumentChunks_returns _ _ _ _ Hstore) as (rows & -> & Hrows).
  split; [ | split ].
  - cbn [chunkRows]. rewrite length_app, (Forall2_length Hrows). reflexivity.
  - intros Hup.
    unfold deleteDocumentChunks. rewrite Hup. cbn [documents chunkRows].
    rewrite filter_app.
    assert (Hold : forall l : list (ChunkRow num),
               (forall row, In row l -> row_documentId row <> documentId) ->
               filter (fun row => negb (row_documentId row =? documentId)) l = l).
    { induction l as [| row l IH]; intros Hl; [ reflexivity | ].
      cbn [filter].
      assert (Hrow : (row_documentId row =? documentId) = false)
        by (apply String.eqb_neq, Hl; now left).
      rewrite Hrow. cbn [negb]. f_equal. apply IH.
      intros row' Hin. apply Hl. now right. }
    assert (Hnew : filter (fun row => negb (row_documentId row =? documentId)) rows = []).
    { clear Hstore. induction Hrows as [| chunk row l l' (_ & _ & Hid & _) _ IH];
        [ reflexivity | ].
      cbn [filter]. rewrite Hid, String.eqb_refl. exact IH. }
    rewrite (Hold _ Hother), Hnew, app_nil_r. destruct db; reflexivity.
  - intros Hdown. unfold deleteDocumentChunks. rewrite Hdown. eauto.
Qed.

Lemma store_then_delete_chunks_witness :
  exists r db',
    storeDocumentChunks (Inputs.ingestion true) Inputs.emptyDb "doc7"
      (chunkDocument "Water boils at 100 degrees. Ice melts at 0 degrees."
         (ingestionOptions "Water"))
    = (Returns r, db')
    /\ List.length (chunkRows db') = 1%nat
    /\ deleteDocumentChunks (Inputs.ingestion true) db' "doc7"
       = (Returns {| dr_success := true |}, Inputs.emptyDb)
    /\ exists message,
        deleteDocumentChunks Inputs.deleteDown db' "doc7" = (Throws message, db').
Proof.
  destruct (storeDocumentChunks (Inputs.ingestion true) Inputs.emptyDb "doc7"
              (chunkDocument "Water boils at 100 degrees. Ice melts at 0 degrees."
                 (ingestionOptions "Water")))
    as [[r | e] db'] eqn:Hstore; [ | vm_compute in Hstore; discriminate ].
  exists r, db'. split; [ reflexivity | ].
  destruct (@store_then_delete_chunks float (Inputs.ingestion true)
              (Inputs.ingestion true) Inputs.emptyDb db'
              "doc7" _ r Hstore) as (Hlength & Hdelete & _).
  - intros row [].
  - split; [ rewrite Hlength; vm_compute; reflexivity | ].
    split; [ exact (Hdelete eq_refl) | ].
    eexists. reflexivity.
Defined.
End ChunkStorage.
